(** * Turn engine of the AI-narrated role-playing game client

    A shallow embedding of the turn-resolution code of the repository:
    - [JS]: the JavaScript string and number primitives the code calls;
    - [ItemFactory]: [createItemFromString] (services/itemFactory.ts);
    - [Parser]: [parseTextResponse] (services/gemini.ts);
    - [App]: the state reducers and handlers of the [App] component
      ([calculateStats], the max-HP effect, [handleChoiceClick],
      [handleCustomChoiceSubmit], [handleStopRequest], [handleRetryRequest],
      [processTurn] and [generateAndProcessAIResponse]).
    - [Render]: what the component computes while rendering
      ([previewStats], [getRiskAssessment]);
    - [Sidebar]: the drag-and-drop handlers of the two sidebars;
    - [DebugLog]: the log service (services/debugLog.ts);
    - [StatBuilder]: the point allocation (components/StatBuilder.tsx);
    - [QuestSystem]: [generateSideQuests] and [checkQuestProgress]
      (services/questSystem.ts).

    Modelling conventions.
    - Strings are Rocq [string]s read as sequences of ASCII characters:
      [toLowerCase], [toUpperCase], [trim] and the regular-expression class
      [\s] act on the ASCII letters and the ASCII white space only.
    - Integer-valued JavaScript numbers are [Z]; a number that may be [NaN]
      is a [JS.num].  Where the code divides (the max-HP effect, the risk
      assessment), it is computed on binary64 floats as the code does.
    - [Math.random] and [Date.now] are inputs: every function that draws
      takes the draws as arguments.
    - A React functional update [setGameState(prev => f prev)] is the
      function [f]; a handler is the composition of the updates it queues,
      applied to the state its closure was rendered from.

    The definitions of the code come first, then the vocabulary of the
    properties and the sample data, then the properties C1 to C10 and
    X1 to X28. *)

From Stdlib Require Import ZArith List String Ascii Bool Lia Floats.
From Stdlib Require Import Arith Wf_nat DecimalString.
From Equations Require Import Equations.
From Equations.Prop Require Import Logic.
Import ListNotations.

Local Open Scope string_scope.
Local Open Scope list_scope.

(* ===================================================================== *)
(** ** JavaScript primitives *)
(* ===================================================================== *)

Module JS.

(** A number that can be [NaN] (the result of [parseInt]). *)
Inductive num : Type :=
| NaN
| Num (z : Z).

(** [x || d] on numbers: [NaN] and [0] are falsy. *)
Definition num_or (x : num) (d : Z) : Z :=
  match x with
  | NaN => d
  | Num z => if Z.eqb z 0 then d else z
  end.

Definition code (c : ascii) : nat := nat_of_ascii c.

Definition is_upper (c : ascii) : bool :=
  Nat.leb 65 (code c) && Nat.leb (code c) 90.

Definition is_lower (c : ascii) : bool :=
  Nat.leb 97 (code c) && Nat.leb (code c) 122.

Definition is_digit (c : ascii) : bool :=
  Nat.leb 48 (code c) && Nat.leb (code c) 57.

(** White space: TAB, LF, VT, FF, CR and SPACE. *)
Definition is_space (c : ascii) : bool :=
  (Nat.leb 9 (code c) && Nat.leb (code c) 13) || Nat.eqb (code c) 32.

Definition lower_char (c : ascii) : ascii :=
  if is_upper c then ascii_of_nat (code c + 32) else c.

Definition upper_char (c : ascii) : ascii :=
  if is_lower c then ascii_of_nat (code c - 32) else c.

Fixpoint map_chars (f : ascii -> ascii) (s : string) : string :=
  match s with
  | EmptyString => EmptyString
  | String c r => String (f c) (map_chars f r)
  end.

Definition toLowerCase : string -> string := map_chars lower_char.
Definition toUpperCase : string -> string := map_chars upper_char.

(** A string is truthy when it is not empty. *)
Definition truthy (s : string) : bool :=
  match s with
  | EmptyString => false
  | String _ _ => true
  end.

Fixpoint drop (n : nat) (s : string) : string :=
  match n, s with
  | O, _ => s
  | S _, EmptyString => EmptyString
  | S k, String _ r => drop k r
  end.

Definition startsWith (s p : string) : bool := String.prefix p s.

Fixpoint drop_while (p : ascii -> bool) (s : string) : string :=
  match s with
  | EmptyString => EmptyString
  | String c r => if p c then drop_while p r else s
  end.

Fixpoint take_while (p : ascii -> bool) (s : string) : string :=
  match s with
  | EmptyString => EmptyString
  | String c r => if p c then String c (take_while p r) else EmptyString
  end.

Definition trimStart (s : string) : string := drop_while is_space s.

Fixpoint trimEnd (s : string) : string :=
  match s with
  | EmptyString => EmptyString
  | String c r =>
      match trimEnd r with
      | EmptyString => if is_space c then EmptyString else String c EmptyString
      | r' => String c r'
      end
  end.

Definition trim (s : string) : string := trimEnd (trimStart s).

(** [hay.includes(needle)], also the test [hay.match(/a|b|.../)] for one
    literal alternative. *)
Fixpoint includes (hay needle : string) : bool :=
  String.prefix needle hay
  || match hay with
     | EmptyString => false
     | String _ r => includes r needle
     end.

(** [hay.match(/n1|n2|.../)] as a truth value, for literal alternatives. *)
Definition matches_any (hay : string) (needles : list string) : bool :=
  existsb (includes hay) needles.

(** [xs.includes(x)] on an array of strings. *)
Definition mem (x : string) (xs : list string) : bool :=
  existsb (String.eqb x) xs.

(** [s.replace(pat, rep)] with a string pattern: the first occurrence. *)
Fixpoint replace (s pat rep : string) : string :=
  if String.prefix pat s then rep ++ drop (String.length pat) s
  else match s with
       | EmptyString => EmptyString
       | String c r => String c (replace r pat rep)
       end.

(** [s.split(sep)] for a one-character separator. *)
Fixpoint split (sep : ascii) (s : string) : list string :=
  match s with
  | EmptyString => [EmptyString]
  | String c r =>
      if Ascii.eqb c sep then EmptyString :: split sep r
      else match split sep r with
           | h :: t => String c h :: t
           | [] => [String c EmptyString]
           end
  end.

Definition LF : ascii := ascii_of_nat 10.
Definition CR : ascii := ascii_of_nat 13.
Definition TAB : ascii := ascii_of_nat 9.

Definition push_char (c : ascii) (ls : list string) : list string :=
  match ls with
  | h :: t => String c h :: t
  | [] => [String c EmptyString]
  end.

(** [s.split(/\r?\n/)]. *)
Fixpoint splitLines (s : string) : list string :=
  match s with
  | EmptyString => [EmptyString]
  | String c r =>
      if Ascii.eqb c LF then EmptyString :: splitLines r
      else if Ascii.eqb c CR then
        match r with
        | String c' r' =>
            if Ascii.eqb c' LF then EmptyString :: splitLines r'
            else push_char c (splitLines r)
        | EmptyString => push_char c (splitLines r)
        end
      else push_char c (splitLines r)
  end.

(** [s.slice(1, -1)]. *)
Fixpoint drop_last (s : string) : string :=
  match s with
  | EmptyString => EmptyString
  | String c EmptyString => EmptyString
  | String c r => String c (drop_last r)
  end.

Definition slice_1_m1 (s : string) : string := drop_last (drop 1 s).

Fixpoint last_char (s : string) : option ascii :=
  match s with
  | EmptyString => None
  | String c EmptyString => Some c
  | String _ r => last_char r
  end.

Definition endsWith_char (s : string) (c : ascii) : bool :=
  match last_char s with
  | Some d => Ascii.eqb c d
  | None => false
  end.

Definition digit_value (c : ascii) : option Z :=
  if is_digit c then Some (Z.of_nat (code c - 48)) else None.

Definition hex_value (c : ascii) : option Z :=
  if is_digit c then Some (Z.of_nat (code c - 48))
  else if Nat.leb 97 (code c) && Nat.leb (code c) 102
       then Some (Z.of_nat (code c - 87))
  else if Nat.leb 65 (code c) && Nat.leb (code c) 70
       then Some (Z.of_nat (code c - 55))
  else None.

(** The longest prefix of digits of the radix, read as a number;
    [None] when there is no digit. *)
Fixpoint read_digits (value : ascii -> option Z) (radix : Z)
         (acc : option Z) (s : string) : option Z :=
  match s with
  | EmptyString => acc
  | String c r =>
      match value c with
      | Some d =>
          read_digits value radix
            (Some (match acc with Some a => a * radix + d | None => d end)%Z) r
      | None => acc
      end
  end.

Definition read_unsigned (s : string) : option Z :=
  match s with
  | String "0" (String x r) =>
      if Ascii.eqb x "x" || Ascii.eqb x "X"
      then read_digits hex_value 16 None r
      else read_digits digit_value 10 None s
  | _ => read_digits digit_value 10 None s
  end.

(** [parseInt(s)]: leading white space, an optional sign, an optional
    [0x] prefix, then the longest run of digits. *)
Definition parseInt (s : string) : num :=
  let t := trimStart s in
  let '(neg, body) :=
    match t with
    | String "-" r => (true, r)
    | String "+" r => (false, r)
    | _ => (false, t)
    end in
  match read_unsigned body with
  | Some z => Num (if neg then (- z)%Z else z)
  | None => NaN
  end.

(** [parseInt(undefined)]: the string ["undefined"] has no digit. *)
Definition parseInt_opt (s : option string) : num :=
  match s with
  | Some t => parseInt t
  | None => NaN
  end.

(** *** Binary64 arithmetic *)

(** An integer as a double (exact below 2^53 in absolute value). *)
Definition float_of_Z (z : Z) : float :=
  if (z <? 0)%Z then PrimFloat.opp (PrimFloat.of_uint63 (Uint63.of_Z (- z)))
  else PrimFloat.of_uint63 (Uint63.of_Z z).

(** [Math.round(x)]: the integer nearest to [x], ties towards +infinity;
    [None] when [x] is [NaN] or infinite. *)
Definition Math_round (x : float) : option Z :=
  match Prim2SF x with
  | S754_zero _ => Some 0%Z
  | S754_finite s m e =>
      let v := if s then Z.neg m else Z.pos m in
      if (0 <=? e)%Z then Some (v * 2 ^ e)%Z
      else Some ((2 * v + 2 ^ (- e)) / 2 ^ (1 - e))%Z
  | S754_infinity _ => None
  | S754_nan => None
  end.

End JS.

(* ===================================================================== *)
(** ** Data model (types.ts) *)
(* ===================================================================== *)

Inductive StatType : Type := STR | DEX | CON | INT | CHA | PER | LUK.

Definition StatType_eqb (a b : StatType) : bool :=
  match a, b with
  | STR, STR | DEX, DEX | CON, CON | INT, INT
  | CHA, CHA | PER, PER | LUK, LUK => true
  | _, _ => false
  end.

Inductive ItemType : Type := weapon | armor | accessory | misc.

Record CharacterStats : Type := mkStats {
  sSTR : Z; sDEX : Z; sCON : Z; sINT : Z; sCHA : Z; sPER : Z; sLUK : Z
}.

(** [stats[k]] *)
Definition stat_get (s : CharacterStats) (k : StatType) : Z :=
  match k with
  | STR => sSTR s | DEX => sDEX s | CON => sCON s | INT => sINT s
  | CHA => sCHA s | PER => sPER s | LUK => sLUK s
  end.

(** [{ ...stats, [k]: v }] *)
Definition stat_set (s : CharacterStats) (k : StatType) (v : Z)
  : CharacterStats :=
  match k with
  | STR => mkStats v (sDEX s) (sCON s) (sINT s) (sCHA s) (sPER s) (sLUK s)
  | DEX => mkStats (sSTR s) v (sCON s) (sINT s) (sCHA s) (sPER s) (sLUK s)
  | CON => mkStats (sSTR s) (sDEX s) v (sINT s) (sCHA s) (sPER s) (sLUK s)
  | INT => mkStats (sSTR s) (sDEX s) (sCON s) v (sCHA s) (sPER s) (sLUK s)
  | CHA => mkStats (sSTR s) (sDEX s) (sCON s) (sINT s) v (sPER s) (sLUK s)
  | PER => mkStats (sSTR s) (sDEX s) (sCON s) (sINT s) (sCHA s) v (sLUK s)
  | LUK => mkStats (sSTR s) (sDEX s) (sCON s) (sINT s) (sCHA s) (sPER s) v
  end.

(** [StatExperience = Record<StatType, number>] has the same shape. *)
Definition StatExperience : Type := CharacterStats.

(** [Partial<CharacterStats>]: an object whose own keys are stat names, in
    insertion order (the order [Object.keys] returns). *)
Definition PartialStats : Type := list (StatType * Z).

Fixpoint partial_get (p : PartialStats) (k : StatType) : option Z :=
  match p with
  | [] => None
  | (k', v) :: r => if StatType_eqb k k' then Some v else partial_get r k
  end.

(** [p[k] = v]: an existing key keeps its place. *)
Fixpoint partial_set (p : PartialStats) (k : StatType) (v : Z)
  : PartialStats :=
  match p with
  | [] => [(k, v)]
  | (k', v') :: r =>
      if StatType_eqb k k' then (k, v) :: r else (k', v') :: partial_set r k v
  end.

(** [p[k] || d] *)
Definition partial_get_or (p : PartialStats) (k : StatType) (d : Z) : Z :=
  match partial_get p k with
  | Some v => if Z.eqb v 0 then d else v
  | None => d
  end.

Record InventoryItem : Type := mkItem {
  item_id : string;
  item_name : string;
  item_type : ItemType;
  item_description : option string;
  item_bonuses : option PartialStats
}.

Record EquippedGear : Type := mkGear {
  g_weapon : option InventoryItem;
  g_armor : option InventoryItem;
  g_accessory : option InventoryItem
}.

Inductive EffectType : Type := buff | debuff.

Record StatusEffect : Type := mkEffect {
  eff_id : string;
  eff_name : string;
  eff_description : string;
  eff_type : EffectType;
  eff_duration : Z;
  eff_statModifiers : option PartialStats;
  eff_blocksHeroicActions : option bool
}.

(** [type] and [condition] are kept as the strings they are at run time:
    the update path stores what the response carries, uncast. *)
Record NPC : Type := mkNPC {
  npc_id : string;
  npc_name : string;
  npc_description : string;
  npc_type : string;
  npc_condition : string
}.

Inductive GameStatus : Type := ongoing | won | lost.

Inductive GamePhase : Type :=
| menu | setup_genre | setup_stats | creating_world | playing | game_over.

Record ChoiceData : Type := mkChoice {
  choice_text : string;
  choice_type : option StatType;
  choice_difficulty : option Z
}.

Record RollResult : Type := mkRoll {
  roll_total : Z;
  roll_base : Z;
  roll_modifier : Z;
  roll_isSuccess : bool;
  roll_statType : StatType;
  roll_difficulty : Z
}.

Record LevelUpEvent : Type := mkLevelUp {
  lvl_stat : StatType;
  lvl_oldValue : Z;
  lvl_newValue : Z
}.

Record StoryTurn : Type := mkTurn {
  turn_id : string;
  turn_text : string;
  turn_choices : option (list ChoiceData);
  turn_isUserTurn : bool;
  turn_rollResult : option RollResult;
  turn_levelUpEvent : option LevelUpEvent;
  turn_statsUpdated : option PartialStats;
  turn_inventoryAdded : option (list InventoryItem);
  turn_inventoryRemoved : option (list string);
  turn_newEffects : option (list StatusEffect);
  turn_npcUpdates : option (list NPC)
}.

Record AddedItem : Type := mkAdded {
  added_name : string;
  added_type : ItemType;
  added_description : option string
}.

Record NPCUpdate : Type := mkNPCUpdate {
  upd_name : string;
  upd_condition : string;
  upd_status : option string
}.

Record NPCsUpdate : Type := mkNPCs {
  npcs_add : option (list NPC);
  npcs_update : option (list NPCUpdate);
  npcs_remove : option (list string)
}.

Record ActionResult : Type := mkAction {
  act_stat : StatType;
  act_difficulty : Z;
  act_base_roll : Z;
  act_total : Z;
  act_is_success : bool
}.

Record EquipmentUpdate : Type := mkEquipUpd {
  equ_equip : option (list string);
  equ_unequip : option (list string)
}.

(** The response as the reducer receives it.  Optional fields are
    [option]s; [choices] is declared mandatory but the reducer tests it, so
    it is optional here as well. *)
Record AIStoryResponse : Type := mkResponse {
  narrative : string;
  choices : option (list ChoiceData);
  inventory_added : option (list AddedItem);
  inventory_removed : option (list string);
  equipment_update : option EquipmentUpdate;
  quest_update : option string;
  hp_change : option Z;
  game_status : option GameStatus;
  stats_update : option PartialStats;
  new_effects : option (list StatusEffect);
  npcs_update_field : option NPCsUpdate;
  action_result : option ActionResult
}.

(** [MainStoryArc] is produced and read by the story service only; the
    reducers carry it along. *)
Record MainStoryArc : Type := mkArc {
  arc_campaignTitle : string;
  arc_backgroundLore : string;
  arc_finalObjective : string
}.

Record GameState : Type := mkGame {
  inventory : list InventoryItem;
  equipped : EquippedGear;
  currentQuest : string;
  npcs : list NPC;
  history : list StoryTurn;
  isLoading : bool;
  isRolling : bool;
  hp : Z;
  maxHp : Z;
  hpHistory : list Z;
  gameStatus : GameStatus;
  phase : GamePhase;
  genre : string;
  stats : CharacterStats;
  statExperience : StatExperience;
  activeEffects : list StatusEffect;
  startingStats : CharacterStats;
  finalSummary : option string;
  finalStoryboard : option string;
  customChoicesRemaining : Z;
  mainStoryArc : option MainStoryArc
}.

(** [xs || []] *)
Definition or_nil {A : Type} (xs : option (list A)) : list A :=
  match xs with
  | Some l => l
  | None => []
  end.

(* ===================================================================== *)
(** ** The item classifier (services/itemFactory.ts) *)
(* ===================================================================== *)

Module ItemFactory.

Definition weapon_words : list string :=
  ["sword"; "axe"; "dagger"; "blade"; "spear"; "mace"; "hammer"; "bow";
   "staff"; "wand"; "pipe"; "bar"; "club"; "stick"; "rock"; "stone";
   "brick"; "shiv"; "knife"; "glass"; "shard"; "wrench"; "crowbar"; "bat";
   "pistol"; "rifle"; "gun"; "blaster"; "saber"; "claws"].

Definition armor_words : list string :=
  ["shield"; "armor"; "mail"; "plate"; "helmet"; "robe"; "cloak"; "vest";
   "jacket"; "coat"; "shirt"; "tunic"; "boots"; "gloves"; "bracers";
   "pants"; "greaves"; "suit"; "garb"].

Definition accessory_words : list string :=
  ["ring"; "amulet"; "necklace"; "charm"; "gem"; "stone"; "talisman";
   "watch"; "goggles"; "glasses"; "monocle"; "crown"; "tiara"; "belt";
   "scarf"; "pendant"; "orb"; "device"; "gadget"].

Definition classify (lowerName : string) : ItemType :=
  if JS.matches_any lowerName weapon_words then weapon
  else if JS.matches_any lowerName armor_words then armor
  else if JS.matches_any lowerName accessory_words then accessory
  else misc.

(** [bonuses.K = (bonuses.K || 0) + d] *)
Definition bump (b : PartialStats) (k : StatType) (d : Z) : PartialStats :=
  partial_set b k (partial_get_or b k 0 + d)%Z.

Definition random_stats : list StatType := [STR; DEX; CON; INT; CHA].

(** Step 2: the bonuses the type and the keywords give.  [pick] is the
    draw [Math.floor(Math.random() * stats.length)], below 5. *)
Definition base_bonuses (pick : nat) (type : ItemType) (lowerName : string)
  : PartialStats :=
  let has := JS.matches_any lowerName in
  match type with
  | weapon =>
      if has ["heavy"; "great"; "hammer"; "axe"; "mace"; "club"; "pipe";
              "bar"; "wrench"; "crowbar"; "bat"; "rock"; "brick"]
      then bump [] STR 2
      else if has ["dagger"; "bow"; "rapier"; "knife"; "shiv"; "spear";
                   "pistol"; "rifle"; "gun"; "blaster"]
      then bump [] DEX 2
      else if has ["staff"; "wand"; "tome"; "saber"]
      then bump [] INT 2
      else bump [] STR 1
  | armor =>
      if has ["plate"; "heavy"; "mail"; "metal"; "riot"]
      then bump (bump [] CON 2) DEX (-1)
      else if has ["robe"; "cloak"; "wizard"; "mage"]
      then bump (bump [] INT 1) CON 1
      else bump [] CON 1
  | accessory =>
      if has ["strength"; "power"; "muscle"; "bear"] then [(STR, 1%Z)]
      else if has ["dexterity"; "swift"; "cat"; "thief"; "speed"]
      then [(DEX, 1%Z)]
      else if has ["health"; "vitality"; "life"; "heart"] then [(CON, 1%Z)]
      else if has ["intelligence"; "mind"; "wisdom"; "owl"; "fox"; "smart"]
      then [(INT, 1%Z)]
      else if has ["charisma"; "charm"; "king"; "leader"; "eagle"; "gold"]
      then [(CHA, 1%Z)]
      else if has ["watch"; "gadget"; "device"] then [(INT, 1%Z)]
      else [(nth pick random_stats STR, 1%Z)]
  | misc => []
  end.

(** Step 3: quality modifiers act on the first key of the object. *)
Definition worn (b : PartialStats) : PartialStats :=
  match b with
  | (k, _) :: _ => partial_set b k (Z.max 1 (partial_get_or b k 1 - 1))
  | [] => b
  end.

Definition superior (b : PartialStats) : PartialStats :=
  match b with
  | (k, _) :: _ => partial_set b k (partial_get_or b k 0 + 1)%Z
  | [] => [(CHA, 1%Z)]
  end.

(** [createItemFromString(name)]; [id] is the value of [generateId()]. *)
Definition createItemFromString (id : string) (pick : nat) (name : string)
  : InventoryItem :=
  let lowerName := JS.toLowerCase name in
  let type := classify lowerName in
  let b0 := base_bonuses pick type lowerName in
  let b1 :=
    if JS.matches_any lowerName
         ["rusty"; "broken"; "cracked"; "shoddy"; "old"]
    then worn b0 else b0 in
  let b2 :=
    if JS.matches_any lowerName
         ["magic"; "enchanted"; "legendary"; "flaming"; "divine";
          "masterwork"; "high-tech"; "plasma"; "laser"]
    then superior b1 else b1 in
  mkItem id name type None
         (match b2 with [] => None | _ => Some b2 end).

End ItemFactory.

(* ===================================================================== *)
(** ** The delimited-text normalizer (services/gemini.ts) *)
(* ===================================================================== *)

(** The result of running code that can throw. *)
Inductive completion (A : Type) : Type :=
| Returns (a : A)
| Throws (error : string).
Arguments Returns {A} a.
Arguments Throws {A} error.

Definition bind {A B : Type} (c : completion A) (k : A -> completion B)
  : completion B :=
  match c with
  | Returns a => k a
  | Throws e => Throws e
  end.

Notation "x <- c ;; k" := (bind c (fun x => k))
  (at level 61, c at next level, right associativity).

(** [for (const x of xs) body], where [body] can throw. *)
Fixpoint for_of {A S : Type} (body : S -> A -> completion S)
         (xs : list A) (st : S) : completion S :=
  match xs with
  | [] => Returns st
  | x :: r => st' <- body st x ;; for_of body r st'
  end.

(** The loop [while ((m = re.exec(text)) !== null)] of a global regular
    expression whose matches are not empty: [match_at s] is the match that
    starts at the head of [s], with the input left after it. *)
Section GlobalExec.
Context {A : Type} (match_at : string -> option (A * string)).
Hypothesis match_consumes :
  forall s a r, match_at s = Some (a, r) ->
                (String.length r < String.length s)%nat.

Equations exec_all (s : string) : list A by wf (String.length s) lt :=
  exec_all s with inspect (match_at s) := {
    | exist _ (Some (a, r)) H => a :: exec_all r
    | exist _ None H with s := {
        | EmptyString => []
        | String _ r => exec_all r } }.
End GlobalExec.

Module Parser.

(** The fields the parser fills through [as any] casts keep the text of
    the line: a choice's [type], an item's [type], an effect's [type] and
    the action's [stat] are strings here. *)
Record Choice : Type := mkChoice {
  text : string;
  type : option string;
  difficulty : option JS.num
}.

(** A string-keyed object, keys in insertion order. *)
Definition Bonuses : Type := list (string * Z).

Fixpoint bonuses_set (b : Bonuses) (k : string) (v : Z) : Bonuses :=
  match b with
  | [] => [(k, v)]
  | (k', v') :: r =>
      if String.eqb k k' then (k, v) :: r else (k', v') :: bonuses_set r k v
  end.

Record Item : Type := mkItem {
  name : string;
  itype : string;
  description : string;
  bonuses : option Bonuses
}.

Record Effect : Type := mkEffect {
  eid : string;
  ename : string;
  etype : string;
  edescription : string;
  duration : Z
}.

Record Equipment : Type := mkEquipment {
  equip : list string;
  unequip : list string
}.

(** The object [result] of the ACTION_RESULT block: a field is [None]
    until a line sets it; [stat] is also [None] when the line set it to
    [undefined]. *)
Record Action : Type := mkAction {
  stat : option string;
  adifficulty : option JS.num;
  base_roll : option JS.num;
  total : option JS.num;
  is_success : option bool
}.

Record AIStoryResponse : Type := mkResponse {
  narrative : string;
  choices : list Choice;
  game_status : GameStatus;
  hp_change : Z;
  quest_update : option string;
  inventory_added : option (list Item);
  inventory_removed : option (list string);
  equipment_update : option Equipment;
  new_effects : option (list Effect);
  action_result : option Action
}.

(** *** The section scanner *)

Definition is_header_char (c : ascii) : bool :=
  JS.is_upper c || Ascii.eqb c "_".

Definition is_blank (c : ascii) : bool :=
  Ascii.eqb c " " || Ascii.eqb c JS.TAB.

(** [(?:\r?\n|\r)] at the head of [s]: the input after it. *)
Definition newline (s : string) : option string :=
  match s with
  | String c r =>
      if Ascii.eqb c JS.LF then Some r
      else if Ascii.eqb c JS.CR then
        match r with
        | String c' r' => if Ascii.eqb c' JS.LF then Some r' else Some r
        | EmptyString => Some r
        end
      else None
  | EmptyString => None
  end.

(** [###\s*([A-Z_]+)[ \t]*(?:\r?\n|\r)] at the head of [s]: the header
    name and the input after the line break.  The classes that follow one
    another are disjoint, so the greedy choice is the only one. *)
Definition match_header (s : string) : option (string * string) :=
  if String.prefix "###" s then
    let s1 := JS.drop_while JS.is_space (JS.drop 3 s) in
    let header := JS.take_while is_header_char s1 in
    if JS.truthy header then
      match newline (JS.drop_while is_blank
                       (JS.drop_while is_header_char s1)) with
      | Some rest => Some (header, rest)
      | None => None
      end
    else None
  else None.

(** The lookahead [(?=(?:###\s*[A-Z_]+)|$)]. *)
Definition at_boundary (s : string) : bool :=
  match s with
  | EmptyString => true
  | _ =>
      String.prefix "###" s
      && match JS.drop_while JS.is_space (JS.drop 3 s) with
         | String c _ => is_header_char c
         | EmptyString => false
         end
  end.

(** The lazy body [([\s\S]*?)] up to the first boundary: the body and the
    input from the boundary on. *)
Fixpoint take_body (s : string) : string * string :=
  if at_boundary s then (EmptyString, s)
  else match s with
       | EmptyString => (EmptyString, EmptyString)
       | String c r => let '(b, rest) := take_body r in (String c b, rest)
       end.

(** One match of [sectionRegex] at the head of [s]. *)
Definition match_section (s : string) : option ((string * string) * string) :=
  match match_header s with
  | Some (header, after) =>
      let '(body, rest) := take_body after in Some ((header, body), rest)
  | None => None
  end.

Lemma drop_while_length (p : ascii -> bool) (s : string) :
  (String.length (JS.drop_while p s) <= String.length s)%nat.
Proof.
  induction s as [|c r IH]; simpl; [lia|].
  destruct (p c); simpl; lia.
Qed.

Lemma drop_length (n : nat) (s : string) :
  (String.length (JS.drop n s) <= String.length s)%nat.
Proof.
  revert s; induction n as [|n IH]; intros [|c r]; simpl; try lia.
  specialize (IH r); lia.
Qed.

Lemma newline_length (s r : string) :
  newline s = Some r -> (String.length r < String.length s)%nat.
Proof.
  destruct s as [|c s]; simpl; [discriminate|].
  destruct (Ascii.eqb c JS.LF); [intros [= <-]; lia|].
  destruct (Ascii.eqb c JS.CR); [|discriminate].
  destruct s as [|c' s']; [intros [= <-]; simpl; lia|].
  destruct (Ascii.eqb c' JS.LF); intros [= <-]; simpl; lia.
Qed.

Lemma take_body_length (s : string) :
  (String.length (snd (take_body s)) <= String.length s)%nat.
Proof.
  induction s as [|c r IH].
  - simpl. lia.
  - cbn [take_body]. destruct (at_boundary (String c r)); [simpl; lia|].
    destruct (take_body r) as [b rest]. simpl in *. lia.
Qed.

Lemma match_header_length (s header rest : string) :
  match_header s = Some (header, rest) ->
  (String.length rest < String.length s)%nat.
Proof.
  unfold match_header.
  destruct (String.prefix "###" s); [|discriminate].
  destruct (JS.truthy _); [|discriminate].
  destruct (newline _) as [r|] eqn:E; [|discriminate].
  intros [= _ <-]. apply newline_length in E.
  pose proof (drop_while_length is_blank
    (JS.drop_while is_header_char (JS.drop_while JS.is_space (JS.drop 3 s)))).
  pose proof (drop_while_length is_header_char
    (JS.drop_while JS.is_space (JS.drop 3 s))).
  pose proof (drop_while_length JS.is_space (JS.drop 3 s)).
  pose proof (drop_length 3 s). lia.
Qed.

Lemma match_section_consumes (s : string) (a : string * string) (r : string) :
  match_section s = Some (a, r) -> (String.length r < String.length s)%nat.
Proof.
  unfold match_section.
  destruct (match_header s) as [[header after]|] eqn:E; [|discriminate].
  pose proof (take_body_length after) as L.
  destruct (take_body after) as [body rest]. intros [= _ <-].
  apply match_header_length in E. simpl in L. lia.
Qed.

(** All the matches of [sectionRegex] in [text], first to last. *)
Definition section_matches (text : string) : list (string * string) :=
  exec_all match_section match_section_consumes text.

(** [sections[key]] after the loop
    [sections[match[1].trim()] = match[2].trim()]: the last match of the
    key wins. *)
Fixpoint section (ms : list (string * string)) (key : string)
  : option string :=
  match ms with
  | [] => None
  | (header, body) :: r =>
      match section r key with
      | Some v => Some v
      | None => if String.eqb (JS.trim header) key
                then Some (JS.trim body) else None
      end
  end.

(** [if (sections[key])]: present and not empty. *)
Definition section_truthy (ms : list (string * string)) (key : string)
  : option string :=
  match section ms key with
  | Some v => if JS.truthy v then Some v else None
  | None => None
  end.

(** *** CHOICES *)

(** [line.replace(/^\d+\.\s*/, '')] *)
Definition strip_enumeration (line : string) : string :=
  if JS.truthy (JS.take_while JS.is_digit line) then
    match JS.drop_while JS.is_digit line with
    | String "." r => JS.drop_while JS.is_space r
    | _ => line
    end
  else line.

Definition parse_choice (line : string) : Choice :=
  let parts := map JS.trim (JS.split "|" (strip_enumeration line)) in
  let text0 := nth 0 parts EmptyString in
  let text1 :=
    if JS.startsWith text0 "[" && JS.endsWith_char text0 "]"
    then JS.slice_1_m1 text0 else text0 in
  let type :=
    match nth_error parts 1 with
    | Some p => if String.eqb p "NONE" || negb (JS.truthy p)
                then None else Some p
    | None => None
    end in
  let difficulty :=
    match nth_error parts 2 with
    | Some p => if JS.truthy p then Some (JS.parseInt p) else None
    | None => None
    end in
  mkChoice text1 type difficulty.

Definition parse_choices (body : string) : list Choice :=
  map parse_choice
      (filter (fun l => JS.truthy (JS.trim l)) (JS.splitLines body)).

(** *** UPDATES *)

(** One match of [/([A-Z]{3})\s*[:=+]?\s*(\d+)/] at the head of [s]. *)
Definition match_bonus (s : string) : option ((string * string) * string) :=
  match s with
  | String a (String b (String c r)) =>
      if JS.is_upper a && JS.is_upper b && JS.is_upper c then
        let r1 := JS.drop_while JS.is_space r in
        let r2 :=
          match r1 with
          | String x r' =>
              if Ascii.eqb x ":" || Ascii.eqb x "=" || Ascii.eqb x "+"
              then r' else r1
          | EmptyString => r1
          end in
        let r3 := JS.drop_while JS.is_space r2 in
        let digits := JS.take_while JS.is_digit r3 in
        if JS.truthy digits
        then Some ((String a (String b (String c EmptyString)), digits),
                   JS.drop_while JS.is_digit r3)
        else None
      else None
  | _ => None
  end.

Lemma match_bonus_consumes (s : string) (a : string * string) (r : string) :
  match_bonus s = Some (a, r) -> (String.length r < String.length s)%nat.
Proof.
  unfold match_bonus.
  destruct s as [|c1 [|c2 [|c3 s]]]; try discriminate.
  destruct (_ && _); [|discriminate].
  set (r1 := JS.drop_while JS.is_space s).
  set (r2 := match r1 with
             | String x r' =>
                 if Ascii.eqb x ":" || Ascii.eqb x "=" || Ascii.eqb x "+"
                 then r' else r1
             | EmptyString => r1
             end).
  destruct (JS.truthy _); [|discriminate]. intros [= _ <-].
  pose proof (drop_while_length JS.is_digit (JS.drop_while JS.is_space r2)).
  pose proof (drop_while_length JS.is_space r2).
  pose proof (drop_while_length JS.is_space s).
  assert (String.length r2 <= String.length r1)%nat.
  { subst r2. destruct r1 as [|x r']; [lia|].
    destruct (_ || _); simpl; lia. }
  subst r1. simpl. lia.
Qed.

(** The loop over [bonusRegex]: [bonuses[stat] = parseInt(digits)]. *)
Definition parse_bonuses (s : string) : Bonuses :=
  fold_left
    (fun b '(stat, digits) =>
       match JS.parseInt digits with
       | JS.Num v => if JS.truthy stat then bonuses_set b stat v else b
       | JS.NaN => b
       end)
    (exec_all match_bonus match_bonus_consumes s) [].

(** The pipe-separated parts of a line after its key. *)
Definition parts_after (cleanLine key : string) : list string :=
  map JS.trim (JS.split "|" (JS.replace cleanLine key EmptyString)).

Definition name_after (cleanLine key : string) : string :=
  JS.trim (JS.replace cleanLine key EmptyString).

(** [x.toUpperCase() === 'NONE'] *)
Definition is_NONE (x : string) : bool :=
  String.eqb (JS.toUpperCase x) "NONE".

(** [s || d] on strings. *)
Definition str_or (s : option string) (d : string) : string :=
  match s with
  | Some x => if JS.truthy x then x else d
  | None => d
  end.

Definition set_hp_change (r : AIStoryResponse) (v : Z) : AIStoryResponse :=
  mkResponse (narrative r) (choices r) (game_status r) v (quest_update r)
             (inventory_added r) (inventory_removed r) (equipment_update r)
             (new_effects r) (action_result r).

Definition set_game_status (r : AIStoryResponse) (v : GameStatus)
  : AIStoryResponse :=
  mkResponse (narrative r) (choices r) v (hp_change r) (quest_update r)
             (inventory_added r) (inventory_removed r) (equipment_update r)
             (new_effects r) (action_result r).

Definition set_quest_update (r : AIStoryResponse) (v : string)
  : AIStoryResponse :=
  mkResponse (narrative r) (choices r) (game_status r) (hp_change r) (Some v)
             (inventory_added r) (inventory_removed r) (equipment_update r)
             (new_effects r) (action_result r).

Definition push_inventory_added (r : AIStoryResponse) (v : Item)
  : AIStoryResponse :=
  mkResponse (narrative r) (choices r) (game_status r) (hp_change r)
             (quest_update r) (Some (or_nil (inventory_added r) ++ [v]))
             (inventory_removed r) (equipment_update r)
             (new_effects r) (action_result r).

Definition push_inventory_removed (r : AIStoryResponse) (v : string)
  : AIStoryResponse :=
  mkResponse (narrative r) (choices r) (game_status r) (hp_change r)
             (quest_update r) (inventory_added r)
             (Some (or_nil (inventory_removed r) ++ [v]))
             (equipment_update r) (new_effects r) (action_result r).

(** [if (!response.equipment_update) response.equipment_update =
    { equip: [], unequip: [] }] *)
Definition equipment_or_new (r : AIStoryResponse) : Equipment :=
  match equipment_update r with
  | Some e => e
  | None => mkEquipment [] []
  end.

Definition set_equipment (r : AIStoryResponse) (e : Equipment)
  : AIStoryResponse :=
  mkResponse (narrative r) (choices r) (game_status r) (hp_change r)
             (quest_update r) (inventory_added r) (inventory_removed r)
             (Some e) (new_effects r) (action_result r).

Definition push_new_effects (r : AIStoryResponse) (v : Effect)
  : AIStoryResponse :=
  mkResponse (narrative r) (choices r) (game_status r) (hp_change r)
             (quest_update r) (inventory_added r) (inventory_removed r)
             (equipment_update r) (Some (or_nil (new_effects r) ++ [v]))
             (action_result r).

Definition set_action_result (r : AIStoryResponse) (v : Action)
  : AIStoryResponse :=
  mkResponse (narrative r) (choices r) (game_status r) (hp_change r)
             (quest_update r) (inventory_added r) (inventory_removed r)
             (equipment_update r) (new_effects r) (Some v).

(** The blocks of the loop body that come before the first [continue]:
    HP, STATUS and QUEST. *)
Definition update_scalars (r : AIStoryResponse) (cleanLine : string)
  : AIStoryResponse :=
  let r1 :=
    if JS.startsWith cleanLine "HP:"
    then set_hp_change r
           (JS.num_or (JS.parseInt (name_after cleanLine "HP:")) 0)
    else r in
  let r2 :=
    if JS.startsWith cleanLine "STATUS:" then
      let status := name_after cleanLine "STATUS:" in
      if String.eqb status "won" then set_game_status r1 won
      else if String.eqb status "lost" then set_game_status r1 lost
      else set_game_status r1 ongoing
    else r1 in
  if JS.startsWith cleanLine "QUEST:" then
    let q := name_after cleanLine "QUEST:" in
    if String.eqb q "SAME" then r2 else set_quest_update r2 q
  else r2.

(** A block of the loop body that can [continue]: [None] is the
    [continue], taken before the block changes anything. *)
Definition item_add (r : AIStoryResponse) (cleanLine : string)
  : option AIStoryResponse :=
  if JS.startsWith cleanLine "ITEM_ADD:" then
    let parts := parts_after cleanLine "ITEM_ADD:" in
    if is_NONE (nth 0 parts EmptyString) then None
    else
      let bonuses :=
        match nth_error parts 3 with
        | Some p => if JS.truthy p && negb (String.eqb p "NONE")
                    then Some (parse_bonuses p) else None
        | None => None
        end in
      Some (push_inventory_added r
              (mkItem (nth 0 parts EmptyString)
                      (str_or (nth_error parts 1) "misc")
                      (str_or (nth_error parts 2) EmptyString)
                      bonuses))
  else Some r.

Definition item_remove (r : AIStoryResponse) (cleanLine : string)
  : option AIStoryResponse :=
  if JS.startsWith cleanLine "ITEM_REMOVE:" then
    let name := name_after cleanLine "ITEM_REMOVE:" in
    if is_NONE name then None else Some (push_inventory_removed r name)
  else Some r.

Definition equip_line (r : AIStoryResponse) (cleanLine : string)
  : option AIStoryResponse :=
  if JS.startsWith cleanLine "EQUIP:" then
    let name := name_after cleanLine "EQUIP:" in
    if is_NONE name then None
    else let e := equipment_or_new r in
         Some (set_equipment r (mkEquipment (equip e ++ [name]) (unequip e)))
  else Some r.

Definition unequip_line (r : AIStoryResponse) (cleanLine : string)
  : option AIStoryResponse :=
  if JS.startsWith cleanLine "UNEQUIP:" then
    let name := name_after cleanLine "UNEQUIP:" in
    if is_NONE name then None
    else let e := equipment_or_new r in
         Some (set_equipment r (mkEquipment (equip e) (unequip e ++ [name])))
  else Some r.

(** [fresh k] is the identifier drawn for the effect created when [k]
    effects are already in the response. *)
Definition effect_add (fresh : nat -> string) (r : AIStoryResponse)
           (cleanLine : string) : option AIStoryResponse :=
  if JS.startsWith cleanLine "EFFECT_ADD:" then
    let parts := parts_after cleanLine "EFFECT_ADD:" in
    if is_NONE (nth 0 parts EmptyString) then None
    else
      Some (push_new_effects r
              (mkEffect (fresh (List.length (or_nil (new_effects r))))
                        (nth 0 parts EmptyString)
                        (str_or (nth_error parts 1) "debuff")
                        (nth 0 parts EmptyString)
                        (JS.num_or (JS.parseInt_opt (nth_error parts 2)) 3)))
  else Some r.

(** One iteration of the loop over the lines of UPDATES. *)
Definition update_line (fresh : nat -> string) (r : AIStoryResponse)
           (line : string) : AIStoryResponse :=
  let cleanLine := JS.trim line in
  if negb (JS.truthy cleanLine) then r
  else
    let r3 := update_scalars r cleanLine in
    match item_add r3 cleanLine with
    | None => r3
    | Some r4 =>
        match item_remove r4 cleanLine with
        | None => r4
        | Some r5 =>
            match equip_line r5 cleanLine with
            | None => r5
            | Some r6 =>
                match unequip_line r6 cleanLine with
                | None => r6
                | Some r7 =>
                    match effect_add fresh r7 cleanLine with
                    | None => r7
                    | Some r8 => r8
                    end
                end
            end
        end
    end.

Definition parse_updates (fresh : nat -> string) (r : AIStoryResponse)
           (body : string) : AIStoryResponse :=
  fold_left (update_line fresh) (JS.splitLines body) r.

(** *** ACTION_RESULT *)

Definition empty_action : Action := mkAction None None None None None.

(** One iteration of the loop over the lines of ACTION_RESULT.  [val] is
    [undefined] when the line has no colon, and [val.toLowerCase()] then
    throws a [TypeError]. *)
Definition action_line (result : Action) (line : string)
  : completion Action :=
  let parts := map JS.trim (JS.split ":" line) in
  let key := nth 0 parts EmptyString in
  let val := nth_error parts 1 in
  let r1 :=
    if String.eqb key "STAT"
    then mkAction val (adifficulty result) (base_roll result)
                  (total result) (is_success result)
    else result in
  let r2 :=
    if String.eqb key "DC"
    then mkAction (stat r1) (Some (JS.parseInt_opt val)) (base_roll r1)
                  (total r1) (is_success r1)
    else r1 in
  let r3 :=
    if String.eqb key "BASE"
    then mkAction (stat r2) (adifficulty r2) (Some (JS.parseInt_opt val))
                  (total r2) (is_success r2)
    else r2 in
  let r4 :=
    if String.eqb key "TOTAL"
    then mkAction (stat r3) (adifficulty r3) (base_roll r3)
                  (Some (JS.parseInt_opt val)) (is_success r3)
    else r3 in
  if String.eqb key "SUCCESS" then
    match val with
    | Some v =>
        Returns (mkAction (stat r4) (adifficulty r4) (base_roll r4) (total r4)
                          (Some (String.eqb (JS.toLowerCase v) "true")))
    | None => Throws "TypeError"
    end
  else Returns r4.

Definition parse_action (body : string) : completion Action :=
  for_of action_line (JS.splitLines body) empty_action.

(** *** parseTextResponse *)

Definition parseTextResponse (fresh : nat -> string) (text : string)
  : completion AIStoryResponse :=
  let sections := section_matches text in
  let response :=
    mkResponse (str_or (section sections "NARRATIVE") text)
               [] ongoing 0%Z None None None None None None in
  let response1 :=
    match section_truthy sections "CHOICES" with
    | Some body =>
        mkResponse (narrative response) (parse_choices body)
                   (game_status response) (hp_change response)
                   (quest_update response) (inventory_added response)
                   (inventory_removed response) (equipment_update response)
                   (new_effects response) (action_result response)
    | None => response
    end in
  let response2 :=
    match section_truthy sections "UPDATES" with
    | Some body => parse_updates fresh response1 body
    | None => response1
    end in
  match section_truthy sections "ACTION_RESULT" with
  | Some body =>
      result <- parse_action body ;;
      Returns (if JS.truthy (str_or (stat result) EmptyString)
               then set_action_result response2 result
               else response2)
  | None => Returns response2
  end.

End Parser.

(* ===================================================================== *)
(** ** The [App] component: reducers and handlers *)
(* ===================================================================== *)

Module App.

Local Open Scope Z_scope.

Definition BASE_HP : Z := 100.
Definition DEFAULT_STATS : CharacterStats := mkStats 10 10 10 10 10 10 10.
Definition EXP_THRESHOLD : Z := 3.

Definition initialGameState : GameState :=
  mkGame [] (mkGear None None None) EmptyString [] [] false false
         BASE_HP BASE_HP [BASE_HP] ongoing menu "Fantasy" DEFAULT_STATS
         (mkStats 0 0 0 0 0 0 0) [] DEFAULT_STATS None None 3 None.

(** *** Record updates [{ ...prev, field: v }] *)

Definition with_inventory (g : GameState) (v : list InventoryItem) :=
  mkGame v (equipped g) (currentQuest g) (npcs g) (history g) (isLoading g)
         (isRolling g) (hp g) (maxHp g) (hpHistory g) (gameStatus g)
         (phase g) (genre g) (stats g) (statExperience g) (activeEffects g)
         (startingStats g) (finalSummary g) (finalStoryboard g)
         (customChoicesRemaining g) (mainStoryArc g).

Definition with_equipped (g : GameState) (v : EquippedGear) :=
  mkGame (inventory g) v (currentQuest g) (npcs g) (history g) (isLoading g)
         (isRolling g) (hp g) (maxHp g) (hpHistory g) (gameStatus g)
         (phase g) (genre g) (stats g) (statExperience g) (activeEffects g)
         (startingStats g) (finalSummary g) (finalStoryboard g)
         (customChoicesRemaining g) (mainStoryArc g).

Definition with_isLoading (g : GameState) (v : bool) :=
  mkGame (inventory g) (equipped g) (currentQuest g) (npcs g) (history g) v
         (isRolling g) (hp g) (maxHp g) (hpHistory g) (gameStatus g)
         (phase g) (genre g) (stats g) (statExperience g) (activeEffects g)
         (startingStats g) (finalSummary g) (finalStoryboard g)
         (customChoicesRemaining g) (mainStoryArc g).

Definition with_isRolling (g : GameState) (v : bool) :=
  mkGame (inventory g) (equipped g) (currentQuest g) (npcs g) (history g)
         (isLoading g) v (hp g) (maxHp g) (hpHistory g) (gameStatus g)
         (phase g) (genre g) (stats g) (statExperience g) (activeEffects g)
         (startingStats g) (finalSummary g) (finalStoryboard g)
         (customChoicesRemaining g) (mainStoryArc g).

Definition with_hp_maxHp (g : GameState) (h m : Z) :=
  mkGame (inventory g) (equipped g) (currentQuest g) (npcs g) (history g)
         (isLoading g) (isRolling g) h m (hpHistory g) (gameStatus g)
         (phase g) (genre g) (stats g) (statExperience g) (activeEffects g)
         (startingStats g) (finalSummary g) (finalStoryboard g)
         (customChoicesRemaining g) (mainStoryArc g).

Definition with_phase (g : GameState) (v : GamePhase) :=
  mkGame (inventory g) (equipped g) (currentQuest g) (npcs g) (history g)
         (isLoading g) (isRolling g) (hp g) (maxHp g) (hpHistory g)
         (gameStatus g) v (genre g) (stats g) (statExperience g)
         (activeEffects g) (startingStats g) (finalSummary g)
         (finalStoryboard g) (customChoicesRemaining g) (mainStoryArc g).

Definition with_stats_exp (g : GameState) (s : CharacterStats)
           (x : StatExperience) :=
  mkGame (inventory g) (equipped g) (currentQuest g) (npcs g) (history g)
         (isLoading g) (isRolling g) (hp g) (maxHp g) (hpHistory g)
         (gameStatus g) (phase g) (genre g) s x (activeEffects g)
         (startingStats g) (finalSummary g) (finalStoryboard g)
         (customChoicesRemaining g) (mainStoryArc g).

Definition with_customChoicesRemaining (g : GameState) (v : Z) :=
  mkGame (inventory g) (equipped g) (currentQuest g) (npcs g) (history g)
         (isLoading g) (isRolling g) (hp g) (maxHp g) (hpHistory g)
         (gameStatus g) (phase g) (genre g) (stats g) (statExperience g)
         (activeEffects g) (startingStats g) (finalSummary g)
         (finalStoryboard g) v (mainStoryArc g).

(** *** Derived stats *)

(** [if (bonuses.K) calculated.K += bonuses.K] *)
Definition add_axis (bonuses : PartialStats) (calculated : CharacterStats)
           (k : StatType) : CharacterStats :=
  match partial_get bonuses k with
  | Some v => if v =? 0 then calculated
              else stat_set calculated k (stat_get calculated k + v)
  | None => calculated
  end.

Definition applyBonus (calculated : CharacterStats)
           (bonuses : option PartialStats) : CharacterStats :=
  match bonuses with
  | None => calculated
  | Some b => fold_left (add_axis b) [STR; DEX; CON; INT; CHA; PER; LUK]
                        calculated
  end.

Definition slot_of (t : ItemType) : option ItemType :=
  match t with
  | weapon => Some weapon
  | armor => Some armor
  | accessory => Some accessory
  | misc => None
  end.

Definition ItemType_eqb (a b : ItemType) : bool :=
  match a, b with
  | weapon, weapon | armor, armor | accessory, accessory | misc, misc => true
  | _, _ => false
  end.

Definition slot_is (s : option ItemType) (t : ItemType) : bool :=
  match s with
  | Some u => ItemType_eqb u t
  | None => false
  end.

(** [equipped.slot?.bonuses] *)
Definition slot_bonuses (i : option InventoryItem) : option PartialStats :=
  match i with
  | Some x => item_bonuses x
  | None => None
  end.

Definition calculateStats (baseStats : CharacterStats) (eq : EquippedGear)
           (effects : list StatusEffect) (extraItem : option InventoryItem)
  : CharacterStats :=
  let skipSlot :=
    match extraItem with
    | Some x => slot_of (item_type x)
    | None => None
    end in
  let c1 := if slot_is skipSlot weapon then baseStats
            else applyBonus baseStats (slot_bonuses (g_weapon eq)) in
  let c2 := if slot_is skipSlot armor then c1
            else applyBonus c1 (slot_bonuses (g_armor eq)) in
  let c3 := if slot_is skipSlot accessory then c2
            else applyBonus c2 (slot_bonuses (g_accessory eq)) in
  let c4 := match extraItem with
            | Some x => applyBonus c3 (item_bonuses x)
            | None => c3
            end in
  fold_left (fun c e => applyBonus c (eff_statModifiers e)) effects c4.

Definition currentStats (g : GameState) : CharacterStats :=
  calculateStats (stats g) (equipped g) (activeEffects g) None.

(** [Math.floor((score - 10) / 2)] *)
Definition getMod (score : Z) : Z := (score - 10) / 2.

(** *** The max-HP effect

    [con] is [currentStats.CON] of the render that fired the effect.  The
    quotient and the product are binary64 operations, as in the code
    ([ratio = prev.hp / prev.maxHp], then [Math.round(newMax * ratio)]);
    the result is [None] when the new [hp] is [NaN] or infinite (a
    previous [maxHp] of 0), which no integer state holds. *)
Definition rescaledHp (hp oldMax newMax : Z) : option Z :=
  let ratio := PrimFloat.div (JS.float_of_Z hp) (JS.float_of_Z oldMax) in
  JS.Math_round (PrimFloat.mul (JS.float_of_Z newMax) ratio).

Definition recalcMaxHp (con : Z) (prev : GameState) : option GameState :=
  let conMod := getMod con in
  let newMax := BASE_HP + conMod * 10 in
  if negb (maxHp prev =? newMax) then
    match rescaledHp (hp prev) (maxHp prev) newMax with
    | Some h => Some (with_hp_maxHp prev h newMax)
    | None => None
    end
  else Some prev.

(** [gameState.activeEffects?.some(e => e.blocksHeroicActions)] *)
Definition isHeroicBlocked (g : GameState) : bool :=
  existsb (fun e => match eff_blocksHeroicActions e with
                    | Some b => b
                    | None => false
                    end)
          (activeEffects g).

(** *** Equipment handlers *)

Definition set_slot (e : EquippedGear) (slot : ItemType)
           (v : option InventoryItem) : EquippedGear :=
  match slot with
  | weapon => mkGear v (g_armor e) (g_accessory e)
  | armor => mkGear (g_weapon e) v (g_accessory e)
  | accessory => mkGear (g_weapon e) (g_armor e) v
  | misc => e
  end.

Definition get_slot (e : EquippedGear) (slot : ItemType)
  : option InventoryItem :=
  match slot with
  | weapon => g_weapon e
  | armor => g_armor e
  | accessory => g_accessory e
  | misc => None
  end.

Definition handleEquip (item : InventoryItem) (prev : GameState)
  : GameState :=
  let newInventory :=
    filter (fun i => negb (String.eqb (item_id i) (item_id item)))
           (inventory prev) in
  match slot_of (item_type item) with
  | None => prev
  | Some slot =>
      let newInventory' :=
        match get_slot (equipped prev) slot with
        | Some oldItem => newInventory ++ [oldItem]
        | None => newInventory
        end in
      with_equipped (with_inventory prev newInventory')
                    (set_slot (equipped prev) slot (Some item))
  end.

Definition handleUnequip (item : InventoryItem) (prev : GameState)
  : GameState :=
  if (8 <=? Z.of_nat (List.length (inventory prev))) then prev
  else
    match slot_of (item_type item) with
    | None => prev
    | Some slot =>
        match get_slot (equipped prev) slot with
        | Some cur =>
            if String.eqb (item_id cur) (item_id item)
            then with_inventory
                   (with_equipped prev (set_slot (equipped prev) slot None))
                   (inventory prev ++ [item])
            else prev
        | None => prev
        end
    end.

Definition handleDiscard (item : InventoryItem) (prev : GameState)
  : GameState :=
  with_inventory prev
    (filter (fun i => negb (String.eqb (item_id i) (item_id item)))
            (inventory prev)).

(** *** The draws of one reduction

    [item_ids k] and [item_pick k] are the draws of [createItemFromString]
    for the [k]-th added item, [effect_ids k] and [npc_ids k] the
    identifiers drawn for the [k]-th new effect and NPC, [difficulty_draws k]
    the value [Math.floor(Math.random() * 5)] drawn for the [k]-th choice,
    and [now] is [Date.now().toString()]. *)
Record Entropy : Type := mkEntropy {
  now : string;
  item_ids : nat -> string;
  item_pick : nat -> nat;
  effect_ids : nat -> string;
  npc_ids : nat -> string;
  difficulty_draws : nat -> Z
}.

(** The payload of a heroic action: [{ text, item, roll }]. *)
Record CustomAction : Type := mkCustom {
  ca_text : string;
  ca_item : string;
  ca_roll : Z
}.

(** [lastTurnParams]: what a retry replays. *)
Record TurnParams : Type := mkParams {
  tp_userText : string;
  tp_rollResult : option RollResult;
  tp_customAction : option CustomAction;
  tp_overrideArc : option MainStoryArc;
  tp_decrementedEffects : list StatusEffect
}.

(** What a handler asks of its environment: the call to
    [generateStoryStep] under a request identifier, an [alert], a line of
    the debug log, the one-second timer that ends the game. *)
Inductive Cmd : Type :=
| CallAI (requestId : Z) (params : TurnParams)
| Alert (message : string)
| AddLog (kind message : string)
| GameOverTimer.

(** [xs.map((x, k) => f k x)], counting from [k]. *)
Fixpoint mapi_from {A B : Type} (f : nat -> A -> B) (k : nat) (xs : list A)
  : list B :=
  match xs with
  | [] => []
  | x :: r => f k x :: mapi_from f (S k) r
  end.

(** *** The reducer of [generateAndProcessAIResponse] *)

Definition materialize (env : Entropy) (k : nat) (aiItem : AddedItem)
  : InventoryItem :=
  let factoryItem :=
    ItemFactory.createItemFromString (item_ids env k) (item_pick env k)
                                     (added_name aiItem) in
  mkItem (item_id factoryItem) (item_name factoryItem)
         (item_type factoryItem)
         (match added_description aiItem with
          | Some d => if JS.truthy d then Some d
                      else item_description factoryItem
          | None => item_description factoryItem
          end)
         (item_bonuses factoryItem).

Definition newItems (env : Entropy) (aiResponse : AIStoryResponse)
  : list InventoryItem :=
  mapi_from (materialize env) 0 (or_nil (inventory_added aiResponse)).

Definition removedNames (aiResponse : AIStoryResponse) : list string :=
  map JS.toLowerCase (or_nil (inventory_removed aiResponse)).

Definition is_removed (removed : list string) (item : InventoryItem) : bool :=
  JS.mem (JS.toLowerCase (item_name item)) removed.

(** Item intake and removal: [[...prev.inventory, ...newItems]] without
    the removed names. *)
Definition intake (env : Entropy) (prev : GameState)
           (aiResponse : AIStoryResponse) : list InventoryItem :=
  filter (fun item => negb (is_removed (removedNames aiResponse) item))
         (inventory prev ++ newItems env aiResponse).

(** [if (inv.length > 8) inv = inv.slice(0, 8)] *)
Definition capped (inv : list InventoryItem) : list InventoryItem :=
  if 8 <? Z.of_nat (List.length inv) then firstn 8 inv else inv.

Definition present (e : EquippedGear) : list InventoryItem :=
  flat_map (fun o => match o with Some i => [i] | None => [] end)
           [g_weapon e; g_armor e; g_accessory e].

(** [[weapon?.id, armor?.id, accessory?.id].filter(Boolean)] *)
Definition equippedIds (e : EquippedGear) : list string :=
  filter JS.truthy (map item_id (present e)).

(** The body of [oldEquippedList.forEach]. *)
Definition restore_old (ids removed : list string)
           (inv : list InventoryItem) (oldItem : InventoryItem)
  : list InventoryItem :=
  let stillEquipped := JS.mem (item_id oldItem) ids in
  let destroyed := is_removed removed oldItem in
  if negb stillEquipped && negb destroyed then
    if existsb (fun i => String.eqb (item_id i) (item_id oldItem)) inv
    then inv else inv ++ [oldItem]
  else inv.

(** The inventory of the next state. *)
Definition finalInventory (env : Entropy) (prev : GameState)
           (aiResponse : AIStoryResponse) : list InventoryItem :=
  let ids := equippedIds (equipped prev) in
  let inv :=
    filter (fun i => negb (JS.mem (item_id i) ids))
           (capped (intake env prev aiResponse)) in
  fold_left (restore_old ids (removedNames aiResponse))
            (present (equipped prev)) inv.

(** [if (slot && removedNames.includes(slot.name.toLowerCase()))
     { slot = null; equippedUpdated = true; }] *)
Definition clear_removed (removed : list string) (o : option InventoryItem)
  : option InventoryItem * bool :=
  match o with
  | Some i => if is_removed removed i then (None, true) else (o, false)
  | None => (None, false)
  end.

Definition finalEquipped (prev : GameState) (aiResponse : AIStoryResponse)
  : EquippedGear :=
  let removed := removedNames aiResponse in
  let '(w, uw) := clear_removed removed (g_weapon (equipped prev)) in
  let '(a, ua) := clear_removed removed (g_armor (equipped prev)) in
  let '(c, uc) := clear_removed removed (g_accessory (equipped prev)) in
  let equippedUpdated := uw || ua || uc in
  if equippedUpdated then mkGear w a c else equipped prev.

(** [Math.min(prev.maxHp, Math.max(0, prev.hp + hpChange))] *)
Definition clampedHp (prev : GameState) (aiResponse : AIStoryResponse) : Z :=
  let hpChange := match hp_change aiResponse with
                  | Some v => v
                  | None => 0
                  end in
  Z.min (maxHp prev) (Z.max 0 (hp prev + hpChange)).

Definition GameStatus_eqb (a b : GameStatus) : bool :=
  match a, b with
  | ongoing, ongoing | won, won | lost, lost => true
  | _, _ => false
  end.

(** The new [hp] and the new status. *)
Definition hp_and_status (prev : GameState) (aiResponse : AIStoryResponse)
  : Z * GameStatus :=
  let newHp := clampedHp prev aiResponse in
  let status := match game_status aiResponse with
                | Some s => s
                | None => ongoing
                end in
  if newHp <=? 0 then (0, lost) else (newHp, status).

(** [Object.keys(p)] *)
Fixpoint partial_keys (p : PartialStats) : list StatType :=
  match p with
  | [] => []
  | (k, _) :: r =>
      k :: filter (fun k' => negb (StatType_eqb k' k)) (partial_keys r)
  end.

(** The body of [keys.forEach] in the [stats_update] block, on the pair
    [(newStats, finalStatsUpdate)]. *)
Definition apply_stat_update (su : PartialStats)
           (acc : CharacterStats * PartialStats) (key : StatType)
  : CharacterStats * PartialStats :=
  let '(newStats, finalStatsUpdate) := acc in
  let val0 := partial_get_or su key 0 in
  let val1 := if 5 <? val0 then 5 else val0 in
  let val := if val1 <? -2 then -2 else val1 in
  if negb (val =? 0)
  then (stat_set newStats key (stat_get newStats key + val),
        partial_set finalStatsUpdate key val)
  else acc.

Definition stats_after_update (prev : GameState)
           (aiResponse : AIStoryResponse)
  : CharacterStats * option PartialStats :=
  match stats_update aiResponse with
  | Some su =>
      let '(newStats, finalStatsUpdate) :=
        fold_left (apply_stat_update su) (partial_keys su) (stats prev, []) in
      (newStats, match finalStatsUpdate with
                 | [] => None
                 | _ => Some finalStatsUpdate
                 end)
  | None => (stats prev, None)
  end.

Definition brandNewEffects (env : Entropy) (aiResponse : AIStoryResponse)
  : list StatusEffect :=
  mapi_from (fun k e => mkEffect (effect_ids env k) (eff_name e)
                                 (eff_description e) (eff_type e)
                                 (eff_duration e) (eff_statModifiers e)
                                 (eff_blocksHeroicActions e))
            0 (or_nil (new_effects aiResponse)).

(** The body of [npcUpdate.forEach]: the first NPC of that name, case
    apart, takes the condition and, when given, the type. *)
Fixpoint update_npc (u : NPCUpdate) (ns : list NPC) : list NPC :=
  match ns with
  | [] => []
  | n :: r =>
      if String.eqb (JS.toLowerCase (npc_name n))
                    (JS.toLowerCase (upd_name u))
      then mkNPC (npc_id n) (npc_name n) (npc_description n)
                 (match upd_status u with
                  | Some s => if JS.truthy s then s else npc_type n
                  | None => npc_type n
                  end)
                 (upd_condition u) :: r
      else n :: update_npc u r
  end.

Definition npcAdd (aiResponse : AIStoryResponse) : list NPC :=
  match npcs_update_field aiResponse with
  | Some u => or_nil (npcs_add u)
  | None => []
  end.

Definition finalNPCs (env : Entropy) (prev : GameState)
           (aiResponse : AIStoryResponse) : list NPC :=
  let npcUpdate := match npcs_update_field aiResponse with
                   | Some u => or_nil (npcs_update u)
                   | None => []
                   end in
  let npcRemove := match npcs_update_field aiResponse with
                   | Some u => or_nil (npcs_remove u)
                   | None => []
                   end in
  let added :=
    npcs prev
    ++ mapi_from (fun k n => mkNPC (npc_ids env k) (npc_name n)
                                   (npc_description n) (npc_type n)
                                   (npc_condition n))
                 0 (npcAdd aiResponse) in
  let updated := fold_left (fun ns u => update_npc u ns) npcUpdate added in
  filter (fun n => negb (JS.mem (npc_name n) npcRemove)) updated.

(** The experience step both checks run: one more point, and at
    [EXP_THRESHOLD] the counter returns to 0 and the stat gains 1. *)
Definition gain_experience (newStats : CharacterStats)
           (finalStatExp : StatExperience) (stat : StatType)
  : CharacterStats * StatExperience * option LevelUpEvent :=
  let currentExp := stat_get finalStatExp stat in
  let nextExp := currentExp + 1 in
  if EXP_THRESHOLD <=? nextExp then
    let oldValue := stat_get newStats stat in
    (stat_set newStats stat (oldValue + 1),
     stat_set finalStatExp stat 0,
     Some (mkLevelUp stat oldValue (oldValue + 1)))
  else (newStats, stat_set finalStatExp stat nextExp, None).

(** The [action_result] block. *)
Definition resolve_action (newStats : CharacterStats)
           (finalStatExp : StatExperience) (ar : option ActionResult)
  : CharacterStats * StatExperience * option LevelUpEvent
    * option RollResult :=
  match ar with
  | Some r =>
      let mod_ := act_total r - act_base_roll r in
      let customActionRollResult :=
        mkRoll (act_total r) (act_base_roll r) mod_ (act_is_success r)
               (act_stat r) (act_difficulty r) in
      if act_is_success r
      then (gain_experience newStats finalStatExp (act_stat r),
            Some customActionRollResult)
      else (newStats, finalStatExp, None, Some customActionRollResult)
  | None => (newStats, finalStatExp, None, None)
  end.

(** The functional update of [generateAndProcessAIResponse]: the next
    state, and what it logs and schedules. *)
Definition reconcile (env : Entropy) (prev : GameState)
           (aiResponse : AIStoryResponse) : GameState * list Cmd :=
  let items := newItems env aiResponse in
  let overflow :=
    8 <? Z.of_nat (List.length (intake env prev aiResponse)) in
  let inv := finalInventory env prev aiResponse in
  let '(newHp, status) := hp_and_status prev aiResponse in
  let '(newStats0, finalStatsUpdate) := stats_after_update prev aiResponse in
  let effects := brandNewEffects env aiResponse in
  let '(newStats, finalStatExp, customActionLevelUp, customActionRollResult) :=
    resolve_action newStats0 (statExperience prev)
                   (action_result aiResponse) in
  let aiTurn :=
    mkTurn (now env ++ "-ai") (narrative aiResponse) (choices aiResponse)
           false customActionRollResult customActionLevelUp finalStatsUpdate
           (Some items) (inventory_removed aiResponse)
           (match effects with [] => None | _ => Some effects end)
           (Some (npcAdd aiResponse)) in
  (mkGame inv
          (finalEquipped prev aiResponse)
          (match quest_update aiResponse with
           | Some q => if JS.truthy q then q else currentQuest prev
           | None => currentQuest prev
           end)
          (finalNPCs env prev aiResponse)
          (history prev ++ [aiTurn])
          false
          (isRolling prev)
          newHp
          (maxHp prev)
          (hpHistory prev ++ [newHp])
          status
          (if GameStatus_eqb status ongoing then playing else game_over)
          (genre prev)
          newStats
          finalStatExp
          (activeEffects prev ++ effects)
          (startingStats prev)
          (finalSummary prev)
          (finalStoryboard prev)
          (customChoicesRemaining prev)
          (mainStoryArc prev),
   (if overflow
    then [AddLog "error" "Inventory overflow! Some items were discarded."]
    else [])
   ++ (if GameStatus_eqb status ongoing then [] else [GameOverTimer])).

(** *** The turn lifecycle

    The state of the component that the lifecycle reads and writes: the
    game state, the [enableDiceRolls] setting, the choices on offer, the
    pending roll, the parameters of the last turn, the retry flag and the
    request counter [requestIdRef.current]. *)
Record AppState : Type := mkApp {
  gameState : GameState;
  enableDiceRolls : bool;
  currentChoices : list ChoiceData;
  pendingChoice : option ChoiceData;
  pendingRoll : option Z;
  lastTurnParams : option TurnParams;
  showRetry : bool;
  requestIdRef : Z
}.

Definition with_gameState (a : AppState) (g : GameState) : AppState :=
  mkApp g (enableDiceRolls a) (currentChoices a) (pendingChoice a)
        (pendingRoll a) (lastTurnParams a) (showRetry a) (requestIdRef a).

Definition with_currentChoices (a : AppState) (v : list ChoiceData) :=
  mkApp (gameState a) (enableDiceRolls a) v (pendingChoice a)
        (pendingRoll a) (lastTurnParams a) (showRetry a) (requestIdRef a).

Definition with_pending (a : AppState) (c : option ChoiceData)
           (r : option Z) :=
  mkApp (gameState a) (enableDiceRolls a) (currentChoices a) c r
        (lastTurnParams a) (showRetry a) (requestIdRef a).

Definition with_lastTurnParams (a : AppState) (v : option TurnParams) :=
  mkApp (gameState a) (enableDiceRolls a) (currentChoices a)
        (pendingChoice a) (pendingRoll a) v (showRetry a) (requestIdRef a).

Definition with_showRetry (a : AppState) (v : bool) :=
  mkApp (gameState a) (enableDiceRolls a) (currentChoices a)
        (pendingChoice a) (pendingRoll a) (lastTurnParams a) v
        (requestIdRef a).

Definition with_requestIdRef (a : AppState) (v : Z) :=
  mkApp (gameState a) (enableDiceRolls a) (currentChoices a)
        (pendingChoice a) (pendingRoll a) (lastTurnParams a) (showRetry a) v.

(** [generateAndProcessAIResponse] up to its [await]: the counter is
    advanced and the call leaves under the new identifier. *)
Definition generateAndProcessAIResponse (a : AppState) (params : TurnParams)
  : AppState * list Cmd :=
  let currentRequestId := requestIdRef a + 1 in
  (with_requestIdRef a currentRequestId, [CallAI currentRequestId params]).

(** [text.replace(/\*/g, '')] *)
Fixpoint remove_asterisks (s : string) : string :=
  match s with
  | EmptyString => EmptyString
  | String c r => if Ascii.eqb c "*" then remove_asterisks r
                  else String c (remove_asterisks r)
  end.

Definition decrement (effects : list StatusEffect) : list StatusEffect :=
  filter (fun e => 0 <? eff_duration e)
         (map (fun e => mkEffect (eff_id e) (eff_name e) (eff_description e)
                                 (eff_type e) (eff_duration e - 1)
                                 (eff_statModifiers e)
                                 (eff_blocksHeroicActions e))
              effects).

(** The functional update of [processTurn]. *)
Definition begin_turn (userTurn : StoryTurn)
           (decrementedEffects : list StatusEffect) (prev : GameState)
  : GameState :=
  mkGame (inventory prev) (equipped prev) (currentQuest prev) (npcs prev)
         (history prev ++ [userTurn]) true (isRolling prev) (hp prev)
         (maxHp prev) (hpHistory prev) (gameStatus prev) (phase prev)
         (genre prev) (stats prev) (statExperience prev) decrementedEffects
         (startingStats prev) (finalSummary prev) (finalStoryboard prev)
         (customChoicesRemaining prev) (mainStoryArc prev).

(** [processTurn]; [rendered] is the [gameState] of the closure, [a] the
    state with the updates the handler queued before the call. *)
Definition processTurn (rendered : GameState) (a : AppState)
           (nowStr userText : string) (rollResult : option RollResult)
           (customAction : option CustomAction)
           (levelUpEvent : option LevelUpEvent)
           (overrideArc : option MainStoryArc) : AppState * list Cmd :=
  let userTurn :=
    mkTurn (nowStr ++ "-user") (remove_asterisks userText) (Some []) true
           rollResult levelUpEvent None None None None None in
  let decrementedEffects := decrement (activeEffects rendered) in
  let params := mkParams userText rollResult customAction overrideArc
                         decrementedEffects in
  let a1 := with_lastTurnParams a (Some params) in
  let a2 := with_gameState a1
              (begin_turn userTurn decrementedEffects (gameState a1)) in
  generateAndProcessAIResponse a2 params.

(** The functional update of [handleChoiceClick], with the level-up event
    it assigns.  The update is evaluated when it is queued (the queue of a
    handler that has just started is empty), so the event is set when
    [processTurn] reads it. *)
Definition roll_update (isSuccess : bool) (statType : StatType)
           (prev : GameState) : GameState * option LevelUpEvent :=
  let newState := with_isRolling prev true in
  if isSuccess then
    let currentExp := stat_get (statExperience prev) statType in
    let nextExp := currentExp + 1 in
    if EXP_THRESHOLD <=? nextExp then
      let oldValue := stat_get (stats prev) statType in
      let newValue := oldValue + 1 in
      (with_stats_exp newState (stat_set (stats prev) statType newValue)
                      (stat_set (statExperience prev) statType 0),
       Some (mkLevelUp statType oldValue newValue))
    else
      (with_stats_exp newState (stats newState)
                      (stat_set (statExperience prev) statType nextExp),
       None)
  else (newState, None).

(** The check of [handleChoiceClick] for a drawn [rollBase]. *)
Definition roll_check (g : GameState) (statType : StatType)
           (difficulty rollBase : Z) : RollResult :=
  let mod_ := getMod (stat_get (currentStats g) statType) in
  let total := rollBase + mod_ in
  mkRoll total rollBase mod_ (difficulty <=? total) statType difficulty.

(** [handleChoiceClick(choice)]; [rollBase] is
    [Math.floor(Math.random() * 20) + 1]. *)
Definition handleChoiceClick (a : AppState) (choice : ChoiceData)
           (rollBase : Z) (nowStr : string) : AppState * list Cmd :=
  let g := gameState a in
  if isLoading g || isRolling g then (a, [])
  else
    match enableDiceRolls a, choice_difficulty choice, choice_type choice with
    | true, Some difficulty, Some statType =>
        if difficulty =? 0
        then processTurn g a nowStr (choice_text choice) None None None None
        else
          let result := roll_check g statType difficulty rollBase in
          let '(g', levelUpEvent) :=
            roll_update (roll_isSuccess result) statType g in
          let a1 := with_pending (with_gameState a g') (Some choice)
                                 (Some rollBase) in
          processTurn g a1 nowStr (choice_text choice) (Some result) None
                      levelUpEvent None
    | _, _, _ =>
        processTurn g a nowStr (choice_text choice) None None None None
    end.

(** [handleCustomChoiceSubmit(text, itemId)]; [roll] is the drawn die. *)
Definition handleCustomChoiceSubmit (a : AppState) (text : string)
           (itemId : option string) (roll : Z) (nowStr : string)
  : AppState * list Cmd :=
  let g := gameState a in
  if customChoicesRemaining g <=? 0 then (a, [])
  else if isHeroicBlocked g then
    (a, [Alert ("You cannot perform Heroic Actions right now "
                ++ "due to a status effect!")])
  else
    let itemName :=
      match itemId with
      | Some id =>
          if JS.truthy id then
            match find (fun i => String.eqb (item_id i) id)
                       (inventory g ++ present (equipped g)) with
            | Some found => item_name found
            | None => "None"
            end
          else "None"
      | None => "None"
      end in
    let a1 := with_gameState a
                (with_customChoicesRemaining g
                   (customChoicesRemaining g - 1)) in
    processTurn g a1 nowStr text None (Some (mkCustom text itemName roll))
                None None.

Definition handleRollComplete (a : AppState) : AppState :=
  with_pending (with_gameState a (with_isRolling (gameState a) false))
               None None.

Definition handleStopRequest (a : AppState) : AppState :=
  with_showRetry
    (with_gameState (with_requestIdRef a (requestIdRef a + 1))
                    (with_isLoading (gameState a) false))
    true.

Definition handleRetryRequest (a : AppState) : AppState * list Cmd :=
  match lastTurnParams a with
  | None => (a, [])
  | Some params =>
      let a1 := with_showRetry a false in
      let a2 := with_gameState a1 (with_isLoading (gameState a1) true) in
      generateAndProcessAIResponse a2 params
  end.

(** [handleLoadGame] on a file that parses to a save with [gameState] and
    [currentChoices]: the loaded game state and choices replace the
    current ones, and the settings too when the save has them. *)
Definition handleLoadGame (a : AppState) (loaded : GameState)
           (loadedChoices : list ChoiceData) (dice : option bool)
  : AppState :=
  mkApp loaded
        (match dice with Some d => d | None => enableDiceRolls a end)
        loadedChoices (pendingChoice a) (pendingRoll a) (lastTurnParams a)
        (showRetry a) (requestIdRef a).

Section Continuations.

(** services/statInference is not among the sources: the classifier is a
    parameter. *)
Variable inferStatFromText : string -> option StatType.

(** The sanitizing of one choice of the response. *)
Definition sanitize_choice (env : Entropy) (k : nat) (c : ChoiceData)
  : ChoiceData :=
  let type :=
    match choice_type c with
    | Some t => Some t
    | None => inferStatFromText (choice_text c)
    end in
  let difficulty :=
    match type, choice_difficulty c with
    | Some _, None => Some (8 + difficulty_draws env k)
    | _, d => d
    end in
  mkChoice (choice_text c) type difficulty.

Definition sanitize (env : Entropy) (r : AIStoryResponse)
  : AIStoryResponse :=
  mkResponse (narrative r)
             (match choices r with
              | Some cs => Some (mapi_from (sanitize_choice env) 0 cs)
              | None => None
              end)
             (inventory_added r) (inventory_removed r)
             (equipment_update r) (quest_update r) (hp_change r)
             (game_status r) (stats_update r) (new_effects r)
             (npcs_update_field r) (action_result r).

(** [generateAndProcessAIResponse] after its [await], when the call
    resolved with [aiResponse]; [currentRequestId] is the identifier the
    call left under. *)
Definition resolved (env : Entropy) (a : AppState) (currentRequestId : Z)
           (aiResponse : AIStoryResponse) : AppState * list Cmd :=
  if negb (currentRequestId =? requestIdRef a) then (a, [])
  else
    let aiResponse' := sanitize env aiResponse in
    let '(g, cmds) := reconcile env (gameState a) aiResponse' in
    (with_currentChoices (with_gameState a g)
                         (or_nil (choices aiResponse')),
     cmds).

(** The [catch] branch, when the call was rejected. *)
Definition rejected (a : AppState) (currentRequestId : Z) : AppState :=
  if currentRequestId =? requestIdRef a
  then with_showRetry
         (with_gameState a (with_isLoading (gameState a) false)) true
  else a.

(** Updates of the game state alone: the equipment handlers, the max-HP
    effect and the timer [reconcile] sets. *)
Inductive game_step : GameState -> GameState -> Prop :=
| step_equip g item : game_step g (handleEquip item g)
| step_unequip g item : game_step g (handleUnequip item g)
| step_discard g item : game_step g (handleDiscard item g)
| step_maxHp g g' :
    recalcMaxHp (sCON (currentStats g)) g = Some g' -> game_step g g'
| step_timer g : game_step g (with_phase g game_over).

(** One event of the component. *)
Inductive step : AppState -> AppState -> Prop :=
| step_game a g' :
    game_step (gameState a) g' -> step a (with_gameState a g')
| step_choice a choice rollBase nowStr :
    step a (fst (handleChoiceClick a choice rollBase nowStr))
| step_custom a text itemId roll nowStr :
    step a (fst (handleCustomChoiceSubmit a text itemId roll nowStr))
| step_rollComplete a : step a (handleRollComplete a)
| step_stop a : step a (handleStopRequest a)
| step_retry a : step a (fst (handleRetryRequest a))
| step_resolved env a id aiResponse :
    step a (fst (resolved env a id aiResponse))
| step_rejected a id : step a (rejected a id)
| step_load a loaded loadedChoices dice :
    step a (handleLoadGame a loaded loadedChoices dice).

Inductive steps : AppState -> AppState -> Prop :=
| steps_refl a : steps a a
| steps_next a b c : steps a b -> step b c -> steps a c.

End Continuations.

End App.

(* ===================================================================== *)
(** ** What the [App] component computes while rendering *)
(* ===================================================================== *)

Module Render.

Import App.
Local Open Scope Z_scope.

(** [previewStats]: the stats shown while an item of the bag is hovered. *)
Definition previewStats (g : GameState)
           (hoveredInventoryItem : option InventoryItem) : CharacterStats :=
  match hoveredInventoryItem with
  | None => currentStats g
  | Some x =>
      match item_type x with
      | misc => currentStats g
      | _ => calculateStats (stats g) (equipped g) (activeEffects g) (Some x)
      end
  end.

Definition is_nan (x : float) : bool := negb (PrimFloat.eqb x x).

(** [Math.max(a, b)] and [Math.min(a, b)] on doubles, the sign of zero
    apart. *)
Definition Math_max (a b : float) : float :=
  if is_nan a || is_nan b then PrimFloat.nan
  else if PrimFloat.ltb a b then b else a.

Definition Math_min (a b : float) : float :=
  if is_nan a || is_nan b then PrimFloat.nan
  else if PrimFloat.ltb b a then b else a.

Record RiskAssessment : Type := mkRisk {
  risk_chance : float;
  risk_label : string;
  risk_mod : Z
}.

(** [getRiskAssessment(difficulty, statVal)] *)
Definition getRiskAssessment (difficulty statVal : Z) : RiskAssessment :=
  let mod_ := getMod statVal in
  let targetRoll := difficulty - mod_ in
  let chance :=
    PrimFloat.mul (PrimFloat.div (JS.float_of_Z (21 - targetRoll))
                                 (JS.float_of_Z 20))
                  (JS.float_of_Z 100) in
  let chance := Math_max (JS.float_of_Z 5)
                         (Math_min (JS.float_of_Z 95) chance) in
  let label :=
    if PrimFloat.leb chance (JS.float_of_Z 30) then "Dangerous"
    else if PrimFloat.leb chance (JS.float_of_Z 60) then "Risky"
    else "Likely Success" in
  mkRisk chance label mod_.

End Render.

(* ===================================================================== *)
(** ** Drag and drop between the bag and the slots (the two sidebars) *)
(* ===================================================================== *)

Module Sidebar.

Import App.

(** What a drag stores in [e.dataTransfer]; [getData] of a key that was
    not set is the empty string. *)
Record DataTransfer : Type := mkData {
  data_itemId : string;
  data_origin : string;
  data_itemType : string;
  data_slot : string
}.

(** An [ItemType] as the string it is at run time. *)
Definition type_name (t : ItemType) : string :=
  match t with
  | weapon => "weapon"
  | armor => "armor"
  | accessory => "accessory"
  | misc => "misc"
  end.

(** [handleDragStart] of the bag. *)
Definition handleDragStart (item : InventoryItem) : DataTransfer :=
  mkData (item_id item) "inventory" (type_name (item_type item)) EmptyString.

(** [handleEquippedDragStart] of a slot. *)
Definition handleEquippedDragStart (item : InventoryItem) (slot : ItemType)
  : DataTransfer :=
  mkData (item_id item) "equipped" EmptyString (type_name slot).

(** [handleDropOnSlot]: [onEquip] is [handleEquip]. *)
Definition handleDropOnSlot (e : DataTransfer) (slotType : ItemType)
           (g : GameState) : GameState :=
  if String.eqb (data_origin e) "inventory"
     && String.eqb (data_itemType e) (type_name slotType)
  then
    match find (fun i => String.eqb (item_id i) (data_itemId e))
               (inventory g) with
    | Some item => handleEquip item g
    | None => g
    end
  else g.

(** [equipped[slot]] for the string [slot]. *)
Definition slot_named (e : EquippedGear) (slot : string)
  : option InventoryItem :=
  if String.eqb slot "weapon" then g_weapon e
  else if String.eqb slot "armor" then g_armor e
  else if String.eqb slot "accessory" then g_accessory e
  else None.

(** [handleDropOnInventory]: [onUnequip] is [handleUnequip]. *)
Definition handleDropOnInventory (e : DataTransfer) (g : GameState)
  : GameState :=
  if String.eqb (data_origin e) "equipped" then
    match slot_named (equipped g) (data_slot e) with
    | Some item =>
        if String.eqb (item_id item) (data_itemId e)
        then handleUnequip item g else g
    | None => g
    end
  else g.

End Sidebar.

(* ===================================================================== *)
(** ** The debug log (services/debugLog.ts) *)
(* ===================================================================== *)

Module DebugLog.

Inductive LogType : Type := request | response | error.

(** [content] is [any]; the log keeps it as it is given, a string here. *)
Record LogEntry : Type := mkLog {
  log_id : string;
  log_timestamp : Z;
  log_type : LogType;
  log_endpoint : string;
  log_model : string;
  log_content : string
}.

(** [Omit<LogEntry, 'id' | 'timestamp'>] *)
Record Entry : Type := mkEntry {
  entry_type : LogType;
  entry_endpoint : string;
  entry_model : string;
  entry_content : string
}.

(** A listener is a function compared by identity: a name here, and a
    call of it is the pair of the name and the logs it is given. *)
Definition Listener : Type := nat.
Definition Call : Type := (Listener * list LogEntry)%type.

Record DebugLogService : Type := mkService {
  logs : list LogEntry;
  listeners : list Listener
}.

Definition empty : DebugLogService := mkService [] [].

(** [this.listeners.forEach(l => l(this.logs))] *)
Definition notify (s : DebugLogService) : list Call :=
  map (fun l => (l, logs s)) (listeners s).

(** [addLog(entry)]; [id] and [timestamp] are the values drawn from
    [Math.random] and [Date.now]. *)
Definition addLog (s : DebugLogService) (entry : Entry) (id : string)
           (timestamp : Z) : DebugLogService * list Call :=
  let newLog := mkLog id timestamp (entry_type entry) (entry_endpoint entry)
                      (entry_model entry) (entry_content entry) in
  let s' := mkService (firstn 50 (newLog :: logs s)) (listeners s) in
  (s', notify s').

Definition getLogs (s : DebugLogService) : list LogEntry := logs s.

(** [subscribe(listener)]: the listener is told the current logs. *)
Definition subscribe (s : DebugLogService) (listener : Listener)
  : DebugLogService * list Call :=
  (mkService (logs s) (listeners s ++ [listener]), [(listener, logs s)]).

(** The function [subscribe] returns. *)
Definition unsubscribe (s : DebugLogService) (listener : Listener)
  : DebugLogService :=
  mkService (logs s)
            (filter (fun l => negb (Nat.eqb l listener)) (listeners s)).

Definition clear (s : DebugLogService) : DebugLogService * list Call :=
  let s' := mkService [] (listeners s) in
  (s', notify s').

End DebugLog.

(* ===================================================================== *)
(** ** The stat builder (components/StatBuilder.tsx) *)
(* ===================================================================== *)

Module StatBuilder.

Local Open Scope Z_scope.

(** The keys of [CharacterStats] as this component has them. *)
Inductive Key : Type := STR | DEX | CON | INT | CHA | PER.

Definition Key_eqb (a b : Key) : bool :=
  match a, b with
  | STR, STR | DEX, DEX | CON, CON | INT, INT | CHA, CHA | PER, PER => true
  | _, _ => false
  end.

Definition keys : list Key := [STR; DEX; CON; INT; CHA; PER].

(** An object with these keys. *)
Definition Stats : Type := Key -> Z.

(** [{ ...prev, [key]: v }] *)
Definition set (prev : Stats) (key : Key) (v : Z) : Stats :=
  fun k => if Key_eqb k key then v else prev k.

(** The state of the component: [pool], [baseStats] and [allocated]. *)
Record State : Type := mkState {
  pool : Z;
  baseStats : Stats;
  allocated : Stats
}.

(** The initial state; [draws k] is [Math.floor(Math.random() * 4)] for
    the key [k]. *)
Definition initial (draws : Key -> Z) : State :=
  mkState 5 (fun k => 10 + draws k - 1) (fun _ => 0).

Definition getTotal (s : State) (key : Key) : Z :=
  baseStats s key + allocated s key.

(** [Math.floor((score - 10) / 2)] *)
Definition getMod (score : Z) : Z := (score - 10) / 2.

(** The handlers run on the state of the last render, which a click
    finds up to date. *)
Definition handleAdd (key : Key) (s : State) : State :=
  if (0 <? pool s) && (getTotal s key <? 20)
  then mkState (pool s - 1) (baseStats s)
               (set (allocated s) key (allocated s key + 1))
  else s.

Definition handleRemove (key : Key) (s : State) : State :=
  if 0 <? allocated s key
  then mkState (pool s + 1) (baseStats s)
               (set (allocated s) key (allocated s key - 1))
  else s.

(** The stats [onComplete] receives. *)
Definition completed (s : State) : Stats := getTotal s.

(** The states the two buttons reach. *)
Inductive reachable (draws : Key -> Z) : State -> Prop :=
| reach_initial : reachable draws (initial draws)
| reach_add key s : reachable draws s -> reachable draws (handleAdd key s)
| reach_remove key s :
    reachable draws s -> reachable draws (handleRemove key s).

End StatBuilder.

(* ===================================================================== *)
(** ** Side quests (services/questSystem.ts) *)
(* ===================================================================== *)

Module QuestSystem.

Local Open Scope Z_scope.

(** [QuestType] and [QuestRewardType], with the members the module
    uses. *)
Inductive QuestType : Type :=
| roll_streak | hp_threshold | inventory_count | turn_count
| any_success_roll | stat_success_count.

Inductive QuestRewardType : Type :=
| level_up | heal_hp | restore_custom_choice | item.

Definition QuestRewardType_eqb (a b : QuestRewardType) : bool :=
  match a, b with
  | level_up, level_up | heal_hp, heal_hp
  | restore_custom_choice, restore_custom_choice | item, item => true
  | _, _ => false
  end.

Record QuestTemplate : Type := mkTemplate {
  tpl_title : string;
  tpl_description : string;
  tpl_type : QuestType;
  tpl_targetRange : Z * Z;
  tpl_reward : QuestRewardType;
  tpl_rewardValue : option Z;
  tpl_statTarget : option StatType
}.

(** [SideQuest], with the fields [generateSideQuests] fills. *)
Record SideQuest : Type := mkQuest {
  quest_id : string;
  quest_title : string;
  quest_description : string;
  quest_type : QuestType;
  quest_target : Z;
  quest_progress : Z;
  quest_reward : QuestRewardType;
  quest_rewardValue : option Z;
  quest_statTarget : option StatType;
  quest_rewardItem : option InventoryItem;
  quest_isCompleted : bool
}.

(** An entry of [rewards]: [{ type, value, item }]. *)
Record Reward : Type := mkReward {
  reward_type : QuestRewardType;
  reward_value : option Z;
  reward_item : option InventoryItem
}.

Definition BASE_TEMPLATES : list QuestTemplate :=
  [mkTemplate "Lucky Streak" "Succeed on {target} dice rolls in a row."
              roll_streak (2, 3) level_up None None;
   mkTemplate "Survivor" "Survive {target} turns with less than 50% HP."
              hp_threshold (2, 3) heal_hp (Some 25) None;
   mkTemplate "Hoarder" "Have {target} items in your inventory."
              inventory_count (3, 5) restore_custom_choice (Some 1) None;
   mkTemplate "Veteran" "Complete {target} turns in this adventure."
              turn_count (3, 5) level_up None None;
   mkTemplate "Skill Master" "Succeed on {target} skill checks of any kind."
              any_success_roll (2, 4) level_up None None].

Definition STAT_REWARD_NAMES (stat : StatType) : list string :=
  match stat with
  | STR => ["Heavy Greatsword"; "Giant's Club"; "Titan's Maul";
            "Warrior's Axe"]
  | DEX => ["Swift Dagger"; "Assassin's Bow"; "Thief's Blade";
            "Ninja's Shuriken"]
  | CON => ["Plate Armor"; "Vitality Shield"; "Iron Helm"; "Guardian's Vest"]
  | INT => ["Arcane Staff"; "Wizard's Tome"; "Crystal Orb"; "Mage's Robe"]
  | CHA => ["Golden Crown"; "Royal Scepter"; "Noble's Ring";
            "Diplomat's Badge"]
  | PER => ["Sniper Rifle"; "Eagle Eye Goggles"; "Scout's Scope";
            "Hunter's Bow"]
  | LUK => ["Lucky Coin"; "Gambler's Dice"; "Rabbit's Foot"; "Chaos Charm"]
  end.

(** A stat as the string it is at run time. *)
Definition stat_name (stat : StatType) : string :=
  match stat with
  | STR => "STR" | DEX => "DEX" | CON => "CON" | INT => "INT"
  | CHA => "CHA" | PER => "PER" | LUK => "LUK"
  end.

Definition generateStatTemplates : list QuestTemplate :=
  map (fun stat =>
         mkTemplate (stat_name stat ++ " Mastery")
                    ("Succeed on {target} " ++ stat_name stat ++ " checks.")
                    stat_success_count (2, 3) item None (Some stat))
      [STR; DEX; CON; INT; CHA; PER; LUK].

Definition getAllTemplates : list QuestTemplate :=
  BASE_TEMPLATES ++ generateStatTemplates.

(** [n.toString()] for an integer. *)
Definition toString (n : Z) : string := NilZero.string_of_int (Z.to_int n).

(** The draws of one iteration of the loop of [generateSideQuests].  A
    draw [Math.floor(Math.random() * k)] is the function of [k] that the
    value of [Math.random()] makes it: [draw_template] for the template,
    [draw_target] for the target, [draw_name] for the name of the reward.
    The others are the identifier and the stat pick of
    [createItemFromString], the identifier given to the reward item and
    the identifier of the quest. *)
Record Draws : Type := mkDraws {
  draw_template : nat -> nat;
  draw_target : Z -> Z;
  draw_name : nat -> nat;
  draw_factory_id : string;
  draw_factory_pick : nat;
  draw_item_id : string;
  draw_quest_id : string
}.

(** [rewardItem]: an index outside [possibleNames] gives [undefined] to
    [createItemFromString], whose [name.toLowerCase()] throws. *)
Definition make_rewardItem (d : Draws) (template : QuestTemplate)
  : completion (option InventoryItem) :=
  match tpl_statTarget template with
  | Some stat =>
      if QuestRewardType_eqb (tpl_reward template) item then
        match nth_error (STAT_REWARD_NAMES stat)
                        (draw_name d (List.length (STAT_REWARD_NAMES stat)))
        with
        | Some name =>
            let rewardItem :=
              ItemFactory.createItemFromString (draw_factory_id d)
                                               (draw_factory_pick d) name in
            Returns
              (Some (mkItem (draw_item_id d) (item_name rewardItem)
                            (item_type rewardItem)
                            (Some ("A reward for mastering "
                                   ++ stat_name stat ++ ".")%string)
                            (item_bonuses rewardItem)))
        | None => Throws "TypeError"
        end
      else Returns None
  | None => Returns None
  end.

(** The loop [for (let i = 0; i < needed; i++)], [n] iterations from
    [i]; an index outside [availableTemplates] gives [undefined], whose
    [targetRange] throws. *)
Fixpoint fill (draws : nat -> Draws) (i n : nat)
         (existingTitles : list string) (newQuests : list SideQuest)
  : completion (list SideQuest) :=
  match n with
  | O => Returns newQuests
  | S n' =>
      let availableTemplates :=
        filter (fun t => negb (JS.mem (tpl_title t) existingTitles))
               getAllTemplates in
      match availableTemplates with
      | [] => Returns newQuests
      | _ =>
          match nth_error availableTemplates
                          (draw_template (draws i)
                                         (List.length availableTemplates))
          with
          | None => Throws "TypeError"
          | Some template =>
              let target :=
                draw_target (draws i)
                            (snd (tpl_targetRange template)
                             - fst (tpl_targetRange template) + 1)
                + fst (tpl_targetRange template) in
              rewardItem <- make_rewardItem (draws i) template ;;
              let quest :=
                mkQuest (draw_quest_id (draws i)) (tpl_title template)
                        (JS.replace (tpl_description template) "{target}"
                                    (toString target))
                        (tpl_type template) target 0 (tpl_reward template)
                        (tpl_rewardValue template) (tpl_statTarget template)
                        rewardItem false in
              fill draws (S i) n' (existingTitles ++ [quest_title quest])
                   (newQuests ++ [quest])
          end
      end
  end.

Definition generateSideQuests (draws : nat -> Draws)
           (currentQuests : list SideQuest) : completion (list SideQuest) :=
  let needed := 3 - Z.of_nat (List.length currentQuests) in
  if needed <=? 0 then Returns currentQuests
  else
    newQuests <- fill draws 0 (Z.to_nat needed)
                      (map quest_title currentQuests) [] ;;
    Returns (currentQuests ++ newQuests).

Definition same_stat (a : StatType) (b : option StatType) : bool :=
  match b with
  | Some s => StatType_eqb a s
  | None => false
  end.

(** The [switch] of [checkQuestProgress]: the progress before the
    comparison with the target.  [hp < maxHp / 2] is [2 * hp < maxHp] on
    integers. *)
Definition newProgress (gameState : GameState) (lastTurn : StoryTurn)
           (quest : SideQuest) : Z :=
  match quest_type quest with
  | roll_streak =>
      match turn_rollResult lastTurn with
      | Some r => if roll_isSuccess r then quest_progress quest + 1 else 0
      | None => quest_progress quest
      end
  | any_success_roll =>
      match turn_rollResult lastTurn with
      | Some r => if roll_isSuccess r then quest_progress quest + 1
                  else quest_progress quest
      | None => quest_progress quest
      end
  | stat_success_count =>
      match turn_rollResult lastTurn with
      | Some r =>
          if roll_isSuccess r
             && same_stat (roll_statType r) (quest_statTarget quest)
          then quest_progress quest + 1 else quest_progress quest
      | None => quest_progress quest
      end
  | turn_count => quest_progress quest + 1
  | hp_threshold =>
      if 2 * hp gameState <? maxHp gameState then quest_progress quest + 1
      else quest_progress quest
  | inventory_count => Z.of_nat (List.length (inventory gameState))
  end.

(** The callback of [activeSideQuests.map]: the quest it returns and the
    reward it pushes. *)
Definition check_quest (gameState : GameState) (lastTurn : StoryTurn)
           (quest : SideQuest) : SideQuest * option Reward :=
  if quest_isCompleted quest then (quest, None)
  else
    let p := newProgress gameState lastTurn quest in
    let with_progress v c :=
      mkQuest (quest_id quest) (quest_title quest) (quest_description quest)
              (quest_type quest) (quest_target quest) v (quest_reward quest)
              (quest_rewardValue quest) (quest_statTarget quest)
              (quest_rewardItem quest) c in
    if quest_target quest <=? p
    then (with_progress (quest_target quest) true,
          Some (mkReward (quest_reward quest) (quest_rewardValue quest)
                         (quest_rewardItem quest)))
    else (with_progress p false, None).

(** [checkQuestProgress(gameState, lastTurn)]; [activeSideQuests] is the
    field of that name of the game state. *)
Definition checkQuestProgress (activeSideQuests : list SideQuest)
           (gameState : GameState) (lastTurn : StoryTurn)
  : list SideQuest * list Reward :=
  let results := map (check_quest gameState lastTurn) activeSideQuests in
  (map fst results,
   flat_map (fun x => match snd x with Some r => [r] | None => [] end)
            results).

End QuestSystem.

(* ===================================================================== *)
(** ** Vocabulary of the properties *)
(* ===================================================================== *)

Import App.
Local Open Scope Z_scope.

(** [clamp x lo hi]: [x] brought into the interval from [lo] to [hi]. *)
Definition clamp (x lo hi : Z) : Z := Z.max lo (Z.min hi x).

(** [hp_change || 0] *)
Definition hpChange (r : AIStoryResponse) : Z :=
  match hp_change r with
  | Some v => v
  | None => 0
  end.

(** [{ ...r, hp_change: d, game_status: s }] *)
Definition with_hp_change_status (r : AIStoryResponse) (d : Z)
           (s : GameStatus) : AIStoryResponse :=
  mkResponse (narrative r) (choices r) (inventory_added r)
             (inventory_removed r) (equipment_update r) (quest_update r)
             (Some d) (Some s) (stats_update r) (new_effects r)
             (npcs_update_field r) (action_result r).

(** Every equipped item has a non-empty identifier. *)
Definition equipped_have_ids (e : EquippedGear) : bool :=
  forallb (fun i => JS.truthy (item_id i)) (present e).

(** No item of [inv] has the identifier of an equipped item. *)
Definition no_shared_ids (inv : list InventoryItem) (e : EquippedGear)
  : bool :=
  forallb (fun i => negb (JS.mem (item_id i) (equippedIds e))) inv.

(** The item is not named in [inventory_removed], case apart. *)
Definition kept (r : AIStoryResponse) (item : InventoryItem) : bool :=
  negb (is_removed (removedNames r) item).

(** [l.length === 0] *)
Definition is_nil {A : Type} (l : list A) : bool :=
  match l with
  | [] => true
  | _ :: _ => false
  end.

Definition all_stats : list StatType := [STR; DEX; CON; INT; CHA; PER; LUK].

(** The slot is empty or holds an item of type [t]. *)
Definition slot_matches (o : option InventoryItem) (t : ItemType) : bool :=
  match o with
  | Some i => ItemType_eqb (item_type i) t
  | None => true
  end.

(** The invariants of a character state: [0 <= hp <= maxHp], at most 8
    items in the bag, every equipped item in the slot of its type, no
    identifier both in the bag and equipped, every experience counter in
    [0, EXP_THRESHOLD). *)
Definition valid_state (g : GameState) : bool :=
  (0 <=? hp g) && (hp g <=? maxHp g)
  && (Z.of_nat (List.length (inventory g)) <=? 8)
  && slot_matches (g_weapon (equipped g)) weapon
  && slot_matches (g_armor (equipped g)) armor
  && slot_matches (g_accessory (equipped g)) accessory
  && forallb (fun i => negb (JS.mem (item_id i)
                                    (map item_id (present (equipped g)))))
             (inventory g)
  && forallb (fun k => (0 <=? stat_get (statExperience g) k)
                       && (stat_get (statExperience g) k <? EXP_THRESHOLD))
             all_stats.

(** No axis of the update has a value other than 0. *)
Definition no_stat_change (su : option PartialStats) : bool :=
  match su with
  | None => true
  | Some p => forallb (fun k => partial_get_or p k 0 =? 0) (partial_keys p)
  end.

(** A response that changes nothing: no hp change, no item added or
    removed, no stat update, no new effect, no NPC change, no quest
    update, no action result, and a status that is ['ongoing'] or absent. *)
Definition is_empty_delta (r : AIStoryResponse) : bool :=
  (hpChange r =? 0)
  && is_nil (or_nil (inventory_added r))
  && is_nil (or_nil (inventory_removed r))
  && no_stat_change (stats_update r)
  && is_nil (or_nil (new_effects r))
  && match npcs_update_field r with
     | None => true
     | Some u => is_nil (or_nil (npcs_add u))
                 && is_nil (or_nil (npcs_update u))
                 && is_nil (or_nil (npcs_remove u))
     end
  && match quest_update r with
     | Some q => negb (JS.truthy q)
     | None => true
     end
  && match action_result r with
     | None => true
     | Some _ => false
     end
  && match game_status r with
     | None | Some ongoing => true
     | Some _ => false
     end.

(** What a successful check on [stat] does to the stats and the
    experience counters [(s, x)], giving [(s', x', ev)]: the other axes
    keep their values; below the threshold the counter gains 1; at the
    threshold the counter returns to 0, the stat gains 1 and the level-up
    event records the old and the new value. *)
Definition success_outcome (s : CharacterStats) (x : StatExperience)
           (stat : StatType)
           (out : CharacterStats * StatExperience * option LevelUpEvent)
  : Prop :=
  let '(s', x', ev) := out in
  let e := stat_get x stat in
  let v := stat_get s stat in
  (forall k, k <> stat ->
             stat_get x' k = stat_get x k /\ stat_get s' k = stat_get s k)
  /\ (e + 1 < EXP_THRESHOLD ->
      stat_get x' stat = e + 1 /\ s' = s /\ ev = None)
  /\ (EXP_THRESHOLD <= e + 1 ->
      stat_get x' stat = 0 /\ stat_get s' stat = v + 1
      /\ ev = Some (mkLevelUp stat v (v + 1))).

(** [n] successful standard checks in a row on [stat]: the state and the
    level-up events, first to last. *)
Fixpoint successes (n : nat) (stat : StatType) (g : GameState)
  : GameState * list (option LevelUpEvent) :=
  match n with
  | O => (g, [])
  | S k =>
      let '(g1, ev) := roll_update true stat g in
      let '(g2, evs) := successes k stat g1 in
      (g2, ev :: evs)
  end.

(** [statExperience[stat] = 0] *)
Definition fresh_axis (g : GameState) (stat : StatType) : GameState :=
  with_stats_exp g (stats g) (stat_set (statExperience g) stat 0).



(** A line feed. *)
Definition nl : string := String JS.LF EmptyString.

(** The response the normalizer starts from. *)
Definition default_response (text : string) : Parser.AIStoryResponse :=
  Parser.mkResponse text [] ongoing 0 None None None None None None.

(** The keys of UPDATES whose value names an entity. *)
Definition entity_keys : list string :=
  ["ITEM_ADD:"; "ITEM_REMOVE:"; "EQUIP:"; "UNEQUIP:"; "EFFECT_ADD:"].

(** The entity name of a line [key ++ rest]: the first pipe-separated
    part for ITEM_ADD and EFFECT_ADD, the whole value otherwise. *)
Definition entity_name (key rest : string) : string :=
  if String.eqb key "ITEM_ADD:" || String.eqb key "EFFECT_ADD:"
  then nth 0 (map JS.trim (JS.split "|" rest)) EmptyString
  else JS.trim rest.

(** A line of ACTION_RESULT whose key is SUCCESS and that has no colon. *)
Definition bare_success (line : string) : bool :=
  let parts := map JS.trim (JS.split ":" line) in
  String.eqb (nth 0 parts EmptyString) "SUCCESS"
  && match nth_error parts 1 with
     | Some _ => false
     | None => true
     end.

(** [bonuses?.[k] || 0]: what an optional bonus object adds to axis [k]. *)
Definition bonus_of (b : option PartialStats) (k : StatType) : Z :=
  match b with
  | Some p => partial_get_or p k 0
  | None => 0
  end.

Fixpoint sum_Z (l : list Z) : Z :=
  match l with
  | [] => 0
  | x :: r => x + sum_Z r
  end.

(** The faces of the twenty-sided die. *)
Definition d20 : list Z :=
  [1; 2; 3; 4; 5; 6; 7; 8; 9; 10; 11; 12; 13; 14; 15; 16; 17; 18; 19; 20].

(** The faces on which the check of [handleChoiceClick] succeeds. *)
Definition winning_faces (g : GameState) (statType : StatType)
           (difficulty : Z) : list Z :=
  filter (fun rollBase =>
            roll_isSuccess (roll_check g statType difficulty rollBase))
         d20.

(** The target rolls from [lo], [n] of them. *)
Fixpoint targets (lo : Z) (n : nat) : list Z :=
  match n with
  | O => []
  | S k => lo :: targets (lo + 1) k
  end.

(** The percentage [getRiskAssessment] means to show for a target roll:
    5 for each winning face, between 5 and 95. *)
Definition nominal_chance (targetRoll : Z) : Z :=
  clamp (5 * (21 - targetRoll)) 5 95.

(** The test of the risk assessment at one target roll (difficulty
    [targetRoll] against a stat of 10, whose modifier is 0): the chance is
    the nominal one as a double, but for the target roll 10, where it is
    the next double above 55; the label is [Dangerous] from target roll 15
    on, [Risky] from 9 to 14 and [Likely Success] below. *)
Definition risk_ok (targetRoll : Z) : bool :=
  let r := Render.getRiskAssessment targetRoll 10 in
  PrimFloat.eqb (Render.risk_chance r)
                (if targetRoll =? 10
                 then PrimFloat.next_up (JS.float_of_Z 55)
                 else JS.float_of_Z (nominal_chance targetRoll))
  && String.eqb (Render.risk_label r)
                (if 15 <=? targetRoll then "Dangerous"
                 else if 9 <=? targetRoll then "Risky"
                 else "Likely Success").

(** No string occurs twice. *)
Fixpoint distinct (l : list string) : bool :=
  match l with
  | [] => true
  | x :: r => negb (JS.mem x r) && distinct r
  end.

(** The items a character holds: the bag, then the slots. *)
Definition held (g : GameState) : list InventoryItem :=
  inventory g ++ present (equipped g).

(** The invariants of the items of a state: at most 8 in the bag, every
    equipped item in the slot of its type, no identifier held twice. *)
Definition sound_items (g : GameState) : bool :=
  (Z.of_nat (List.length (inventory g)) <=? 8)
  && slot_matches (g_weapon (equipped g)) weapon
  && slot_matches (g_armor (equipped g)) armor
  && slot_matches (g_accessory (equipped g)) accessory
  && distinct (map item_id (held g)).

(** [i.id !== item.id] *)
Definition other_id (item i : InventoryItem) : bool :=
  negb (String.eqb (item_id i) (item_id item)).

(** [{ ...e, duration: e.duration - n }] *)
Definition aged (n : Z) (e : StatusEffect) : StatusEffect :=
  mkEffect (eff_id e) (eff_name e) (eff_description e) (eff_type e)
           (eff_duration e - n) (eff_statModifiers e)
           (eff_blocksHeroicActions e).

(** The component is neither waiting for a response nor showing a roll. *)
Definition idle (a : AppState) : bool :=
  negb (isLoading (gameState a) || isRolling (gameState a)).

(** What [stats_update] adds to axis [k]: its value, 0 when absent,
    brought into the interval from -2 to 5. *)
Definition stat_delta (r : AIStoryResponse) (k : StatType) : Z :=
  match stats_update r with
  | Some su => clamp (partial_get_or su k 0) (-2) 5
  | None => 0
  end.

(** The action result of the response is a success on [k] that brings
    the experience counter of [k] to the threshold. *)
Definition levels_up (prev : GameState) (r : AIStoryResponse) (k : StatType)
  : bool :=
  match action_result r with
  | Some ar =>
      act_is_success ar && StatType_eqb k (act_stat ar)
      && (EXP_THRESHOLD <=? stat_get (statExperience prev) k + 1)
  | None => false
  end.

(** [{ ...r, equipment_update: u }] *)
Definition with_equipment_update (r : AIStoryResponse)
           (u : option EquipmentUpdate) : AIStoryResponse :=
  mkResponse (narrative r) (choices r) (inventory_added r)
             (inventory_removed r) u (quest_update r) (hp_change r)
             (game_status r) (stats_update r) (new_effects r)
             (npcs_update_field r) (action_result r).

(** What an update never changes of an NPC. *)
Definition npc_identity (n : NPC) : string * string * string :=
  (npc_id n, npc_name n, npc_description n).

(** The NPCs the response adds, with the identifiers drawn for them. *)
Definition addedNPCs (env : Entropy) (r : AIStoryResponse) : list NPC :=
  mapi_from (fun k n => mkNPC (npc_ids env k) (npc_name n)
                              (npc_description n) (npc_type n)
                              (npc_condition n))
            0 (npcAdd r).

(** The names the response removes from the NPC list. *)
Definition npcRemove (r : AIStoryResponse) : list string :=
  match npcs_update_field r with
  | Some u => or_nil (npcs_remove u)
  | None => []
  end.

(** The bonuses the item factory gives: none, or a first bonus between 1
    and 3 followed by bonuses of 1 or -1. *)
Definition factory_bonuses (b : option PartialStats) : bool :=
  match b with
  | None => true
  | Some [] => false
  | Some ((_, v) :: rest) =>
      (1 <=? v) && (v <=? 3)
      && forallb (fun kv => (snd kv =? 1) || (snd kv =? -1)) rest
  end.

(** The event that took [a] to [b] was not the loading of a save. *)
Inductive played (inferStatFromText : string -> option StatType)
  : AppState -> AppState -> Prop :=
| played_game a g' : game_step (gameState a) g' ->
                     played inferStatFromText a (with_gameState a g')
| played_choice a choice rollBase nowStr :
    played inferStatFromText a
           (fst (handleChoiceClick a choice rollBase nowStr))
| played_custom a text itemId roll nowStr :
    played inferStatFromText a
           (fst (handleCustomChoiceSubmit a text itemId roll nowStr))
| played_rollComplete a : played inferStatFromText a (handleRollComplete a)
| played_stop a : played inferStatFromText a (handleStopRequest a)
| played_retry a : played inferStatFromText a (fst (handleRetryRequest a))
| played_resolved env a id aiResponse :
    played inferStatFromText a
           (fst (resolved inferStatFromText env a id aiResponse))
| played_rejected a id : played inferStatFromText a (rejected a id).

(** The service after the entries [es] are added, first to last; an
    entry comes with the identifier and the time drawn for it. *)
Definition add_all (s : DebugLog.DebugLogService)
           (es : list (DebugLog.Entry * string * Z))
  : DebugLog.DebugLogService :=
  fold_left (fun s '(e, id, t) => fst (DebugLog.addLog s e id t)) es s.

(** The log line of an entry. *)
Definition logged (x : DebugLog.Entry * string * Z) : DebugLog.LogEntry :=
  let '(e, id, t) := x in
  DebugLog.mkLog id t (DebugLog.entry_type e) (DebugLog.entry_endpoint e)
                 (DebugLog.entry_model e) (DebugLog.entry_content e).

(** The sum of the values of an object of the stat builder. *)
Definition builder_sum (f : StatBuilder.Stats) : Z :=
  sum_Z (map f StatBuilder.keys).

(** What a check never changes of a quest. *)
Definition quest_terms (q : QuestSystem.SideQuest) :=
  (QuestSystem.quest_id q, QuestSystem.quest_title q,
   QuestSystem.quest_description q, QuestSystem.quest_type q,
   QuestSystem.quest_target q, QuestSystem.quest_reward q,
   QuestSystem.quest_rewardValue q, QuestSystem.quest_statTarget q,
   QuestSystem.quest_rewardItem q).

(** The reward a quest gives. *)
Definition reward_of (q : QuestSystem.SideQuest) : QuestSystem.Reward :=
  QuestSystem.mkReward (QuestSystem.quest_reward q)
                       (QuestSystem.quest_rewardValue q)
                       (QuestSystem.quest_rewardItem q).

(** The quest is open and the turn brings it to its target. *)
Definition completes (g : GameState) (lastTurn : StoryTurn)
           (q : QuestSystem.SideQuest) : bool :=
  negb (QuestSystem.quest_isCompleted q)
  && (QuestSystem.quest_target q <=? QuestSystem.newProgress g lastTurn q).

(** The number of completed quests. *)
Definition completed_count (qs : list QuestSystem.SideQuest) : nat :=
  List.length (filter QuestSystem.quest_isCompleted qs).

(** A quest as [generateSideQuests] makes it from a template: the terms
    of the template, a target in its range, no progress, and a reward
    item exactly when the reward is an item. *)
Definition fresh_quest (q : QuestSystem.SideQuest) : Prop :=
  (exists t, In t QuestSystem.getAllTemplates
             /\ QuestSystem.quest_title q = QuestSystem.tpl_title t
             /\ QuestSystem.quest_type q = QuestSystem.tpl_type t
             /\ QuestSystem.quest_reward q = QuestSystem.tpl_reward t
             /\ QuestSystem.quest_rewardValue q
                = QuestSystem.tpl_rewardValue t
             /\ QuestSystem.quest_statTarget q
                = QuestSystem.tpl_statTarget t
             /\ fst (QuestSystem.tpl_targetRange t)
                <= QuestSystem.quest_target q
                <= snd (QuestSystem.tpl_targetRange t))
  /\ QuestSystem.quest_progress q = 0
  /\ QuestSystem.quest_isCompleted q = false
  /\ (QuestSystem.quest_reward q = QuestSystem.item
      <-> QuestSystem.quest_rewardItem q <> None).

(** Every draw [Math.floor(Math.random() * k)] of a positive [k] lies
    below [k]. *)
Definition fair (draws : nat -> QuestSystem.Draws) : Prop :=
  forall i,
    (forall k, (0 < k)%nat ->
               (QuestSystem.draw_template (draws i) k < k)%nat)
    /\ (forall k, 0 < k -> 0 <= QuestSystem.draw_target (draws i) k < k)
    /\ (forall k, (0 < k)%nat ->
                  (QuestSystem.draw_name (draws i) k < k)%nat).

(** Every character of [s] satisfies [p]. *)
Fixpoint all_chars (p : ascii -> bool) (s : string) : bool :=
  match s with
  | EmptyString => true
  | String c r => p c && all_chars p r
  end.

(** The status a STATUS line gives: ['won'] and ['lost'] as written,
    ['ongoing'] for any other value. *)
Definition status_of (value : string) : GameStatus :=
  if String.eqb value "won" then won
  else if String.eqb value "lost" then lost
  else ongoing.

(** The keys of the lines of UPDATES. *)
Definition update_keys : list string :=
  ["HP:"; "STATUS:"; "QUEST:"; "ITEM_ADD:"; "ITEM_REMOVE:"; "EQUIP:";
   "UNEQUIP:"; "EFFECT_ADD:"].

(* ===================================================================== *)
(** ** Sample data *)
(* ===================================================================== *)

Definition env0 : Entropy :=
  mkEntropy "1700000000000" (fun _ => "k3j9x2a") (fun _ => 0%nat)
            (fun _ => "q1w2e") (fun _ => "z9y8x7w6v") (fun _ => 0).

Definition infer0 (text : string) : option StatType := None.

(** A response with a narrative and, optionally, a status. *)
Definition plain (text : string) (status : option GameStatus)
  : AIStoryResponse :=
  mkResponse text (Some []) None None None None None status None None None
             None.

Definition playing0 : GameState := with_phase initialGameState playing.

Definition app0 : AppState := mkApp playing0 true [] None None None false 0.

Definition trinket (id name : string) : InventoryItem :=
  mkItem id name misc None None.

Definition bag8 : list InventoryItem :=
  [trinket "a" "Rope"; trinket "b" "Torch"; trinket "c" "Map";
   trinket "d" "Flask"; trinket "e" "Coin"; trinket "f" "Key";
   trinket "g" "Chalk"; trinket "h" "Flint"].

Definition full_bag : GameState := with_inventory playing0 bag8.

Definition two_more : AIStoryResponse :=
  mkResponse "You find a sword and a ring." (Some [])
             (Some [mkAdded "Sword" weapon None; mkAdded "Ring" accessory None])
             None None None None (Some ongoing) None None None None.

Definition won_state : GameState :=
  mkGame [] (mkGear None None None) "Find the crown" [] [] false false
         100 100 [100] won game_over "Fantasy" DEFAULT_STATS
         (mkStats 0 0 0 0 0 0 0) [] DEFAULT_STATS None None 3 None.

Definition frail : StatusEffect :=
  mkEffect "fx2" "Frail" "Your body falters." debuff 3
           (Some [(CON, -2)]) None.


Definition breastplate : InventoryItem :=
  mkItem "p4t7c1q" "Steel Breastplate" armor None (Some [(CON, 2)]).

Definition armoured : GameState :=
  handleEquip breastplate (with_inventory playing0 [breastplate]).

Definition fresh0 (k : nat) : string := "w8r5t".

Definition spent : AppState :=
  with_gameState app0 (with_customChoicesRemaining playing0 0).

Definition despair : StatusEffect :=
  mkEffect "q1w2e" "Despair" "You cannot rise to the occasion." debuff 2
           None (Some true).

Definition blocked : AppState :=
  with_gameState app0
    (mkGame [] (mkGear None None None) "Find the crown" [] [] false false
            100 100 [100] ongoing playing "Fantasy" DEFAULT_STATS
            (mkStats 0 0 0 0 0 0 0) [despair] DEFAULT_STATS None None 3 None).

Definition ring : InventoryItem :=
  mkItem "r7u2m9d" "Silver Ring" accessory None (Some [(CHA, 1)]).

Definition packed : GameState :=
  with_inventory playing0 [trinket "a" "Rope"; ring; trinket "b" "Torch"].

Definition kick : ChoiceData := mkChoice "Kick the door" (Some STR) None.

Definition door : AIStoryResponse :=
  mkResponse "A door bars the way." (Some [kick]) None None None None None
             None None None None None.

Definition even_draws (k : StatBuilder.Key) : Z := 1.

Definition probe (k : nat) : DebugLog.Entry * string * Z :=
  (DebugLog.mkEntry DebugLog.request "generateStoryStep" "gemini-2.5-flash"
                    "prompt", "w8r5t", Z.of_nat k).

Definition first_draws (i : nat) : QuestSystem.Draws :=
  QuestSystem.mkDraws (fun _ => 0%nat) (fun _ => 0) (fun _ => 0%nat)
                      "k3j9x2a" 0 "p4t7c1q" "q1w2e".

Definition veteran : QuestSystem.SideQuest :=
  QuestSystem.mkQuest "q1w2e" "Veteran"
                      "Complete 3 turns in this adventure."
                      QuestSystem.turn_count 3 2 QuestSystem.level_up None
                      None None false.

Definition quiet_turn : StoryTurn :=
  mkTurn "1700000000000-user" "Wait." (Some []) true None None None None
         None None None.

(* ===================================================================== *)
(** ** Properties *)
(* ===================================================================== *)

(** *** The model on concrete inputs *)

Example classify_rusty_sword :
  ItemFactory.createItemFromString "k3j9x2a" 0 "Rusty Sword"
  = mkItem "k3j9x2a" "Rusty Sword" weapon None (Some [(STR, 1)]).
Proof. vm_compute. reflexivity. Qed.

Example classify_legendary_plate :
  ItemFactory.createItemFromString "k3j9x2a" 0 "Legendary Plate Armor"
  = mkItem "k3j9x2a" "Legendary Plate Armor" armor None
           (Some [(CON, 3); (DEX, -1)]).
Proof. vm_compute. reflexivity. Qed.

Example armoured_constitution :
  currentStats armoured = mkStats 10 10 12 10 10 10 10
  /\ inventory armoured = [].
Proof. split; vm_compute; reflexivity. Qed.

Example effects_decay :
  map eff_duration (decrement [frail; despair; frail]) = [2; 1; 2]
  /\ decrement (decrement [despair]) = [].
Proof. split; vm_compute; reflexivity. Qed.

Example rounding_ties_go_up :
  JS.Math_round (PrimFloat.div (JS.float_of_Z 5) (JS.float_of_Z 2)) = Some 3
  /\ JS.Math_round (PrimFloat.div (JS.float_of_Z (-5)) (JS.float_of_Z 2))
     = Some (-2)
  /\ JS.Math_round (PrimFloat.div (JS.float_of_Z 1) (JS.float_of_Z 0)) = None.
Proof. repeat split; vm_compute; reflexivity. Qed.

Example parse_full_response :
  Parser.parseTextResponse
    (fun _ => "w8r5t")
    ("### NARRATIVE" ++ nl ++ "The troll swings." ++ nl
     ++ "### CHOICES" ++ nl ++ "1. [Strike back] | STR | 12" ++ nl
     ++ "2. Run | NONE | 0" ++ nl
     ++ "### UPDATES" ++ nl ++ "HP: -5" ++ nl ++ "STATUS: ongoing" ++ nl
     ++ "QUEST: SAME" ++ nl
     ++ "ITEM_ADD: Club | weapon | Crude | STR:1, DEX+2" ++ nl
     ++ "ITEM_REMOVE: none" ++ nl ++ "EFFECT_ADD: Dazed | debuff | 2" ++ nl
     ++ "### ACTION_RESULT" ++ nl ++ "STAT: STR" ++ nl ++ "DC: 12" ++ nl
     ++ "BASE: 10" ++ nl ++ "TOTAL: 11" ++ nl ++ "SUCCESS: False")
  = Returns
      (Parser.mkResponse
         "The troll swings."
         [Parser.mkChoice "Strike back" (Some "STR") (Some (JS.Num 12));
          Parser.mkChoice "Run" None (Some (JS.Num 0))]
         ongoing (-5) None
         (Some [Parser.mkItem "Club" "weapon" "Crude"
                              (Some [("STR", 1); ("DEX", 2)])])
         None None
         (Some [Parser.mkEffect "w8r5t" "Dazed" "debuff" "Dazed" 2])
         (Some (Parser.mkAction (Some "STR") (Some (JS.Num 12))
                                (Some (JS.Num 10)) (Some (JS.Num 11))
                                (Some false)))).
Proof. vm_compute. reflexivity. Qed.

(** *** Projections of the reducer *)

Ltac open_reconcile :=
  unfold reconcile;
  repeat match goal with
         | |- context [let '(_, _) := ?p in _] =>
             let E := fresh "E" in destruct p eqn:E
         end;
  cbn [fst snd inventory equipped currentQuest npcs history isLoading
       isRolling hp maxHp hpHistory gameStatus phase genre stats
       statExperience activeEffects startingStats finalSummary
       finalStoryboard customChoicesRemaining mainStoryArc].

Lemma reconcile_hp_status env prev r :
  (hp (fst (reconcile env prev r)), gameStatus (fst (reconcile env prev r)))
  = hp_and_status prev r.
Proof. open_reconcile. reflexivity. Qed.

Lemma reconcile_hp env prev r :
  hp (fst (reconcile env prev r)) = fst (hp_and_status prev r).
Proof. rewrite <- (reconcile_hp_status env). reflexivity. Qed.

Lemma reconcile_gameStatus env prev r :
  gameStatus (fst (reconcile env prev r)) = snd (hp_and_status prev r).
Proof. rewrite <- (reconcile_hp_status env). reflexivity. Qed.

Lemma reconcile_inventory env prev r :
  inventory (fst (reconcile env prev r)) = finalInventory env prev r.
Proof. open_reconcile. reflexivity. Qed.

Lemma reconcile_equipped env prev r :
  equipped (fst (reconcile env prev r)) = finalEquipped prev r.
Proof. open_reconcile. reflexivity. Qed.

Lemma reconcile_maxHp env prev r :
  maxHp (fst (reconcile env prev r)) = maxHp prev.
Proof. open_reconcile. reflexivity. Qed.

Lemma reconcile_activeEffects env prev r :
  activeEffects (fst (reconcile env prev r))
  = activeEffects prev ++ brandNewEffects env r.
Proof. open_reconcile. reflexivity. Qed.

Lemma reconcile_npcs env prev r :
  npcs (fst (reconcile env prev r)) = finalNPCs env prev r.
Proof. open_reconcile. reflexivity. Qed.

Lemma reconcile_hpHistory env prev r :
  hpHistory (fst (reconcile env prev r))
  = hpHistory prev ++ [hp (fst (reconcile env prev r))].
Proof. open_reconcile. reflexivity. Qed.

Lemma reconcile_stats_exp env prev r :
  (stats (fst (reconcile env prev r)),
   statExperience (fst (reconcile env prev r)))
  = fst (fst (resolve_action (fst (stats_after_update prev r))
                             (statExperience prev) (action_result r))).
Proof.
  open_reconcile. cbn [fst snd].
  match goal with H : resolve_action _ _ _ = _ |- _ => rewrite H end.
  reflexivity.
Qed.

Lemma reconcile_history env prev r :
  exists aiTurn,
    history (fst (reconcile env prev r)) = history prev ++ [aiTurn]
    /\ turn_isUserTurn aiTurn = false
    /\ turn_text aiTurn = narrative r
    /\ (turn_levelUpEvent aiTurn, turn_rollResult aiTurn)
       = (snd (fst (resolve_action (fst (stats_after_update prev r))
                                   (statExperience prev) (action_result r))),
          snd (resolve_action (fst (stats_after_update prev r))
                              (statExperience prev) (action_result r))).
Proof.
  open_reconcile. cbn [fst snd].
  match goal with H : resolve_action _ _ _ = _ |- _ => rewrite H end.
  eexists. repeat split.
Qed.

Lemma reconcile_currentQuest env prev r :
  currentQuest (fst (reconcile env prev r))
  = match quest_update r with
    | Some q => if JS.truthy q then q else currentQuest prev
    | None => currentQuest prev
    end.
Proof. open_reconcile. reflexivity. Qed.

(** *** HP update *)

Lemma hp_and_status_clamp prev r :
  fst (hp_and_status prev r) = clamp (hp prev + hpChange r) 0 (maxHp prev).
Proof.
  unfold hp_and_status, clampedHp, clamp, hpChange.
  destruct (hp_change r) as [v|];
    match goal with |- context [?a <=? 0] => destruct (Z.leb_spec a 0) end;
    cbn [fst]; lia.
Qed.

Lemma hp_and_status_lost prev r :
  fst (hp_and_status prev r) = 0 -> snd (hp_and_status prev r) = lost.
Proof.
  unfold hp_and_status.
  destruct (Z.leb_spec (clampedHp prev r) 0); cbn [fst snd]; [reflexivity|lia].
Qed.

(** C1. Applying a response sets [hp] to
    [clamp(hp + hp_change, 0, maxHp)]; whenever the new [hp] is 0 the new
    [gameStatus] is [lost], whatever status the response carries; and a
    change of -150 on 40/100 with status ['ongoing'] gives [hp = 0] and
    [lost]. *)
Theorem hp_update_clamps_and_forces_lost env prev r :
  let next := fst (reconcile env prev r) in
  let scenario :=
    fst (reconcile env (with_hp_maxHp prev 40 100)
                   (with_hp_change_status r (-150) ongoing)) in
  hp next = clamp (hp prev + hpChange r) 0 (maxHp prev)
  /\ (hp next = 0 -> gameStatus next = lost)
  /\ hp scenario = 0
  /\ gameStatus scenario = lost.
Proof.
  cbv zeta. repeat split.
  - rewrite reconcile_hp. apply hp_and_status_clamp.
  - rewrite reconcile_hp, reconcile_gameStatus. apply hp_and_status_lost.
  - rewrite reconcile_hp. reflexivity.
  - rewrite reconcile_gameStatus. reflexivity.
Qed.

(** *** Inventory capacity *)

Lemma filter_all {A : Type} (f : A -> bool) (l : list A) :
  forallb f l = true -> filter f l = l.
Proof.
  induction l as [|x l IH]; cbn [forallb filter]; [reflexivity|].
  intros H. apply andb_true_iff in H as [Hx Hl].
  rewrite Hx, IH by assumption. reflexivity.
Qed.

Lemma capped_firstn (inv : list InventoryItem) : capped inv = firstn 8 inv.
Proof.
  unfold capped. destruct (Z.ltb_spec 8 (Z.of_nat (List.length inv))).
  - reflexivity.
  - symmetry. apply firstn_all2. lia.
Qed.

Lemma mem_In (x : string) (xs : list string) :
  JS.mem x xs = true <-> In x xs.
Proof.
  unfold JS.mem. rewrite existsb_exists. split.
  - intros (y & Hy & E). apply String.eqb_eq in E. subst. assumption.
  - intros H. exists x. split; [assumption|apply String.eqb_refl].
Qed.

Lemma still_equipped (e : EquippedGear) (oldItem : InventoryItem) :
  equipped_have_ids e = true -> In oldItem (present e) ->
  JS.mem (item_id oldItem) (equippedIds e) = true.
Proof.
  unfold equipped_have_ids, equippedIds. intros Hids Hin.
  rewrite forallb_forall in Hids. apply mem_In, filter_In. split.
  - apply in_map. assumption.
  - apply Hids. assumption.
Qed.

Lemma restore_old_all (ids removed : list string)
      (olds inv : list InventoryItem) :
  (forall o, In o olds -> JS.mem (item_id o) ids = true) ->
  fold_left (restore_old ids removed) olds inv = inv.
Proof.
  revert inv. induction olds as [|o olds IH]; intros inv H; [reflexivity|].
  cbn [fold_left]. unfold restore_old at 2.
  rewrite (H o) by (left; reflexivity). cbn [negb andb].
  apply IH. intros o' Ho'. apply H. right. assumption.
Qed.

(** With identifiers on the equipped items and none of them shared with
    the bag, the next inventory is the capped intake. *)
Lemma finalInventory_capped env prev r :
  equipped_have_ids (equipped prev) = true ->
  no_shared_ids (capped (intake env prev r)) (equipped prev) = true ->
  finalInventory env prev r = capped (intake env prev r).
Proof.
  intros Hids Hshared. unfold finalInventory.
  rewrite (filter_all _ _ Hshared).
  apply restore_old_all. intros o Ho. apply still_equipped; assumption.
Qed.


(** *** Game status *)

(** C9, as the code has it: the reducer does not read the previous
    [gameStatus].  The new status is [lost] when the new [hp] is 0 and
    otherwise the status of the response, ['ongoing'] when it has none; so
    it is ['ongoing'] exactly when the new [hp] is positive and the
    response says ['ongoing'] or nothing. *)
Theorem status_follows_response env prev r :
  let next := fst (reconcile env prev r) in
  gameStatus next
  = (if hp next =? 0 then lost
     else match game_status r with Some s => s | None => ongoing end)
  /\ (gameStatus next = ongoing
      <-> hp next <> 0
          /\ (game_status r = None \/ game_status r = Some ongoing)).
Proof.
  cbv zeta. rewrite reconcile_gameStatus, reconcile_hp.
  unfold hp_and_status.
  destruct (Z.leb_spec (clampedHp prev r) 0) as [H|H]; cbn [fst snd].
  - split; [reflexivity|]. split; [discriminate|]. intros [? _]. lia.
  - destruct (Z.eqb_spec (clampedHp prev r) 0) as [E|E]; [lia|].
    split; [reflexivity|].
    destruct (game_status r) as [[| |]|]; split; intros; try discriminate;
      try tauto; intuition discriminate.
Qed.


(** C9 fails on the code.  A turn is issued and stopped, a choice is made
    and its response ends the game as [won]; the retry flag is still set,
    and the response to the retry, whose status is ['ongoing'], sets the
    status back to ['ongoing'].  The states are those of the handlers
    named below, one after the other from the initial state. *)
Lemma status_reverts_to_ongoing :
  let a1 := fst (handleChoiceClick
                   app0 (mkChoice "Begin the adventure." None None) 1 "1") in
  let a2 := handleStopRequest a1 in
  let a3 := fst (handleChoiceClick
                   a2 (mkChoice "Open the door" None None) 7 "2") in
  let a4 := fst (resolved infer0 env0 a3 3 (plain "You win." (Some won))) in
  let a5 := fst (handleRetryRequest a4) in
  let a6 := fst (resolved infer0 env0 a5 4
                          (plain "The road goes on." (Some ongoing))) in
  steps infer0 app0 a4
  /\ gameStatus (gameState a4) = won
  /\ steps infer0 a4 a6
  /\ gameStatus (gameState a6) = ongoing
  /\ gameStatus (fst (reconcile env0 (gameState a4)
                                (plain "The road goes on." (Some ongoing))))
     = ongoing.
Proof.
  cbv zeta. split; [|split; [|split; [|split]]].
  - eapply steps_next; [|apply step_resolved].
    eapply steps_next; [|apply step_choice].
    eapply steps_next; [|apply step_stop].
    eapply steps_next; [apply steps_refl|apply step_choice].
  - vm_compute. reflexivity.
  - eapply steps_next; [|apply step_resolved].
    eapply steps_next; [apply steps_refl|apply step_retry].
  - vm_compute. reflexivity.
  - vm_compute. reflexivity.
Qed.

(** *** The empty delta *)

(** C4 fails on the code: the state is valid, the delta is empty, and
    [gameStatus] goes from [won] to ['ongoing'] (and [hpHistory] grows). *)
Lemma empty_delta_changes_status :
  valid_state won_state = true
  /\ is_empty_delta (plain "Nothing happens." None) = true
  /\ gameStatus won_state = won
  /\ gameStatus (fst (reconcile env0 won_state
                                (plain "Nothing happens." None))) = ongoing
  /\ gameStatus (fst (reconcile env0 won_state
                                (plain "Nothing happens." None)))
     <> gameStatus won_state
  /\ hpHistory (fst (reconcile env0 won_state
                               (plain "Nothing happens." None)))
     = [100; 100].
Proof.
  split; [vm_compute; reflexivity|]. split; [vm_compute; reflexivity|].
  split; [reflexivity|]. split; [vm_compute; reflexivity|].
  split; [vm_compute; discriminate|vm_compute; reflexivity].
Qed.

Lemma is_nil_true {A : Type} (l : list A) : is_nil l = true -> l = [].
Proof. destruct l; [reflexivity|discriminate]. Qed.

Lemma no_stat_change_stats prev r :
  no_stat_change (stats_update r) = true ->
  stats_after_update prev r = (stats prev, None).
Proof.
  unfold no_stat_change, stats_after_update.
  destruct (stats_update r) as [su|]; [|reflexivity]. intros H.
  assert (E : forall ks acc,
             forallb (fun k => partial_get_or su k 0 =? 0) ks = true ->
             fold_left (apply_stat_update su) ks acc = acc).
  { induction ks as [|k ks IH]; intros acc Hks; [reflexivity|].
    cbn [forallb] in Hks. apply andb_true_iff in Hks as [Hk Hks].
    cbn [fold_left]. rewrite <- (IH acc Hks) at 2. f_equal.
    unfold apply_stat_update. destruct acc as [s f].
    apply Z.eqb_eq in Hk. rewrite Hk. reflexivity. }
  rewrite E by assumption. reflexivity.
Qed.

Lemma not_removed_by_nil (inv : list InventoryItem) :
  filter (fun item => negb (is_removed [] item)) inv = inv.
Proof. apply filter_all, forallb_forall. reflexivity. Qed.

Lemma valid_no_shared_ids (inv : list InventoryItem) (e : EquippedGear) :
  forallb (fun i => negb (JS.mem (item_id i) (map item_id (present e)))) inv
  = true ->
  no_shared_ids inv e = true.
Proof.
  unfold no_shared_ids. rewrite !forallb_forall. intros H i Hi.
  specialize (H i Hi). apply negb_true_iff in H. apply negb_true_iff.
  destruct (JS.mem (item_id i) (equippedIds e)) eqn:E; [|reflexivity].
  apply mem_In in E. unfold equippedIds in E. apply filter_In in E as [E _].
  apply mem_In in E. congruence.
Qed.

(** C4, as the code has it.  On a valid state whose equipped items have
    identifiers, an empty delta leaves stats, experience, inventory,
    equipment, hp, maxHp, effects, NPCs, the quest and the fields the
    reducer never writes as they were; it appends one turn to [history]
    and the hp to [hpHistory], clears [isLoading], and sets [gameStatus]
    and [phase] anew: [lost] and [game_over] when hp is 0, ['ongoing'] and
    [playing] otherwise. *)
Theorem empty_delta_reconcile env prev r :
  valid_state prev = true ->
  equipped_have_ids (equipped prev) = true ->
  is_empty_delta r = true ->
  let next := fst (reconcile env prev r) in
  stats next = stats prev
  /\ statExperience next = statExperience prev
  /\ inventory next = inventory prev
  /\ equipped next = equipped prev
  /\ hp next = hp prev
  /\ maxHp next = maxHp prev
  /\ activeEffects next = activeEffects prev
  /\ npcs next = npcs prev
  /\ currentQuest next = currentQuest prev
  /\ customChoicesRemaining next = customChoicesRemaining prev
  /\ startingStats next = startingStats prev
  /\ (exists aiTurn, history next = history prev ++ [aiTurn])
  /\ hpHistory next = hpHistory prev ++ [hp prev]
  /\ isLoading next = false
  /\ gameStatus next = (if hp prev =? 0 then lost else ongoing)
  /\ phase next = (if hp prev =? 0 then game_over else playing).
Proof.
  unfold valid_state, is_empty_delta. intros Hvalid Hids Hempty.
  repeat (apply andb_true_iff in Hvalid as [Hvalid ?]).
  repeat (apply andb_true_iff in Hempty as [Hempty ?]).
  apply Z.eqb_eq in Hempty.
  repeat match goal with
         | H : is_nil _ = true |- _ => apply is_nil_true in H
         | H : (_ <=? _) = true |- _ => apply Z.leb_le in H
         end.
  assert (Hhp : hp_and_status prev r
                = (hp prev, if hp prev =? 0 then lost else ongoing)).
  { unfold hp_and_status, clampedHp. fold (hpChange r). rewrite Hempty.
    rewrite Z.add_0_r, Z.max_r, Z.min_r by lia.
    destruct (Z.leb_spec (hp prev) 0), (Z.eqb_spec (hp prev) 0); try lia.
    - f_equal. lia.
    - destruct (game_status r) as [[| |]|]; try discriminate; reflexivity. }
  assert (Hstats : stats_after_update prev r = (stats prev, None))
    by (apply no_stat_change_stats; assumption).
  assert (Hact : action_result r = None)
    by (destruct (action_result r); [discriminate|reflexivity]).
  assert (Hremoved : removedNames r = [])
    by (unfold removedNames;
        match goal with H : or_nil (inventory_removed r) = [] |- _ =>
          rewrite H end; reflexivity).
  assert (Hinv : finalInventory env prev r = inventory prev).
  { assert (Hintake : intake env prev r = inventory prev).
    { unfold intake, newItems. rewrite Hremoved.
      match goal with H : or_nil (inventory_added r) = [] |- _ =>
        rewrite H end.
      cbn [mapi_from]. rewrite app_nil_r. apply not_removed_by_nil. }
    assert (Hcap : capped (intake env prev r) = inventory prev).
    { rewrite Hintake. unfold capped.
      destruct (Z.ltb_spec 8 (Z.of_nat (List.length (inventory prev))));
        [lia|reflexivity]. }
    rewrite finalInventory_capped; rewrite ?Hcap; auto.
    apply valid_no_shared_ids. assumption. }
  assert (Hnpcs : finalNPCs env prev r = npcs prev).
  { unfold finalNPCs, npcAdd.
    destruct (npcs_update_field r) as [u|].
    - match goal with H : _ && _ = true |- _ =>
        apply andb_true_iff in H as [H Hrem];
        apply andb_true_iff in H as [Hadd Hupd] end.
      apply is_nil_true in Hadd, Hupd, Hrem. rewrite Hadd, Hupd, Hrem.
      cbn [mapi_from fold_left]. rewrite app_nil_r.
      apply filter_all, forallb_forall. reflexivity.
    - cbn [mapi_from fold_left]. rewrite app_nil_r.
      apply filter_all, forallb_forall. reflexivity. }
  assert (Hgear : finalEquipped prev r = equipped prev).
  { unfold finalEquipped. rewrite Hremoved.
    destruct (equipped prev) as [[w|] [a|] [c|]]; reflexivity. }
  cbv zeta.
  pose proof (reconcile_stats_exp env prev r) as Hse.
  rewrite Hstats, Hact in Hse. cbn [fst resolve_action] in Hse.
  injection Hse as Hs Hx.
  pose proof (reconcile_hp env prev r) as Hh. rewrite Hhp in Hh.
  pose proof (reconcile_gameStatus env prev r) as Hg. rewrite Hhp in Hg.
  cbn [fst snd] in Hh, Hg.
  repeat split; try assumption.
  - rewrite reconcile_inventory. assumption.
  - rewrite reconcile_equipped. assumption.
  - apply reconcile_maxHp.
  - rewrite reconcile_activeEffects. unfold brandNewEffects.
    match goal with H : or_nil (new_effects r) = [] |- _ => rewrite H end.
    apply app_nil_r.
  - rewrite reconcile_npcs. assumption.
  - rewrite reconcile_currentQuest.
    destruct (quest_update r) as [q|]; [|reflexivity].
    destruct (JS.truthy q); [discriminate|reflexivity].
  - open_reconcile. reflexivity.
  - open_reconcile. reflexivity.
  - destruct (reconcile_history env prev r) as (t & Ht & _).
    exists t. assumption.
  - rewrite reconcile_hpHistory, Hh. reflexivity.
  - open_reconcile. reflexivity.
  - revert Hg. open_reconcile. intros ->.
    destruct (hp prev =? 0); reflexivity.
Qed.

(** The scenario of C4 on a full bag. *)
Lemma empty_delta_reconcile_witness :
  valid_state full_bag = true
  /\ equipped_have_ids (equipped full_bag) = true
  /\ is_empty_delta (plain "Nothing happens." None) = true
  /\ inventory (fst (reconcile env0 full_bag (plain "Nothing happens." None)))
     = bag8
  /\ gameStatus (fst (reconcile env0 full_bag
                                (plain "Nothing happens." None))) = ongoing.
Proof.
  assert (Hv : valid_state full_bag = true) by (vm_compute; reflexivity).
  assert (Hi : equipped_have_ids (equipped full_bag) = true)
    by (vm_compute; reflexivity).
  assert (He : is_empty_delta (plain "Nothing happens." None) = true)
    by (vm_compute; reflexivity).
  destruct (empty_delta_reconcile env0 full_bag _ Hv Hi He)
    as (_ & _ & Hinv & _ & _ & _ & _ & _ & _ & _ & _ & _ & _ & _ & Hst & _).
  split; [exact Hv|]. split; [exact Hi|]. split; [exact He|].
  split; [exact Hinv|exact Hst].
Defined.

(** *** Experience and level-up *)

Lemma stat_get_set_same (s : CharacterStats) (k : StatType) (v : Z) :
  stat_get (stat_set s k v) k = v.
Proof. destruct k; reflexivity. Qed.

Lemma stat_get_set_other (s : CharacterStats) (k k' : StatType) (v : Z) :
  k' <> k -> stat_get (stat_set s k v) k' = stat_get s k'.
Proof. destruct k, k'; intros H; try reflexivity; contradiction H; reflexivity. Qed.

Lemma gain_experience_outcome s x stat :
  success_outcome s x stat (gain_experience s x stat).
Proof.
  unfold success_outcome, gain_experience.
  destruct (Z.leb_spec EXP_THRESHOLD (stat_get x stat + 1)) as [H|H].
  - repeat split; try lia; rewrite ?stat_get_set_same; try reflexivity;
      apply stat_get_set_other; assumption.
  - repeat split; try lia; rewrite ?stat_get_set_same; try reflexivity.
    apply stat_get_set_other; assumption.
Qed.

(** C6. A successful check adds 1 to the experience counter of its axis;
    at the threshold 3 the counter returns to 0, the base stat gains 1 and
    the level-up event has [newValue = oldValue + 1]; a failed check
    leaves the counters and the stats as they were.  This holds for the
    standard check of [handleChoiceClick] and for the [action_result] of a
    response.  From a counter at 0, two successes raise no level-up and
    the third raises exactly one. *)
Theorem experience_threshold (g : GameState) (stat : StatType) :
  (let '(g', ev) := roll_update true stat g in
   success_outcome (stats g) (statExperience g) stat
                   (stats g', statExperience g', ev))
  /\ (let '(g', ev) := roll_update false stat g in
      stats g' = stats g /\ statExperience g' = statExperience g
      /\ ev = None)
  /\ (forall env r ar,
         action_result r = Some ar -> act_stat ar = stat ->
         let next := fst (reconcile env g r) in
         let s0 := fst (stats_after_update g r) in
         if act_is_success ar
         then exists ev,
             success_outcome s0 (statExperience g) stat
                             (stats next, statExperience next, ev)
             /\ exists aiTurn,
                 history next = history g ++ [aiTurn]
                 /\ turn_levelUpEvent aiTurn = ev
         else stats next = s0 /\ statExperience next = statExperience g)
  /\ (let '(g2, evs) := successes 2 stat (fresh_axis g stat) in
      evs = [None; None] /\ stat_get (statExperience g2) stat = 2
      /\ stats g2 = stats g)
  /\ (let '(g3, evs) := successes 3 stat (fresh_axis g stat) in
      evs = [None; None;
             Some (mkLevelUp stat (stat_get (stats g) stat)
                             (stat_get (stats g) stat + 1))]
      /\ stat_get (statExperience g3) stat = 0
      /\ stat_get (stats g3) stat = stat_get (stats g) stat + 1).
Proof.
  split; [|split; [|split; [|split]]].
  - unfold roll_update, success_outcome.
    destruct (Z.leb_spec EXP_THRESHOLD (stat_get (statExperience g) stat + 1));
      cbn [stats statExperience with_stats_exp with_isRolling];
      repeat split; try lia; rewrite ?stat_get_set_same; try reflexivity;
      apply stat_get_set_other; assumption.
  - cbn. repeat split.
  - intros env r ar Har Hstat. cbv zeta.
    pose proof (reconcile_stats_exp env g r) as Hse.
    destruct (reconcile_history env g r) as (t & Ht & _ & _ & Hev).
    rewrite Har in Hse, Hev. cbn [resolve_action] in Hse, Hev.
    rewrite Hstat in Hse, Hev.
    destruct (act_is_success ar).
    + cbn [fst snd] in Hse, Hev.
      pose proof (gain_experience_outcome
                    (fst (stats_after_update g r)) (statExperience g) stat)
        as Hout.
      destruct (gain_experience _ _ _) as [[s' x'] ev].
      cbn [fst snd] in Hse, Hev. injection Hse as Hs Hx.
      injection Hev as Hev _. exists ev. rewrite Hs, Hx.
      split; [assumption|]. exists t. split; assumption.
    + cbn [fst snd] in Hse. injection Hse as Hs Hx. split; assumption.
  - unfold successes, roll_update, fresh_axis, EXP_THRESHOLD.
    repeat progress
      (cbn [stats statExperience with_stats_exp with_isRolling];
       rewrite ?stat_get_set_same;
       cbn [Z.add Z.leb Z.compare Pos.add Pos.compare Pos.compare_cont
            Pos.succ]).
    split; [reflexivity|split; reflexivity].
  - unfold successes, roll_update, fresh_axis, EXP_THRESHOLD.
    repeat progress
      (cbn [stats statExperience with_stats_exp with_isRolling];
       rewrite ?stat_get_set_same;
       cbn [Z.add Z.leb Z.compare Pos.add Pos.compare Pos.compare_cont
            Pos.succ]).
    split; [reflexivity|split; reflexivity].
Qed.

(** The standard check of [handleChoiceClick] succeeds when the drawn
    die plus the modifier of the effective stat reaches the difficulty,
    and the handler leaves the stats and the counters [roll_update]
    computes. *)
Lemma handleChoiceClick_check a choice statType difficulty rollBase nowStr :
  isLoading (gameState a) = false -> isRolling (gameState a) = false ->
  enableDiceRolls a = true ->
  choice_type choice = Some statType ->
  choice_difficulty choice = Some difficulty -> difficulty <> 0 ->
  let g := gameState a in
  let success :=
    difficulty <=? rollBase + getMod (stat_get (currentStats g) statType) in
  let g' := gameState (fst (handleChoiceClick a choice rollBase nowStr)) in
  stats g' = stats (fst (roll_update success statType g))
  /\ statExperience g' = statExperience (fst (roll_update success statType g)).
Proof.
  intros Hl Hr Hd Ht Hc Hz. cbv zeta. unfold handleChoiceClick.
  rewrite Hl, Hr, Hd, Ht, Hc. cbn [orb].
  destruct (Z.eqb_spec difficulty 0) as [|_]; [contradiction|].
  cbn [roll_check roll_isSuccess].
  destruct (roll_update _ statType (gameState a)) as [g1 ev].
  split; reflexivity.
Qed.

Lemma experience_threshold_witness :
  let '(g3, evs) := successes 3 STR (fresh_axis playing0 STR) in
  stat_get (stats g3) STR = 11 /\ stat_get (statExperience g3) STR = 0
  /\ evs = [None; None; Some (mkLevelUp STR 10 11)].
Proof.
  destruct (experience_threshold playing0 STR) as (_ & _ & _ & _ & H).
  destruct (successes 3 STR (fresh_axis playing0 STR)) as [g3 evs].
  destruct H as (Hev & Hx & Hs).
  split; [exact Hs|]. split; [exact Hx|exact Hev].
Defined.

(** *** Heroic actions *)

(** C10. With the budget of heroic actions used up, or with an active
    effect that blocks heroic actions, submitting a custom action leaves
    the whole state of the component as it was and issues no request. *)
Theorem heroic_action_refused a text itemId roll nowStr :
  customChoicesRemaining (gameState a) <= 0
  \/ isHeroicBlocked (gameState a) = true ->
  fst (handleCustomChoiceSubmit a text itemId roll nowStr) = a
  /\ forall id params,
      ~ In (CallAI id params)
           (snd (handleCustomChoiceSubmit a text itemId roll nowStr)).
Proof.
  intros H. unfold handleCustomChoiceSubmit.
  destruct (Z.leb_spec (customChoicesRemaining (gameState a)) 0) as [Hle|Hgt].
  - split; [reflexivity|]. intros id params [].
  - destruct H as [H|H]; [lia|]. rewrite H.
    split; [reflexivity|]. intros id params [E|[]]. discriminate.
Qed.

(** The budget used up, and an effect that blocks heroic actions. *)
Lemma heroic_action_refused_witness :
  (customChoicesRemaining (gameState spent) <= 0
   \/ isHeroicBlocked (gameState spent) = true)
  /\ fst (handleCustomChoiceSubmit spent "I leap the chasm" None 17 "5")
     = spent
  /\ (customChoicesRemaining (gameState blocked) <= 0
      \/ isHeroicBlocked (gameState blocked) = true)
  /\ fst (handleCustomChoiceSubmit blocked "I leap the chasm" None 17 "5")
     = blocked.
Proof.
  assert (H : customChoicesRemaining (gameState spent) <= 0
              \/ isHeroicBlocked (gameState spent) = true)
    by (left; vm_compute; discriminate).
  assert (H' : customChoicesRemaining (gameState blocked) <= 0
               \/ isHeroicBlocked (gameState blocked) = true)
    by (right; vm_compute; reflexivity).
  split; [exact H|]. split.
  - exact (proj1 (heroic_action_refused spent "I leap the chasm" None 17 "5"
                                        H)).
  - split; [exact H'|].
    exact (proj1 (heroic_action_refused blocked "I leap the chasm" None 17
                                        "5" H')).
Defined.

(** *** Request fencing *)

Lemma generate_requestId a params :
  requestIdRef (fst (generateAndProcessAIResponse a params))
  = requestIdRef a + 1.
Proof. reflexivity. Qed.

Lemma processTurn_requestId rendered a nowStr text roll custom lvl arc :
  requestIdRef (fst (processTurn rendered a nowStr text roll custom lvl arc))
  = requestIdRef a + 1.
Proof. reflexivity. Qed.

Lemma resolved_requestId infer env a id r :
  requestIdRef (fst (resolved infer env a id r)) = requestIdRef a.
Proof.
  unfold resolved. destruct (negb (id =? requestIdRef a)); [reflexivity|].
  destruct (reconcile env (gameState a) (sanitize infer env r)).
  reflexivity.
Qed.

(** The request counter never goes down. *)
Lemma step_requestId infer a b :
  step infer a b -> requestIdRef a <= requestIdRef b.
Proof.
  intros H. destruct H.
  - cbn. lia.
  - unfold handleChoiceClick.
    destruct (isLoading (gameState a) || isRolling (gameState a));
      [cbn; lia|].
    destruct (enableDiceRolls a), (choice_difficulty choice) as [d|],
      (choice_type choice) as [t|];
      try (rewrite processTurn_requestId; lia).
    destruct (d =? 0); [rewrite processTurn_requestId; lia|].
    destruct (roll_update _ t (gameState a)) as [g' ev].
    rewrite processTurn_requestId. cbn. lia.
  - unfold handleCustomChoiceSubmit.
    destruct (customChoicesRemaining (gameState a) <=? 0); [cbn; lia|].
    destruct (isHeroicBlocked (gameState a)); [cbn; lia|].
    rewrite processTurn_requestId. cbn. lia.
  - cbn. lia.
  - cbn. lia.
  - unfold handleRetryRequest. destruct (lastTurnParams a); cbn; lia.
  - rewrite resolved_requestId. lia.
  - unfold rejected. destruct (id =? requestIdRef a); cbn; lia.
  - cbn. lia.
Qed.

Lemma steps_requestId infer a b :
  steps infer a b -> requestIdRef a <= requestIdRef b.
Proof.
  induction 1 as [a|a b c _ IH Hstep]; [lia|].
  apply step_requestId in Hstep. lia.
Qed.

Lemma stale_discarded infer env a id r :
  id <> requestIdRef a ->
  resolved infer env a id r = (a, []) /\ rejected a id = a.
Proof.
  intros H. unfold resolved, rejected.
  destruct (Z.eqb_spec id (requestIdRef a)); [contradiction|].
  split; reflexivity.
Qed.

Lemma current_applied infer env a r :
  gameState (fst (resolved infer env a (requestIdRef a) r))
  = fst (reconcile env (gameState a) (sanitize infer env r)).
Proof.
  unfold resolved. rewrite Z.eqb_refl. cbn [negb].
  destruct (reconcile env (gameState a) (sanitize infer env r)).
  reflexivity.
Qed.

(** C2. A response whose request identifier is not the current one is
    dropped: nothing of the state changes and nothing is asked of the
    environment, whether the call resolved or was rejected.  So when
    request A, issued under the identifier current in [a1], is cancelled,
    its response is dropped in every state the component reaches
    afterwards; and with a request B current in such a state, the state
    after B's response is the same whether A's response arrives before
    it, after it or not at all, and it is the reduction of B's response. *)
Theorem stale_response_is_discarded infer (a1 : AppState) :
  let idA := requestIdRef a1 in
  (forall env a id r,
      id <> requestIdRef a ->
      resolved infer env a id r = (a, []) /\ rejected a id = a)
  /\ (forall a3 env r,
         steps infer (handleStopRequest a1) a3 ->
         resolved infer env a3 idA r = (a3, []) /\ rejected a3 idA = a3)
  /\ (forall a3 envA envB rA rB,
         steps infer (handleStopRequest a1) a3 ->
         let aB := fst (resolved infer envB a3 (requestIdRef a3) rB) in
         fst (resolved infer envA aB idA rA) = aB
         /\ fst (resolved infer envB (fst (resolved infer envA a3 idA rA))
                          (requestIdRef a3) rB) = aB
         /\ gameState aB
            = fst (reconcile envB (gameState a3) (sanitize infer envB rB))).
Proof.
  cbv zeta.
  assert (Hstale : forall a3, steps infer (handleStopRequest a1) a3 ->
                              requestIdRef a1 <> requestIdRef a3).
  { intros a3 H. apply steps_requestId in H. cbn in H. lia. }
  split; [|split].
  - intros. apply stale_discarded. assumption.
  - intros a3 env r H. apply stale_discarded, Hstale, H.
  - intros a3 envA envB rA rB H. split; [|split].
    + assert (Hid : requestIdRef
                      (fst (resolved infer envB a3 (requestIdRef a3) rB))
                    = requestIdRef a3) by apply resolved_requestId.
      destruct (stale_discarded infer envA
                  (fst (resolved infer envB a3 (requestIdRef a3) rB))
                  (requestIdRef a1) rA) as [E _].
      * rewrite Hid. apply Hstale, H.
      * rewrite E. reflexivity.
    + destruct (stale_discarded infer envA a3 (requestIdRef a1) rA
                                (Hstale a3 H)) as [E _].
      rewrite E. reflexivity.
    + apply current_applied.
Qed.

Lemma stale_response_is_discarded_witness :
  let a1 := fst (handleChoiceClick
                   app0 (mkChoice "Begin the adventure." None None) 1 "1") in
  let a3 := fst (handleRetryRequest (handleStopRequest a1)) in
  let aB := fst (resolved infer0 env0 a3 (requestIdRef a3)
                          (plain "The door opens." (Some ongoing))) in
  steps infer0 (handleStopRequest a1) a3
  /\ requestIdRef a1 <> requestIdRef aB
  /\ fst (resolved infer0 env0 aB (requestIdRef a1) two_more) = aB
  /\ resolved infer0 env0 aB (requestIdRef a1) two_more = (aB, []).
Proof.
  cbv zeta.
  assert (Hsteps :
            steps infer0
              (handleStopRequest
                 (fst (handleChoiceClick
                         app0 (mkChoice "Begin the adventure." None None)
                         1 "1")))
              (fst (handleRetryRequest
                      (handleStopRequest
                         (fst (handleChoiceClick
                                 app0
                                 (mkChoice "Begin the adventure." None None)
                                 1 "1"))))))
    by (eapply steps_next; [apply steps_refl|apply step_retry]).
  assert (Hne :
            requestIdRef
              (fst (handleChoiceClick
                      app0 (mkChoice "Begin the adventure." None None) 1 "1"))
            <> requestIdRef
                 (fst (resolved infer0 env0
                         (fst (handleRetryRequest
                                 (handleStopRequest
                                    (fst (handleChoiceClick
                                            app0
                                            (mkChoice "Begin the adventure."
                                                      None None)
                                            1 "1")))))
                         (requestIdRef
                            (fst (handleRetryRequest
                                    (handleStopRequest
                                       (fst (handleChoiceClick
                                               app0
                                               (mkChoice
                                                  "Begin the adventure."
                                                  None None)
                                               1 "1"))))))
                         (plain "The door opens." (Some ongoing)))))
    by (vm_compute; discriminate).
  destruct (stale_response_is_discarded infer0
              (fst (handleChoiceClick
                      app0 (mkChoice "Begin the adventure." None None) 1 "1")))
    as (Hdrop & _ & Hfence).
  split; [exact Hsteps|]. split; [exact Hne|]. split.
  - exact (proj1 (Hfence _ env0 env0 two_more
                         (plain "The door opens." (Some ongoing)) Hsteps)).
  - exact (proj1 (Hdrop env0 _ _ two_more Hne)).
Defined.

(** *** Max-HP recomputation *)


(** Whenever the effect yields a state, its maximum is
    [100 + 10 * floor((CON - 10) / 2)]. *)
Lemma recalcMaxHp_maxHp con prev next :
  recalcMaxHp con prev = Some next ->
  maxHp next = 100 + 10 * ((con - 10) / 2).
Proof.
  unfold recalcMaxHp, getMod, BASE_HP. cbv zeta.
  replace (100 + (con - 10) / 2 * 10) with (100 + 10 * ((con - 10) / 2))
    by apply f_equal, Z.mul_comm.
  destruct (Z.eqb_spec (maxHp prev) (100 + 10 * ((con - 10) / 2))) as [E|E];
    cbn [negb].
  - intros [= <-]. exact E.
  - destruct (rescaledHp _ _ _); [|discriminate]. intros [= <-]. reflexivity.
Qed.







(** *** Derived stats, the check and its risk *)

Lemma add_axis_get (b : PartialStats) (c : CharacterStats) (k' k : StatType) :
  stat_get (add_axis b c k') k
  = stat_get c k + (if StatType_eqb k k' then partial_get_or b k' 0 else 0).
Proof.
  unfold add_axis, partial_get_or.
  destruct (partial_get b k') as [v|]; [destruct (Z.eqb_spec v 0)|];
    destruct k, k'; cbn; lia.
Qed.

Lemma applyBonus_get (c : CharacterStats) (b : option PartialStats)
      (k : StatType) :
  stat_get (applyBonus c b) k = stat_get c k + bonus_of b k.
Proof.
  destruct b as [p|]; cbn [applyBonus bonus_of]; [|lia].
  cbn [fold_left]. rewrite !add_axis_get. destruct k; cbn [StatType_eqb]; lia.
Qed.

Lemma effects_get (effects : list StatusEffect) (c : CharacterStats)
      (k : StatType) :
  stat_get (fold_left (fun c e => applyBonus c (eff_statModifiers e))
                      effects c) k
  = stat_get c k
    + sum_Z (map (fun e => bonus_of (eff_statModifiers e) k) effects).
Proof.
  revert c. induction effects as [|e effects IH]; intros c;
    cbn [fold_left map sum_Z]; [lia|].
  rewrite IH, applyBonus_get. lia.
Qed.

Lemma calculateStats_get baseStats eq effects extraItem k :
  stat_get (calculateStats baseStats eq effects extraItem) k
  = stat_get baseStats k
    + (if slot_is (match extraItem with
                   | Some x => slot_of (item_type x)
                   | None => None
                   end) weapon
       then 0 else bonus_of (slot_bonuses (g_weapon eq)) k)
    + (if slot_is (match extraItem with
                   | Some x => slot_of (item_type x)
                   | None => None
                   end) armor
       then 0 else bonus_of (slot_bonuses (g_armor eq)) k)
    + (if slot_is (match extraItem with
                   | Some x => slot_of (item_type x)
                   | None => None
                   end) accessory
       then 0 else bonus_of (slot_bonuses (g_accessory eq)) k)
    + match extraItem with
      | Some x => bonus_of (item_bonuses x) k
      | None => 0
      end
    + sum_Z (map (fun e => bonus_of (eff_statModifiers e) k) effects).
Proof.
  unfold calculateStats. cbv zeta. rewrite effects_get.
  destruct extraItem as [x|]; [rewrite applyBonus_get|];
    repeat match goal with
           | |- context [if ?b then _ else _] => destruct b
           end;
    rewrite ?applyBonus_get; lia.
Qed.

Lemma stats_ext (s t : CharacterStats) :
  (forall k, stat_get s k = stat_get t k) -> s = t.
Proof.
  intros H. destruct s, t.
  pose proof (H STR). pose proof (H DEX). pose proof (H CON).
  pose proof (H INT). pose proof (H CHA). pose proof (H PER).
  pose proof (H LUK). cbn in *. congruence.
Qed.

(** X1. The derived value of a stat is its base value plus what the
    weapon, the armor, the accessory and every active effect give to that
    stat, an absent or zero bonus counting as 0. *)
Theorem derived_stats_are_sums (g : GameState) (k : StatType) :
  stat_get (currentStats g) k
  = stat_get (stats g) k
    + bonus_of (slot_bonuses (g_weapon (equipped g))) k
    + bonus_of (slot_bonuses (g_armor (equipped g))) k
    + bonus_of (slot_bonuses (g_accessory (equipped g))) k
    + sum_Z (map (fun e => bonus_of (eff_statModifiers e) k)
                 (activeEffects g)).
Proof.
  unfold currentStats. rewrite calculateStats_get. cbn [slot_is]. lia.
Qed.

(** X2. The stats previewed while an item is hovered are the stats
    the character has after equipping it: the item takes the place of what
    its slot holds, and an item that fits no slot changes nothing. *)
Theorem preview_is_stats_after_equip (g : GameState) (x : InventoryItem) :
  Render.previewStats g (Some x) = currentStats (handleEquip x g).
Proof.
  apply stats_ext. intros k. unfold Render.previewStats, handleEquip.
  destruct (item_type x) eqn:T; cbn [slot_of]; try reflexivity;
    unfold currentStats; cbn [stats equipped activeEffects with_equipped
                              with_inventory];
    rewrite !calculateStats_get, T;
    cbn [slot_of slot_is ItemType_eqb set_slot g_weapon g_armor g_accessory
         slot_bonuses]; lia.
Qed.

Lemma length_filter_cons {A : Type} (f : A -> bool) (x : A) (l : list A) :
  Z.of_nat (List.length (filter f (x :: l)))
  = (if f x then 1 else 0) + Z.of_nat (List.length (filter f l)).
Proof. cbn [filter]. destruct (f x); cbn [List.length]; lia. Qed.

Lemma count_faces (t : Z) :
  Z.of_nat (List.length (filter (fun d => t <=? d) d20)) = clamp (21 - t) 0 20.
Proof.
  unfold d20, clamp. rewrite !length_filter_cons. cbn [filter List.length].
  repeat match goal with
         | |- context [t <=? ?d] =>
             destruct (Z.leb_spec t d); try (exfalso; lia)
         end;
    lia.
Qed.

(** X3. The check of [handleChoiceClick] succeeds exactly on the
    faces from the target roll [difficulty - modifier] upwards, so the number
    of winning faces of the twenty is 21 minus the target roll, held between 0
    and 20. *)
Theorem check_wins_from_target_roll (g : GameState) (statType : StatType)
        (difficulty : Z) :
  let targetRoll :=
    difficulty - getMod (stat_get (currentStats g) statType) in
  winning_faces g statType difficulty
  = filter (fun rollBase => targetRoll <=? rollBase) d20
  /\ Z.of_nat (List.length (winning_faces g statType difficulty))
     = clamp (21 - targetRoll) 0 20.
Proof.
  cbv zeta.
  assert (E : winning_faces g statType difficulty
              = filter (fun rollBase =>
                          difficulty
                          - getMod (stat_get (currentStats g) statType)
                          <=? rollBase) d20).
  { unfold winning_faces. apply filter_ext. intros d.
    unfold roll_check. cbn [roll_isSuccess].
    destruct (Z.leb_spec difficulty
                (d + getMod (stat_get (currentStats g) statType)));
      symmetry; [apply Z.leb_le|apply Z.leb_gt]; lia. }
  split; [exact E|]. rewrite E. apply count_faces.
Qed.

Lemma risk_of_target (difficulty statVal : Z) :
  Render.getRiskAssessment difficulty statVal
  = Render.mkRisk
      (Render.risk_chance
         (Render.getRiskAssessment (difficulty - getMod statVal) 10))
      (Render.risk_label
         (Render.getRiskAssessment (difficulty - getMod statVal) 10))
      (getMod statVal).
Proof.
  unfold Render.getRiskAssessment. cbv zeta.
  cbn [Render.risk_chance Render.risk_label].
  change (getMod 10) with 0. rewrite Z.sub_0_r. reflexivity.
Qed.

Lemma risk_table :
  forallb risk_ok (targets (-200) 401) = true.
Proof. vm_compute. reflexivity. Qed.

Lemma targets_In (lo : Z) (n : nat) (t : Z) :
  lo <= t < lo + Z.of_nat n -> In t (targets lo n).
Proof.
  revert lo. induction n as [|n IH]; intros lo H; [lia|].
  cbn [targets]. destruct (Z.eq_dec lo t) as [E|E]; [left; exact E|].
  right. apply IH. lia.
Qed.

(** X4. For target rolls from -200 to 200, [getRiskAssessment] returns
    the modifier of the stat, labels the choice [Dangerous] from target roll
    15 on, [Risky] from 9 to 14 and [Likely Success] below, and its chance is
    5 per winning face held between 5 and 95, but for target roll 10, where
    the binary64 product is the double next above 55. *)
Theorem risk_assessment_tiers (difficulty statVal : Z) :
  let targetRoll := difficulty - getMod statVal in
  let r := Render.getRiskAssessment difficulty statVal in
  -200 <= targetRoll <= 200 ->
  Render.risk_mod r = getMod statVal
  /\ PrimFloat.eqb (Render.risk_chance r)
                   (if targetRoll =? 10
                    then PrimFloat.next_up (JS.float_of_Z 55)
                    else JS.float_of_Z (nominal_chance targetRoll)) = true
  /\ Render.risk_label r
     = if 15 <=? targetRoll then "Dangerous"%string
       else if 9 <=? targetRoll then "Risky"%string
       else "Likely Success"%string.
Proof.
  cbv zeta. intros H. rewrite risk_of_target.
  cbn [Render.risk_mod Render.risk_chance Render.risk_label].
  assert (Hin : In (difficulty - getMod statVal) (targets (-200) 401))
    by (apply targets_In; lia).
  pose proof (proj1 (forallb_forall _ _) risk_table _ Hin) as T.
  unfold risk_ok in T. cbv zeta in T.
  apply andb_true_iff in T as [T1 T2]. apply String.eqb_eq in T2.
  split; [reflexivity|]. split; assumption.
Qed.

Lemma risk_assessment_tiers_witness :
  -200 <= 12 - getMod 14 <= 200
  /\ Render.risk_label (Render.getRiskAssessment 12 14) = "Risky"%string.
Proof.
  split; [vm_compute; split; discriminate|].
  apply (risk_assessment_tiers 12 14). vm_compute. split; discriminate.
Defined.

(** *** Equipment handlers *)

Lemma distinct_NoDup (l : list string) : distinct l = true <-> NoDup l.
Proof.
  induction l as [|x l IH]; cbn [distinct].
  - split; [constructor|reflexivity].
  - rewrite andb_true_iff, negb_true_iff, IH. split.
    + intros [Hx Hl]. constructor; [|assumption].
      intros Hin. apply mem_In in Hin. congruence.
    + intros H. inversion H as [|? ? Hx Hl]. subst. split; [|assumption].
      destruct (JS.mem x l) eqn:E; [|reflexivity].
      apply mem_In in E. contradiction.
Qed.

Lemma filter_length_lt {A : Type} (f : A -> bool) (l : list A) (x : A) :
  In x l -> f x = false -> (List.length (filter f l) < List.length l)%nat.
Proof.
  induction l as [|y l IH]; intros Hin Hx; [contradiction|].
  cbn [filter List.length]. pose proof (filter_length_le f l).
  destruct Hin as [->|Hin].
  - rewrite Hx. lia.
  - specialize (IH Hin Hx). destruct (f y); cbn [List.length]; lia.
Qed.

Lemma other_id_self (item : InventoryItem) : other_id item item = false.
Proof. unfold other_id. rewrite String.eqb_refl. reflexivity. Qed.

Lemma other_id_true (item i : InventoryItem) :
  other_id item i = true <-> item_id i <> item_id item.
Proof.
  unfold other_id. rewrite negb_true_iff. apply String.eqb_neq.
Qed.

Lemma handleEquip_slot (item : InventoryItem) (g : GameState) (slot : ItemType) :
  slot_of (item_type item) = Some slot ->
  handleEquip item g
  = with_equipped
      (with_inventory g
         (filter (other_id item) (inventory g)
          ++ present (mkGear (get_slot (equipped g) slot) None None)))
      (set_slot (equipped g) slot (Some item)).
Proof.
  intros E. unfold handleEquip. rewrite E. cbv zeta.
  fold (other_id item).
  destruct (get_slot (equipped g) slot); cbn [present flat_map g_weapon
    g_armor g_accessory app]; rewrite ?app_nil_r; reflexivity.
Qed.

Lemma NoDup_map_eq {A B : Type} (f : A -> B) (l : list A) (x y : A) :
  NoDup (map f l) -> In x l -> In y l -> f x = f y -> x = y.
Proof.
  induction l as [|z l IH]; intros Hnd Hx Hy E; [contradiction|].
  cbn [map] in Hnd. inversion Hnd as [|? ? Hz Hl]. subst.
  destruct Hx as [->|Hx], Hy as [->|Hy].
  - reflexivity.
  - exfalso. apply Hz. rewrite E. apply in_map. assumption.
  - exfalso. apply Hz. rewrite <- E. apply in_map. assumption.
  - apply IH; assumption.
Qed.

Lemma NoDup_map_filter {A B : Type} (f : A -> B) (p : A -> bool)
      (l1 l2 : list A) :
  NoDup (map f (l1 ++ l2)) -> NoDup (map f (filter p l1 ++ l2)).
Proof.
  induction l1 as [|z l1 IH]; intros Hnd; [exact Hnd|].
  cbn [app map] in Hnd. inversion Hnd as [|? ? Hz Hl]. subst.
  cbn [filter]. destruct (p z); [|apply IH; assumption].
  cbn [app map]. constructor; [|apply IH; assumption].
  intros Hin. apply Hz. rewrite map_app, in_app_iff in *.
  destruct Hin as [Hin|Hin]; [left|right; assumption].
  apply in_map_iff in Hin as (y & <- & Hy). apply in_map.
  apply filter_In in Hy. tauto.
Qed.

Lemma sound_items_iff (g : GameState) :
  sound_items g = true
  <-> (List.length (inventory g) <= 8)%nat
      /\ slot_matches (g_weapon (equipped g)) weapon = true
      /\ slot_matches (g_armor (equipped g)) armor = true
      /\ slot_matches (g_accessory (equipped g)) accessory = true
      /\ NoDup (map item_id (held g)).
Proof.
  unfold sound_items. rewrite !andb_true_iff, distinct_NoDup, Z.leb_le.
  split; intros H; repeat split; try tauto; lia.
Qed.

Lemma slot_of_type (t slot : ItemType) : slot_of t = Some slot -> t = slot.
Proof. destruct t; cbn; congruence. Qed.

Lemma held_equip (item : InventoryItem) (g : GameState) (slot : ItemType) :
  NoDup (map item_id (held g)) -> In item (inventory g) ->
  slot_of (item_type item) = Some slot ->
  (forall i, In i (held (handleEquip item g)) <-> In i (held g))
  /\ List.length (held (handleEquip item g)) = List.length (held g).
Proof.
  intros Hnd Hin Hslot.
  assert (Hsame : forall i, In i (held g) -> item_id i = item_id item ->
                            i = item).
  { intros i Hi E. apply (NoDup_map_eq item_id (held g)); auto.
    unfold held. apply in_app_iff. left. assumption. }
  assert (Hlen : S (List.length (filter (other_id item) (inventory g)))
                 = List.length (inventory g)).
  { unfold held in Hnd, Hsame. clear Hslot.
    assert (Hnd' : NoDup (map item_id (inventory g))).
    { rewrite map_app in Hnd. apply NoDup_app_remove_r in Hnd. assumption. }
    assert (Hsame' : forall i, In i (inventory g) ->
                               item_id i = item_id item -> i = item).
    { intros i Hi. apply Hsame, in_app_iff. left. assumption. }
    clear Hnd Hsame.
    induction (inventory g) as [|y l IH]; [contradiction|].
    cbn [map] in Hnd'. inversion Hnd' as [|? ? Hy Hl]. subst.
    cbn [filter List.length]. destruct Hin as [->|Hin].
    - rewrite other_id_self. f_equal.
      rewrite filter_all; [reflexivity|]. apply forallb_forall.
      intros i Hi. apply other_id_true. intros E. apply Hy. rewrite <- E.
      apply in_map. assumption.
    - destruct (other_id item y) eqn:Ey.
      + cbn [List.length]. f_equal. apply IH; auto.
        intros i Hi. apply Hsame'. right. assumption.
      + exfalso. unfold other_id in Ey. apply negb_false_iff in Ey.
        apply String.eqb_eq in Ey.
        assert (y = item) by (apply Hsame'; [left; reflexivity|exact Ey]).
        subst. apply Hy. apply in_map. assumption. }
  assert (Hmisc : slot <> misc)
    by (destruct (item_type item); cbn in Hslot; congruence).
  rewrite (handleEquip_slot _ _ _ Hslot). unfold held in *.
  cbn [inventory equipped with_equipped with_inventory].
  split.
  - intros i. rewrite !in_app_iff, filter_In, other_id_true.
    destruct (equipped g) as [w a c].
    assert (Hi : item_id i = item_id item \/ item_id i <> item_id item).
    { destruct (String.eqb_spec (item_id i) (item_id item)); tauto. }
    specialize (Hsame i). rewrite in_app_iff in Hsame.
    destruct slot, w as [w|], a as [a|], c as [c|];
      cbn [get_slot set_slot present flat_map g_weapon g_armor g_accessory
           app In] in *;
      try congruence;
      (split; [intros H; intuition (subst; auto)|]);
      intros H; destruct Hi as [Hi|Hi];
      try (assert (i = item) by (apply Hsame; tauto); subst; tauto);
      tauto.
  - rewrite !length_app, <- Hlen.
    destruct (equipped g) as [w a c].
    destruct slot, w as [w|], a as [a|], c as [c|];
      cbn [get_slot set_slot present flat_map g_weapon g_armor g_accessory
           app List.length] in *;
      try congruence; lia.
Qed.

Lemma NoDup_map_app_apart {A B : Type} (f : A -> B) (l1 l2 : list A)
      (x y : A) :
  NoDup (map f (l1 ++ l2)) -> In x l1 -> In y l2 -> f x <> f y.
Proof.
  induction l1 as [|z l1 IH]; intros Hnd Hx Hy E; [contradiction|].
  cbn [app map] in Hnd. inversion Hnd as [|? ? Hz Hl]. subst.
  destruct Hx as [->|Hx]; [|exact (IH Hl Hx Hy E)].
  apply Hz. rewrite E. apply in_map, in_app_iff. right. assumption.
Qed.

Lemma get_slot_present (e : EquippedGear) (slot : ItemType)
      (i : InventoryItem) :
  get_slot e slot = Some i -> In i (present e).
Proof.
  destruct e as [w a c].
  destruct slot, w as [w|], a as [a|], c as [c|];
    cbn [get_slot present flat_map g_weapon g_armor g_accessory app In];
    intros E; inversion E; subst; tauto.
Qed.

Lemma handleEquip_sound (item : InventoryItem) (g : GameState) :
  sound_items g = true -> In item (inventory g) ->
  sound_items (handleEquip item g) = true.
Proof.
  intros Hs Hin.
  destruct (slot_of (item_type item)) as [slot|] eqn:Hslot;
    [|unfold handleEquip; rewrite Hslot; exact Hs].
  apply sound_items_iff in Hs as (Hlen & Hw & Ha & Hc & Hnd).
  destruct (held_equip item g _ Hnd Hin Hslot) as [Hheld Hcount].
  apply slot_of_type in Hslot as T.
  apply sound_items_iff. rewrite (handleEquip_slot _ _ _ Hslot) in *.
  cbn [inventory equipped with_equipped with_inventory] in *.
  split; [|split; [|split; [|split]]].
  - rewrite length_app.
    pose proof (filter_length_lt (other_id item) (inventory g) item Hin
                                 (other_id_self item)).
    destruct (get_slot (equipped g) slot);
      cbn [present flat_map g_weapon g_armor g_accessory app List.length];
      lia.
  - destruct (equipped g) as [w a c]. subst slot.
    destruct (item_type item) eqn:T;
      cbn [set_slot g_weapon slot_matches]; try assumption.
    rewrite T. reflexivity.
  - destruct (equipped g) as [w a c]. subst slot.
    destruct (item_type item) eqn:T;
      cbn [set_slot g_armor slot_matches]; try assumption.
    rewrite T. reflexivity.
  - destruct (equipped g) as [w a c]. subst slot.
    destruct (item_type item) eqn:T;
      cbn [set_slot g_accessory slot_matches]; try assumption.
    rewrite T. reflexivity.
  - apply (NoDup_incl_NoDup Hnd).
    + rewrite !length_map. lia.
    + intros x Hx. apply in_map_iff in Hx as (i & <- & Hi).
      apply in_map. apply Hheld. assumption.
Qed.

(** X5. Equipping an item of the bag, when the items are sound (at most
    8 in the bag, slots typed, identifiers distinct), leaves them sound: the
    item is in the slot of its type and no longer in the bag, the character
    holds the same items as before and the bag has not grown. *)
Theorem equip_moves_item_to_slot (item : InventoryItem) (g : GameState) :
  let next := handleEquip item g in
  sound_items g = true -> In item (inventory g) -> item_type item <> misc ->
  sound_items next = true
  /\ get_slot (equipped next) (item_type item) = Some item
  /\ ~ In item (inventory next)
  /\ (forall i, In i (held next) <-> In i (held g))
  /\ (List.length (inventory next) <= List.length (inventory g))%nat.
Proof.
  cbv zeta. intros Hs Hin Hmisc.
  pose proof (handleEquip_sound item g Hs Hin) as Hsound.
  apply sound_items_iff in Hs as (Hlen & Hw & Ha & Hc & Hnd).
  assert (Hslot : slot_of (item_type item) = Some (item_type item))
    by (destruct (item_type item); cbn; congruence).
  destruct (held_equip item g _ Hnd Hin Hslot) as [Hheld Hcount].
  assert (Hold : forall o, get_slot (equipped g) (item_type item) = Some o ->
                           item_id item <> item_id o).
  { intros o Ho. apply (NoDup_map_app_apart item_id _ _ _ _ Hnd Hin).
    apply (get_slot_present _ _ _ Ho). }
  split; [exact Hsound|]. split; [|split; [|split]].
  - rewrite (handleEquip_slot _ _ _ Hslot).
    cbn [equipped with_equipped with_inventory].
    destruct (equipped g) as [w a c].
    destruct (item_type item); cbn [get_slot set_slot g_weapon g_armor
                                    g_accessory]; congruence.
  - rewrite (handleEquip_slot _ _ _ Hslot).
    cbn [inventory with_equipped with_inventory].
    rewrite in_app_iff, filter_In, other_id_self. intros [[_ H]|H].
    + discriminate.
    + destruct (get_slot (equipped g) (item_type item)) as [o|] eqn:Eo;
        cbn [present flat_map g_weapon g_armor g_accessory app In] in H.
      * destruct H as [->|[]]. apply (Hold item); reflexivity.
      * contradiction.
  - exact Hheld.
  - rewrite (handleEquip_slot _ _ _ Hslot).
    cbn [inventory with_equipped with_inventory]. rewrite length_app.
    pose proof (filter_length_lt (other_id item) (inventory g) item Hin
                                 (other_id_self item)).
    destruct (get_slot (equipped g) (item_type item));
      cbn [present flat_map g_weapon g_armor g_accessory app List.length];
      lia.
Qed.

Lemma equip_moves_item_to_slot_witness :
  sound_items packed = true /\ In ring (inventory packed)
  /\ item_type ring <> misc
  /\ get_slot (equipped (handleEquip ring packed)) (item_type ring)
     = Some ring.
Proof.
  assert (Hs : sound_items packed = true) by (vm_compute; reflexivity).
  assert (Hin : In ring (inventory packed))
    by (right; left; reflexivity).
  assert (Hm : item_type ring <> misc) by discriminate.
  split; [exact Hs|]. split; [exact Hin|]. split; [exact Hm|].
  exact (proj1 (proj2 (equip_moves_item_to_slot ring packed Hs Hin Hm))).
Defined.

Lemma handleUnequip_cases (item : InventoryItem) (g : GameState) :
  handleUnequip item g = g
  \/ exists slot cur,
       (List.length (inventory g) < 8)%nat
       /\ slot_of (item_type item) = Some slot
       /\ get_slot (equipped g) slot = Some cur
       /\ item_id cur = item_id item
       /\ handleUnequip item g
          = with_inventory
              (with_equipped g (set_slot (equipped g) slot None))
              (inventory g ++ [item]).
Proof.
  unfold handleUnequip.
  destruct (Z.leb_spec 8 (Z.of_nat (List.length (inventory g))));
    [left; reflexivity|].
  destruct (slot_of (item_type item)) as [slot|] eqn:Es; [|left; reflexivity].
  destruct (get_slot (equipped g) slot) as [cur|] eqn:Ec;
    [|left; reflexivity].
  destruct (String.eqb_spec (item_id cur) (item_id item));
    [|left; reflexivity].
  right. exists slot, cur. repeat split; try assumption. lia.
Qed.

Lemma handleUnequip_sound (item : InventoryItem) (g : GameState) :
  sound_items g = true -> sound_items (handleUnequip item g) = true.
Proof.
  intros Hs. pose proof Hs as Hs0.
  apply sound_items_iff in Hs as (Hlen & Hw & Ha & Hc & Hnd).
  destruct (handleUnequip_cases item g)
    as [->|(slot & cur & Hlt & Hslot & Hcur & Hid & ->)]; [exact Hs0|].
  apply sound_items_iff.
  cbn [inventory equipped with_equipped with_inventory].
  rewrite length_app. cbn [List.length].
  split; [lia|]. unfold held in *.
  cbn [inventory equipped with_equipped with_inventory].
  destruct (equipped g) as [w a c].
  assert (Hmisc : slot <> misc)
    by (destruct (item_type item); cbn in Hslot; congruence).
  cbn [g_weapon g_armor g_accessory] in Hw, Ha, Hc.
  split; [|split; [|split]];
    try (destruct slot; cbn [set_slot g_weapon g_armor g_accessory
                             slot_matches];
         solve [assumption|reflexivity|congruence]).
  apply (NoDup_incl_NoDup Hnd).
  + rewrite !length_map, !length_app. cbn [List.length].
    destruct slot, w as [w|], a as [a|], c as [c|];
      cbn [get_slot set_slot present flat_map g_weapon g_armor
           g_accessory app List.length] in *;
      try congruence; lia.
  + intros x Hx. apply in_map_iff in Hx as (i & <- & Hi).
    rewrite !map_app, !in_app_iff in *. cbn [map In].
    destruct Hi as [Hi|Hi]; [left; left; apply in_map; assumption|].
    destruct slot, w as [w|], a as [a|], c as [c|];
      cbn [get_slot set_slot present flat_map g_weapon g_armor
           g_accessory app In map] in *;
      try congruence;
      inversion Hcur; subst;
      intuition (subst; auto).
Qed.

(** X6. Unequipping and discarding keep the items sound; after a
    discard no item of the bag has the discarded identifier; and unequipping
    into a bag of 8 changes nothing. *)
Theorem unequip_and_discard_keep_items_sound (item : InventoryItem)
        (g : GameState) :
  sound_items g = true ->
  sound_items (handleUnequip item g) = true
  /\ sound_items (handleDiscard item g) = true
  /\ (forall i, In i (inventory (handleDiscard item g)) ->
                item_id i <> item_id item)
  /\ (8 <= List.length (inventory g) -> handleUnequip item g = g)%nat.
Proof.
  intros Hs. pose proof Hs as Hs0.
  apply sound_items_iff in Hs as (Hlen & Hw & Ha & Hc & Hnd).
  split; [|split; [|split]].
  - apply handleUnequip_sound. exact Hs0.
  - apply sound_items_iff. unfold handleDiscard, held in *.
    cbn [inventory equipped with_equipped with_inventory].
    pose proof (filter_length_le
                  (fun i => negb (String.eqb (item_id i) (item_id item)))
                  (inventory g)).
    repeat split; try assumption; [lia|].
    apply NoDup_map_filter. assumption.
  - unfold handleDiscard. cbn [inventory with_inventory].
    intros i Hi. apply filter_In in Hi as [_ Hi].
    apply negb_true_iff, String.eqb_neq in Hi. assumption.
  - intros Hfull. unfold handleUnequip.
    destruct (Z.leb_spec 8 (Z.of_nat (List.length (inventory g))));
      [reflexivity|lia].
Qed.

Lemma unequip_and_discard_keep_items_sound_witness :
  sound_items (handleEquip ring packed) = true
  /\ sound_items (handleUnequip ring (handleEquip ring packed)) = true.
Proof.
  assert (Hs : sound_items (handleEquip ring packed) = true)
    by (vm_compute; reflexivity).
  split; [exact Hs|].
  exact (proj1 (unequip_and_discard_keep_items_sound
                  ring (handleEquip ring packed) Hs)).
Defined.

Lemma set_slot_undo (e : EquippedGear) (slot : ItemType)
      (v : option InventoryItem) :
  get_slot e slot = None -> set_slot (set_slot e slot v) slot None = e.
Proof.
  destruct e as [w a c].
  destruct slot; cbn [get_slot set_slot g_weapon g_armor g_accessory];
    congruence.
Qed.

(** X7. Unequipping an item right after equipping it from the bag into
    an empty slot restores the state, with the item moved to the end of the
    bag. *)
Theorem unequip_undoes_equip (item : InventoryItem) (g : GameState) :
  (List.length (inventory g) <= 8)%nat -> In item (inventory g) ->
  item_type item <> misc ->
  get_slot (equipped g) (item_type item) = None ->
  handleUnequip item (handleEquip item g)
  = with_inventory g (filter (other_id item) (inventory g) ++ [item]).
Proof.
  intros Hlen Hin Hmisc Hempty.
  assert (Hslot : slot_of (item_type item) = Some (item_type item))
    by (destruct (item_type item); cbn; congruence).
  rewrite (handleEquip_slot _ _ _ Hslot), Hempty.
  cbn [present flat_map g_weapon g_armor g_accessory app].
  rewrite app_nil_r.
  pose proof (filter_length_lt (other_id item) (inventory g) item Hin
                               (other_id_self item)) as Hlt.
  unfold handleUnequip.
  cbn [inventory equipped with_equipped with_inventory].
  destruct (Z.leb_spec 8 (Z.of_nat (List.length
                                      (filter (other_id item) (inventory g)))));
    [lia|].
  rewrite Hslot.
  assert (Eget : get_slot (set_slot (equipped g) (item_type item) (Some item))
                          (item_type item) = Some item).
  { destruct (equipped g) as [w a c].
    destruct (item_type item); cbn [get_slot set_slot g_weapon g_armor
                                    g_accessory]; congruence. }
  rewrite Eget, String.eqb_refl, (set_slot_undo _ _ _ Hempty).
  destruct g. reflexivity.
Qed.

Lemma unequip_undoes_equip_witness :
  (List.length (inventory packed) <= 8)%nat /\ In ring (inventory packed)
  /\ item_type ring <> misc
  /\ get_slot (equipped packed) (item_type ring) = None
  /\ inventory (handleUnequip ring (handleEquip ring packed))
     = [trinket "a" "Rope"; trinket "b" "Torch"; ring].
Proof.
  assert (Hl : (List.length (inventory packed) <= 8)%nat)
    by (vm_compute; lia).
  assert (Hin : In ring (inventory packed)) by (right; left; reflexivity).
  assert (Hm : item_type ring <> misc) by discriminate.
  assert (He : get_slot (equipped packed) (item_type ring) = None)
    by reflexivity.
  split; [exact Hl|]. split; [exact Hin|]. split; [exact Hm|].
  split; [exact He|].
  rewrite (unequip_undoes_equip ring packed Hl Hin Hm He).
  vm_compute. reflexivity.
Defined.

(** *** The turn lifecycle *)

Lemma decrement_aged (k : Z) (l : list StatusEffect) :
  decrement (map (aged k) (filter (fun e => k <? eff_duration e) l))
  = map (aged (k + 1)) (filter (fun e => k + 1 <? eff_duration e) l).
Proof.
  unfold decrement. induction l as [|e l IH]; [reflexivity|].
  cbn [filter].
  destruct (Z.ltb_spec k (eff_duration e)) as [H|H];
    destruct (Z.ltb_spec (k + 1) (eff_duration e)) as [H1|H1]; try lia;
    cbn [map filter aged eff_duration eff_id eff_name eff_description
         eff_type eff_statModifiers eff_blocksHeroicActions].
  - destruct (Z.ltb_spec 0 (eff_duration e - k - 1)); [|lia].
    rewrite IH. f_equal. unfold aged. f_equal. lia.
  - destruct (Z.ltb_spec 0 (eff_duration e - k - 1)); [lia|]. apply IH.
  - apply IH.
Qed.

Lemma decrement_once (l : list StatusEffect) :
  decrement l = map (aged 1) (filter (fun e => 1 <? eff_duration e) l).
Proof.
  unfold decrement. induction l as [|e l IH]; [reflexivity|].
  cbn [map filter eff_duration].
  destruct (Z.ltb_spec 0 (eff_duration e - 1));
    destruct (Z.ltb_spec 1 (eff_duration e)); try lia;
    rewrite IH; reflexivity.
Qed.

(** X8. After [n + 1] turns an effect is still active exactly when its
    duration was above [n + 1], with that many turns taken off its duration:
    an effect is dropped when its duration reaches 0. *)
Theorem effects_expire_with_their_duration (n : nat)
        (effects : list StatusEffect) :
  Nat.iter (S n) decrement effects
  = map (aged (Z.of_nat (S n)))
        (filter (fun e => Z.of_nat (S n) <? eff_duration e) effects).
Proof.
  induction n as [|n IH].
  - apply decrement_once.
  - change (Nat.iter (S (S n)) decrement effects)
      with (decrement (Nat.iter (S n) decrement effects)).
    rewrite IH, decrement_aged.
    replace (Z.of_nat (S n) + 1) with (Z.of_nat (S (S n))) by lia.
    reflexivity.
Qed.

(** X9. A retry after a stop replays the parameters the stopped turn
    was sent with, under the identifier two above the stopped one (the stop
    takes one); it appends no second user turn and does not decrement the
    effects again. *)
Theorem retry_replays_the_stopped_turn
        (rendered : GameState) (a : AppState) (nowStr userText : string)
        (rollResult : option RollResult) (customAction : option CustomAction)
        (levelUpEvent : option LevelUpEvent)
        (overrideArc : option MainStoryArc) :
  let issued := processTurn rendered a nowStr userText rollResult
                            customAction levelUpEvent overrideArc in
  let params := mkParams userText rollResult customAction overrideArc
                         (decrement (activeEffects rendered)) in
  let stopped := handleStopRequest (fst issued) in
  let retried := handleRetryRequest stopped in
  snd issued = [CallAI (requestIdRef a + 1) params]
  /\ snd retried = [CallAI (requestIdRef a + 3) params]
  /\ history (gameState (fst retried)) = history (gameState (fst issued))
  /\ activeEffects (gameState (fst retried))
     = decrement (activeEffects rendered)
  /\ (isLoading (gameState stopped), showRetry stopped) = (false, true)
  /\ (isLoading (gameState (fst retried)), showRetry (fst retried))
     = (true, false).
Proof.
  cbv zeta. unfold processTurn, handleStopRequest, handleRetryRequest,
    generateAndProcessAIResponse. cbv zeta.
  cbn [fst snd lastTurnParams with_lastTurnParams with_gameState
       with_requestIdRef with_showRetry with_isLoading gameState
       requestIdRef showRetry enableDiceRolls currentChoices pendingChoice
       pendingRoll begin_turn history activeEffects isLoading].
  split; [reflexivity|]. split.
  - do 2 f_equal. lia.
  - repeat split.
Qed.

Lemma processTurn_shape rendered a nowStr userText rollResult customAction
      levelUpEvent overrideArc :
  let out := processTurn rendered a nowStr userText rollResult customAction
                         levelUpEvent overrideArc in
  let params := mkParams userText rollResult customAction overrideArc
                         (decrement (activeEffects rendered)) in
  snd out = [CallAI (requestIdRef a + 1) params]
  /\ requestIdRef (fst out) = requestIdRef a + 1
  /\ lastTurnParams (fst out) = Some params
  /\ history (gameState (fst out))
     = history (gameState a)
       ++ [mkTurn (nowStr ++ "-user") (remove_asterisks userText) (Some [])
                  true rollResult levelUpEvent None None None None None]
  /\ isLoading (gameState (fst out)) = true
  /\ activeEffects (gameState (fst out))
     = decrement (activeEffects rendered).
Proof. cbv zeta. repeat split. Qed.

(** X10. A click on a choice while the component is loading or rolling
    changes nothing and sends nothing; otherwise it sends exactly one request,
    under the next identifier, appends one user turn with the text of the
    choice (asterisks removed), decrements the effects once and stores the
    parameters for a retry. *)
Theorem choice_click_issues_one_turn (a : AppState) (choice : ChoiceData)
        (rollBase : Z) (nowStr : string) :
  let out := handleChoiceClick a choice rollBase nowStr in
  (idle a = false -> out = (a, []))
  /\ (idle a = true ->
      exists params userTurn,
        snd out = [CallAI (requestIdRef a + 1) params]
        /\ requestIdRef (fst out) = requestIdRef a + 1
        /\ lastTurnParams (fst out) = Some params
        /\ tp_userText params = choice_text choice
        /\ tp_decrementedEffects params
           = decrement (activeEffects (gameState a))
        /\ history (gameState (fst out))
           = history (gameState a) ++ [userTurn]
        /\ turn_isUserTurn userTurn = true
        /\ turn_text userTurn = remove_asterisks (choice_text choice)
        /\ isLoading (gameState (fst out)) = true
        /\ activeEffects (gameState (fst out))
           = decrement (activeEffects (gameState a))).
Proof.
  cbv zeta. unfold idle, handleChoiceClick. cbv zeta.
  destruct (isLoading (gameState a) || isRolling (gameState a)).
  - split; [reflexivity|discriminate].
  - split; [discriminate|]. intros _.
    destruct (enableDiceRolls a), (choice_difficulty choice) as [d|],
      (choice_type choice) as [t|];
      try solve [eexists; eexists; repeat split].
    destruct (d =? 0); [solve [eexists; eexists; repeat split]|].
    destruct (roll_update _ t (gameState a)) as [g' ev] eqn:E.
    match goal with
    | |- context [processTurn ?r ?a1 ?n ?u ?rr ?ca ?lv ?arc] =>
        destruct (processTurn_shape r a1 n u rr ca lv arc)
          as (H1 & H2 & H3 & H4 & H5 & H6)
    end.
    cbn [requestIdRef gameState with_pending with_gameState] in H1, H2, H4.
    assert (Hh : history g' = history (gameState a)).
    { unfold roll_update in E.
      destruct (roll_isSuccess _); [destruct (EXP_THRESHOLD <=? _)|];
        inversion E; subst; reflexivity. }
    rewrite Hh in H4.
    eexists; eexists.
    split; [exact H1|]. split; [exact H2|]. split; [exact H3|].
    split; [reflexivity|]. split; [reflexivity|].
    split; [exact H4|].
    split; [reflexivity|]. split; [reflexivity|].
    split; [exact H5|exact H6].
Qed.

Lemma mapi_from_length {A B : Type} (f : nat -> A -> B) (k : nat)
      (xs : list A) :
  List.length (mapi_from f k xs) = List.length xs.
Proof.
  revert k. induction xs as [|x xs IH]; intros k; cbn [mapi_from List.length];
    [reflexivity|]. rewrite IH. reflexivity.
Qed.

Lemma mapi_from_nth {A B : Type} (f : nat -> A -> B) (k n : nat)
      (xs : list A) :
  nth_error (mapi_from f k xs) n
  = option_map (f (k + n)%nat) (nth_error xs n).
Proof.
  revert k n. induction xs as [|x xs IH]; intros k [|n];
    cbn [mapi_from nth_error option_map]; try reflexivity.
  - rewrite Nat.add_0_r. reflexivity.
  - rewrite IH. replace (S k + n)%nat with (k + S n)%nat by lia. reflexivity.
Qed.

Lemma mapi_from_In {A B : Type} (f : nat -> A -> B) (k : nat) (xs : list A)
      (y : B) :
  In y (mapi_from f k xs) -> exists n x, In x xs /\ y = f n x.
Proof.
  revert k. induction xs as [|x xs IH]; intros k H; [contradiction|].
  cbn [mapi_from] in H. destruct H as [<-|H].
  - exists k, x. split; [left; reflexivity|reflexivity].
  - destruct (IH _ H) as (n & x' & Hx & ->).
    exists n, x'. split; [right; assumption|reflexivity].
Qed.

(** X11. Sanitizing keeps the number, the order and the text of the
    choices; a choice keeps the type and the difficulty it came with, gets the
    inferred type when it had none, and gets the difficulty 8 plus the draw
    when it has a type and no difficulty: every choice with a type has a
    difficulty. *)
Theorem sanitized_choices_can_be_rolled
        (inferStatFromText : string -> option StatType) (env : Entropy)
        (r : AIStoryResponse) (k : nat) (c : ChoiceData) :
  nth_error (or_nil (choices r)) k = Some c ->
  exists c',
    nth_error (or_nil (choices (sanitize inferStatFromText env r))) k
    = Some c'
    /\ List.length (or_nil (choices (sanitize inferStatFromText env r)))
       = List.length (or_nil (choices r))
    /\ choice_text c' = choice_text c
    /\ choice_type c'
       = match choice_type c with
         | Some t => Some t
         | None => inferStatFromText (choice_text c)
         end
    /\ choice_difficulty c'
       = match choice_difficulty c, choice_type c' with
         | Some d, _ => Some d
         | None, Some _ => Some (8 + difficulty_draws env k)
         | None, None => None
         end
    /\ (choice_type c' <> None -> choice_difficulty c' <> None).
Proof.
  intros Hc. unfold sanitize. cbn [choices].
  destruct (choices r) as [cs|]; cbn [or_nil] in *;
    [|destruct k; discriminate].
  exists (sanitize_choice inferStatFromText env k c).
  rewrite mapi_from_nth, Hc, mapi_from_length. cbn [option_map Nat.add].
  unfold sanitize_choice. cbv zeta.
  cbn [choice_text choice_type choice_difficulty].
  repeat split.
  - destruct (choice_type c), (choice_difficulty c); try reflexivity;
      destruct (inferStatFromText (choice_text c)); reflexivity.
  - destruct (choice_type c), (choice_difficulty c); try discriminate;
      destruct (inferStatFromText (choice_text c)); try discriminate;
      intros H; congruence.
Qed.

Lemma sanitized_choices_can_be_rolled_witness :
  nth_error (or_nil (choices door)) 0 = Some kick
  /\ exists c',
       nth_error (or_nil (choices (sanitize infer0 env0 door))) 0 = Some c'
       /\ choice_difficulty c' = Some 8.
Proof.
  assert (H : nth_error (or_nil (choices door)) 0 = Some kick)
    by reflexivity.
  split; [exact H|].
  destruct (sanitized_choices_can_be_rolled infer0 env0 door 0 kick H)
    as (c' & H1 & _ & _ & H4 & H5 & _).
  exists c'. split; [exact H1|]. rewrite H5, H4. reflexivity.
Defined.

(** *** More of the reducer *)

Lemma StatType_eqb_spec (a b : StatType) : reflect (a = b) (StatType_eqb a b).
Proof. destruct a, b; constructor; congruence. Qed.

Lemma partial_keys_In (p : PartialStats) (k : StatType) :
  In k (partial_keys p) <-> partial_get p k <> None.
Proof.
  induction p as [|[k' v] p IH]; cbn [partial_keys partial_get].
  - split; [contradiction|congruence].
  - cbn [In]. rewrite filter_In, IH.
    destruct (StatType_eqb_spec k k') as [->|N].
    + split; [discriminate|]. left. reflexivity.
    + split.
      * intros [E|[H _]]; [congruence|assumption].
      * intros H. right. split; [assumption|].
        destruct (StatType_eqb_spec k k'); [contradiction|reflexivity].
Qed.

Lemma partial_keys_NoDup (p : PartialStats) : NoDup (partial_keys p).
Proof.
  induction p as [|[k' v] p IH]; cbn [partial_keys]; constructor.
  - rewrite filter_In. intros [_ H].
    destruct (StatType_eqb_spec k' k'); [discriminate|congruence].
  - apply NoDup_filter. assumption.
Qed.

Lemma apply_stat_update_get su s f key k :
  stat_get (fst (apply_stat_update su (s, f) key)) k
  = stat_get s k
    + (if StatType_eqb k key then clamp (partial_get_or su key 0) (-2) 5
       else 0).
Proof.
  unfold apply_stat_update, clamp. cbv zeta.
  set (v := partial_get_or su key 0).
  destruct (Z.ltb_spec 5 v);
    match goal with |- context [?a <? -2] => destruct (Z.ltb_spec a (-2)) end;
    try lia;
    match goal with |- context [?a =? 0] => destruct (Z.eqb_spec a 0) end;
    cbn [negb fst];
    destruct (StatType_eqb_spec k key) as [->|N];
    rewrite ?stat_get_set_same; try lia;
    rewrite ?stat_get_set_other by congruence; lia.
Qed.

Lemma fold_stat_update_get su (ks : list StatType) acc k :
  NoDup ks ->
  stat_get (fst (fold_left (apply_stat_update su) ks acc)) k
  = stat_get (fst acc) k
    + (if existsb (StatType_eqb k) ks
       then clamp (partial_get_or su k 0) (-2) 5 else 0).
Proof.
  revert acc. induction ks as [|key ks IH]; intros [s f] Hnd;
    cbn [fold_left existsb fst]; [lia|].
  inversion Hnd as [|? ? Hkey Hks]. subst.
  rewrite (IH _ Hks).
  destruct (apply_stat_update su (s, f) key) as [s' f'] eqn:E.
  pose proof (apply_stat_update_get su s f key k) as G.
  rewrite E in G. cbn [fst] in *. rewrite G.
  destruct (StatType_eqb_spec k key) as [->|N]; cbn [orb]; [|lia].
  destruct (existsb (StatType_eqb key) ks) eqn:Ex; [|lia].
  exfalso. apply Hkey. apply existsb_exists in Ex as (x & Hx & Ex).
  destruct (StatType_eqb_spec key x); [subst; assumption|discriminate].
Qed.

Lemma stats_after_update_get prev r k :
  stat_get (fst (stats_after_update prev r)) k
  = stat_get (stats prev) k + stat_delta r k.
Proof.
  unfold stats_after_update, stat_delta.
  destruct (stats_update r) as [su|]; cbn [fst]; [|lia].
  pose proof (fold_stat_update_get su (partial_keys su) (stats prev, []) k
                (partial_keys_NoDup su)) as G.
  destruct (fold_left _ _ _) as [s f]. cbn [fst] in *. rewrite G.
  destruct (existsb (StatType_eqb k) (partial_keys su)) eqn:Ex;
    [reflexivity|].
  assert (Hk : partial_get su k = None).
  { destruct (partial_get su k) eqn:Ek; [|reflexivity].
    assert (Hin : In k (partial_keys su))
      by (apply partial_keys_In; congruence).
    assert (existsb (StatType_eqb k) (partial_keys su) = true).
    { apply existsb_exists. exists k. split; [assumption|].
      destruct (StatType_eqb_spec k k); congruence. }
    congruence. }
  unfold partial_get_or. rewrite Hk. reflexivity.
Qed.

(** X12. After a response each stat is its previous value plus the
    [stats_update] value brought into the interval from -2 to 5, plus 1 when a
    successful action result on that stat brings its experience to the
    threshold; so a response moves a stat by -2 at least and 6 at most. *)
Theorem stats_after_a_response (env : Entropy) (prev : GameState)
        (r : AIStoryResponse) (k : StatType) :
  let next := fst (reconcile env prev r) in
  stat_get (stats next) k
  = stat_get (stats prev) k + stat_delta r k
    + (if levels_up prev r k then 1 else 0)
  /\ -2 <= stat_get (stats next) k - stat_get (stats prev) k <= 6.
Proof.
  cbv zeta.
  assert (E : stat_get (stats (fst (reconcile env prev r))) k
              = stat_get (stats prev) k + stat_delta r k
                + (if levels_up prev r k then 1 else 0)).
  { pose proof (f_equal fst (reconcile_stats_exp env prev r)) as S.
    cbn [fst] in S. rewrite S. unfold levels_up, resolve_action.
    destruct (action_result r) as [ar|]; cbn [fst];
      [|rewrite stats_after_update_get; lia].
    destruct (act_is_success ar); cbn [fst andb];
      [|rewrite stats_after_update_get; lia].
    unfold gain_experience. cbv zeta.
    destruct (StatType_eqb_spec k (act_stat ar)) as [->|N]; cbn [andb].
    - destruct (EXP_THRESHOLD <=? _); cbn [fst];
        rewrite ?stat_get_set_same, stats_after_update_get; lia.
    - destruct (EXP_THRESHOLD <=? _); cbn [fst];
        rewrite ?stat_get_set_other by congruence;
        rewrite stats_after_update_get; lia.
  }
  split; [exact E|]. rewrite E.
  assert (-2 <= stat_delta r k <= 5).
  { unfold stat_delta, clamp. destruct (stats_update r); lia. }
  destruct (levels_up prev r k); lia.
Qed.


Lemma clear_removed_slot (removed : list string) (o : option InventoryItem) :
  clear_removed removed o
  = (match o with
     | Some i => if is_removed removed i then None else Some i
     | None => None
     end,
     match o with
     | Some i => is_removed removed i
     | None => false
     end).
Proof. destruct o as [i|]; cbn; [destruct (is_removed removed i)|]; reflexivity. Qed.

Lemma finalEquipped_slot (prev : GameState) (r : AIStoryResponse)
      (slot : ItemType) :
  get_slot (finalEquipped prev r) slot
  = match get_slot (equipped prev) slot with
    | Some i => if kept r i then Some i else None
    | None => None
    end.
Proof.
  unfold finalEquipped, kept. cbv zeta. rewrite !clear_removed_slot.
  destruct (equipped prev) as [w a c].
  cbn [g_weapon g_armor g_accessory].
  destruct w as [w|], a as [a|], c as [c|];
    try destruct (is_removed (removedNames r) w) eqn:Ew;
    try destruct (is_removed (removedNames r) a) eqn:Ea;
    try destruct (is_removed (removedNames r) c) eqn:Ec;
    destruct slot;
    cbn [orb get_slot g_weapon g_armor g_accessory];
    rewrite ?Ew, ?Ea, ?Ec; reflexivity.
Qed.

Lemma present_get_slot (e : EquippedGear) (i : InventoryItem) :
  In i (present e) <-> exists slot, get_slot e slot = Some i.
Proof.
  destruct e as [w a c]. split.
  - destruct w as [w|], a as [a|], c as [c|];
      cbn [present flat_map g_weapon g_armor g_accessory app In];
      intros H; repeat destruct H as [H|H]; subst; try contradiction;
      solve [exists weapon; reflexivity | exists armor; reflexivity
            | exists accessory; reflexivity].
  - intros [slot H].
    destruct slot, w as [w|], a as [a|], c as [c|];
      cbn [get_slot present flat_map g_weapon g_armor g_accessory app In]
        in *; inversion H; subst; tauto.
Qed.

Lemma In_firstn {A : Type} (n : nat) (l : list A) (x : A) :
  In x (firstn n l) -> In x l.
Proof.
  revert l. induction n as [|n IH]; intros [|y l] H; cbn [firstn] in H;
    try contradiction.
  destruct H as [->|H]; [left; reflexivity|right; apply IH; assumption].
Qed.



(** X14. The reducer never equips: the [equipment_update] of a response
    has no effect on the next state, and each slot holds afterwards what it
    held before, or nothing when its item was removed by name. *)
Theorem reducer_never_equips (env : Entropy) (prev : GameState)
        (r : AIStoryResponse) (u : option EquipmentUpdate)
        (slot : ItemType) :
  let next := fst (reconcile env prev r) in
  reconcile env prev (with_equipment_update r u) = reconcile env prev r
  /\ get_slot (equipped next) slot
     = match get_slot (equipped prev) slot with
       | Some i => if kept r i then Some i else None
       | None => None
       end.
Proof.
  cbv zeta. split; [reflexivity|].
  rewrite reconcile_equipped. apply finalEquipped_slot.
Qed.

Lemma finalEquipped_present (prev : GameState) (r : AIStoryResponse)
      (i : InventoryItem) :
  In i (present (finalEquipped prev r)) -> In i (present (equipped prev)).
Proof.
  rewrite !present_get_slot. intros [slot H]. exists slot.
  rewrite finalEquipped_slot in H.
  destruct (get_slot (equipped prev) slot) as [j|]; [|discriminate].
  destruct (kept r j); [assumption|discriminate].
Qed.

(** X15. When every equipped item has an identifier, the next bag has at
    most 8 items, shares no identifier with the next equipment, and holds only
    items of the previous bag and items made from the response. *)
Theorem next_inventory_is_sound (env : Entropy) (prev : GameState)
        (r : AIStoryResponse) :
  let next := fst (reconcile env prev r) in
  equipped_have_ids (equipped prev) = true ->
  (List.length (inventory next) <= 8)%nat
  /\ no_shared_ids (inventory next) (equipped next) = true
  /\ (forall i, In i (inventory next) ->
                In i (inventory prev) \/ In i (newItems env r)).
Proof.
  cbv zeta. intros Hids. rewrite reconcile_inventory, reconcile_equipped.
  assert (E : finalInventory env prev r
              = filter (fun i => negb (JS.mem (item_id i)
                                              (equippedIds (equipped prev))))
                       (capped (intake env prev r))).
  { unfold finalInventory. cbv zeta. apply restore_old_all.
    intros o Ho. apply still_equipped; assumption. }
  rewrite E. split; [|split].
  - pose proof (filter_length_le
                  (fun i => negb (JS.mem (item_id i)
                                         (equippedIds (equipped prev))))
                  (capped (intake env prev r))) as H1.
    rewrite capped_firstn in *.
    pose proof (firstn_le_length 8 (intake env prev r)). lia.
  - unfold no_shared_ids. apply forallb_forall. intros i Hi.
    apply filter_In in Hi as [_ Hi].
    destruct (JS.mem (item_id i) (equippedIds (finalEquipped prev r)))
      eqn:Em; [|reflexivity].
    exfalso. apply negb_true_iff in Hi.
    assert (JS.mem (item_id i) (equippedIds (equipped prev)) = true);
      [|congruence].
    apply mem_In. apply mem_In in Em. unfold equippedIds in *.
    apply filter_In in Em as [Em Ht]. apply filter_In. split; [|exact Ht].
    apply in_map_iff in Em as (j & <- & Hj). apply in_map.
    apply (finalEquipped_present _ _ _ Hj).
  - intros i Hi. apply filter_In in Hi as [Hi _].
    rewrite capped_firstn in Hi. apply In_firstn in Hi.
    unfold intake in Hi. apply filter_In in Hi as [Hi _].
    apply in_app_iff in Hi. exact Hi.
Qed.

Lemma next_inventory_is_sound_witness :
  equipped_have_ids (equipped armoured) = true
  /\ (List.length (inventory (fst (reconcile env0 armoured two_more))) <= 8)%nat.
Proof.
  assert (H : equipped_have_ids (equipped armoured) = true)
    by (vm_compute; reflexivity).
  split; [exact H|].
  exact (proj1 (next_inventory_is_sound env0 armoured two_more H)).
Defined.

Lemma update_npc_identity (u : NPCUpdate) (ns : list NPC) :
  map npc_identity (update_npc u ns) = map npc_identity ns.
Proof.
  induction ns as [|n ns IH]; cbn [update_npc map]; [reflexivity|].
  destruct (String.eqb _ _); cbn [map]; [reflexivity|].
  rewrite IH. reflexivity.
Qed.

Lemma fold_update_npc_identity (us : list NPCUpdate) (ns : list NPC) :
  map npc_identity (fold_left (fun ns u => update_npc u ns) us ns)
  = map npc_identity ns.
Proof.
  revert ns. induction us as [|u us IH]; intros ns; cbn [fold_left];
    [reflexivity|].
  rewrite IH. apply update_npc_identity.
Qed.

Lemma map_filter_comm {A B : Type} (f : A -> B) (p : B -> bool)
      (l : list A) :
  map f (filter (fun x => p (f x)) l) = filter p (map f l).
Proof.
  induction l as [|x l IH]; cbn [filter map]; [reflexivity|].
  destruct (p (f x)); cbn [map]; rewrite IH; reflexivity.
Qed.

(** X16. An NPC update changes neither the identifier, the name nor the
    description of an NPC: the identities after a response are those of the
    previous NPCs followed by the added ones, without the names listed for
    removal; no NPC left bears a removed name, and the list grows by at most
    the number added. *)
Theorem npc_updates_keep_identities (env : Entropy) (prev : GameState)
        (r : AIStoryResponse) :
  let next := fst (reconcile env prev r) in
  map npc_identity (npcs next)
  = filter (fun t => negb (JS.mem (snd (fst t)) (npcRemove r)))
           (map npc_identity (npcs prev ++ addedNPCs env r))
  /\ (forall n, In n (npcs next) -> JS.mem (npc_name n) (npcRemove r) = false)
  /\ (List.length (npcs next)
      <= List.length (npcs prev) + List.length (npcAdd r))%nat.
Proof.
  cbv zeta. rewrite reconcile_npcs. unfold finalNPCs. cbv zeta.
  fold (npcRemove r). fold (addedNPCs env r).
  split; [|split].
  - rewrite <- (fold_update_npc_identity
                  (match npcs_update_field r with
                   | Some u => or_nil (npcs_update u)
                   | None => []
                   end) (npcs prev ++ addedNPCs env r)).
    rewrite <- map_filter_comm. reflexivity.
  - intros n Hn. apply filter_In in Hn as [_ Hn].
    apply negb_true_iff in Hn. exact Hn.
  - match goal with
    | |- (List.length (filter ?p ?l) <= _)%nat =>
        pose proof (filter_length_le p l) as H1;
        pose proof (f_equal (@List.length _)
                      (fold_update_npc_identity
                         (match npcs_update_field r with
                          | Some u => or_nil (npcs_update u)
                          | None => []
                          end) (npcs prev ++ addedNPCs env r))) as H2
    end.
    rewrite !length_map, length_app in H2.
    assert (H3 : List.length (addedNPCs env r) = List.length (npcAdd r))
      by apply mapi_from_length.
    lia.
Qed.

(** X17. After a response the phase is [game_over] exactly when the
    status is not [ongoing], which is exactly when the timer to the game-over
    screen is set; loading has ended; and an hp of 0 ends the game. *)
Theorem game_over_follows_status (env : Entropy) (prev : GameState)
        (r : AIStoryResponse) :
  let next := fst (reconcile env prev r) in
  let cmds := snd (reconcile env prev r) in
  phase next = (if GameStatus_eqb (gameStatus next) ongoing
                then playing else game_over)
  /\ (In GameOverTimer cmds <-> gameStatus next <> ongoing)
  /\ isLoading next = false
  /\ (hp next = 0 -> phase next = game_over /\ In GameOverTimer cmds).
Proof.
  cbv zeta.
  assert (P : phase (fst (reconcile env prev r))
              = (if GameStatus_eqb (gameStatus (fst (reconcile env prev r)))
                                   ongoing
                 then playing else game_over)).
  { open_reconcile. reflexivity. }
  assert (T : In GameOverTimer (snd (reconcile env prev r))
              <-> gameStatus (fst (reconcile env prev r)) <> ongoing).
  { open_reconcile. rewrite in_app_iff.
    match goal with
    | |- context [GameStatus_eqb ?s ongoing] => destruct s
    end; cbn [GameStatus_eqb In];
      destruct (8 <? _); cbn [In];
      split; intros H; try congruence; try tauto;
      try (right; left; reflexivity);
      try (destruct H as [[H|[]]|[]]; discriminate);
      try (destruct H as [[]|[]]). }
  split; [exact P|]. split; [exact T|]. split.
  - open_reconcile. reflexivity.
  - intros H0.
    assert (L : gameStatus (fst (reconcile env prev r)) = lost).
    { rewrite reconcile_gameStatus. apply hp_and_status_lost.
      rewrite <- (reconcile_hp env). exact H0. }
    split; [rewrite P, L; reflexivity|].
    apply T. rewrite L. discriminate.
Qed.

(** *** Added items *)

Lemma createItemFromString_bonuses (id : string) (pick : nat) (name : string) :
  let item := ItemFactory.createItemFromString id pick name in
  factory_bonuses (item_bonuses item) = true
  /\ (item_type item <> misc -> item_bonuses item <> None).
Proof.
  cbv zeta. unfold ItemFactory.createItemFromString. cbv zeta.
  cbn [item_bonuses item_type].
  destruct (ItemFactory.classify (JS.toLowerCase name));
    unfold ItemFactory.base_bonuses;
    repeat match goal with
           | |- context [if JS.matches_any ?a ?b then _ else _] =>
               destruct (JS.matches_any a b)
           end;
    try (split; [vm_compute; reflexivity|intros _; vm_compute; discriminate]);
    try (split; [vm_compute; reflexivity|intros H; exfalso; apply H; reflexivity]);
    destruct pick as [|[|[|[|[|[|pick]]]]]];
    (split; [vm_compute; reflexivity|intros _; vm_compute; discriminate]).
Qed.

(** X18. An item the reducer adds takes its name from the response and
    its type and bonuses from the factory: the type is the classification of
    the name, not the type the response gives; the bonuses are none, or a
    first bonus from 1 to 3 followed by bonuses of 1 or -1, and an equippable
    item always has some; the description is the response's when that is
    not empty. *)
Theorem added_items_come_from_the_factory (env : Entropy)
        (r : AIStoryResponse) (i : InventoryItem) :
  In i (newItems env r) ->
  exists a, In a (or_nil (inventory_added r))
    /\ item_name i = added_name a
    /\ item_type i = ItemFactory.classify (JS.toLowerCase (added_name a))
    /\ factory_bonuses (item_bonuses i) = true
    /\ (item_type i <> misc -> item_bonuses i <> None)
    /\ item_description i
       = match added_description a with
         | Some d => if JS.truthy d then Some d else None
         | None => None
         end.
Proof.
  unfold newItems. intros H.
  apply mapi_from_In in H as (k & a & Ha & ->).
  exists a. split; [exact Ha|]. unfold materialize. cbv zeta.
  cbn [item_name item_type item_bonuses item_description].
  destruct (createItemFromString_bonuses (item_ids env k) (item_pick env k)
                                         (added_name a)) as [B1 B2].
  repeat split; try assumption.
Qed.

Lemma added_items_come_from_the_factory_witness :
  In (mkItem "k3j9x2a" "Sword" weapon None (Some [(STR, 1)]))
     (newItems env0 two_more)
  /\ exists a, In a (or_nil (inventory_added two_more))
       /\ item_name (mkItem "k3j9x2a" "Sword" weapon None (Some [(STR, 1)]))
          = added_name a.
Proof.
  assert (H : In (mkItem "k3j9x2a" "Sword" weapon None (Some [(STR, 1)]))
                 (newItems env0 two_more))
    by (vm_compute; left; reflexivity).
  split; [exact H|].
  destruct (added_items_come_from_the_factory env0 two_more _ H)
    as (a & H1 & H2 & _).
  exists a. split; assumption.
Defined.

(** *** What every event keeps *)

Lemma played_step infer a b : played infer a b -> step infer a b.
Proof. intros H. destruct H; constructor; assumption. Qed.







(** *** Drag and drop *)

(** X20. Drops keep the items sound: a drop on a slot equips only an item
    found in the bag, a drop on the bag unequips only the item the named slot
    holds; and dragging an item of the bag to a slot equips it when the slot
    is of its type and does nothing otherwise. *)
Theorem drag_and_drop_keeps_items_sound (e : Sidebar.DataTransfer)
        (slotType : ItemType) (g : GameState) :
  sound_items g = true ->
  sound_items (Sidebar.handleDropOnSlot e slotType g) = true
  /\ sound_items (Sidebar.handleDropOnInventory e g) = true
  /\ (forall item,
        In item (inventory g) ->
        Sidebar.handleDropOnSlot (Sidebar.handleDragStart item) slotType g
        = if ItemType_eqb (item_type item) slotType
          then handleEquip item g else g).
Proof.
  intros Hs. split; [|split].
  - unfold Sidebar.handleDropOnSlot. destruct (_ && _); [|exact Hs].
    destruct (find _ _) as [item|] eqn:F; [|exact Hs].
    apply find_some in F as [Hin _]. apply handleEquip_sound; assumption.
  - unfold Sidebar.handleDropOnInventory.
    destruct (String.eqb _ _); [|exact Hs].
    destruct (Sidebar.slot_named _ _) as [item|]; [|exact Hs].
    destruct (String.eqb _ _); [|exact Hs].
    apply handleUnequip_sound. exact Hs.
  - intros item Hin. unfold Sidebar.handleDropOnSlot, Sidebar.handleDragStart.
    cbn [Sidebar.data_origin Sidebar.data_itemType Sidebar.data_itemId].
    change (String.eqb "inventory" "inventory") with true. cbn [andb].
    assert (T : String.eqb (Sidebar.type_name (item_type item))
                           (Sidebar.type_name slotType)
                = ItemType_eqb (item_type item) slotType)
      by (destruct (item_type item), slotType; reflexivity).
    rewrite T. destruct (ItemType_eqb (item_type item) slotType);
      [|reflexivity].
    apply sound_items_iff in Hs as (_ & _ & _ & _ & Hnd).
    destruct (find _ _) as [found|] eqn:F.
    + apply find_some in F as [Hf Ef]. apply String.eqb_eq in Ef.
      assert (found = item); [|subst; reflexivity].
      apply (NoDup_map_eq item_id (held g)); try assumption;
        unfold held; apply in_app_iff; left; assumption.
    + exfalso. apply (find_none _ _ F) in Hin.
      rewrite String.eqb_refl in Hin. discriminate.
Qed.

Lemma drag_and_drop_keeps_items_sound_witness :
  sound_items packed = true
  /\ Sidebar.handleDropOnSlot (Sidebar.handleDragStart ring) accessory packed
     = handleEquip ring packed.
Proof.
  assert (Hs : sound_items packed = true) by (vm_compute; reflexivity).
  split; [exact Hs|].
  exact (proj2 (proj2 (drag_and_drop_keeps_items_sound
                         (Sidebar.handleDragStart ring) accessory packed Hs))
               ring (or_intror (or_introl eq_refl))).
Defined.

(** *** The debug log and the stat builder *)

Lemma firstn_app_firstn {A : Type} (l1 l2 : list A) (n m : nat) :
  (n <= m + List.length l1)%nat ->
  firstn n (l1 ++ firstn m l2) = firstn n (l1 ++ l2).
Proof.
  revert n. induction l1 as [|a l1 IH]; intros n H; cbn [app List.length] in *.
  - rewrite firstn_firstn. f_equal. lia.
  - destruct n as [|n]; [reflexivity|]. cbn [firstn]. f_equal.
    apply IH. lia.
Qed.

Lemma add_all_logs (es : list (DebugLog.Entry * string * Z))
      (s : DebugLog.DebugLogService) :
  DebugLog.logs (add_all s es)
  = match es with
    | [] => DebugLog.logs s
    | _ => firstn 50 (rev (map logged es) ++ DebugLog.logs s)
    end
  /\ DebugLog.listeners (add_all s es) = DebugLog.listeners s.
Proof.
  revert s. induction es as [|[[e id] t] es IH]; intros s.
  - split; reflexivity.
  - unfold add_all in *. cbn [fold_left].
    destruct (IH (fst (DebugLog.addLog s e id t))) as [IH1 IH2].
    rewrite IH1, IH2. split; [|reflexivity].
    unfold DebugLog.addLog. cbv zeta. cbn [fst DebugLog.logs].
    destruct es as [|y es]; [reflexivity|].
    rewrite firstn_app_firstn by lia.
    change (map logged ((e, id, t) :: y :: es))
      with (logged (e, id, t) :: map logged (y :: es)).
    cbn [rev]. rewrite <- (app_assoc (rev (map logged (y :: es)))).
    reflexivity.
Qed.

(** X21. The debug log holds the 50 latest entries, newest first: after
    entries are added to a log of at most 50 lines, the log is the first 50 of
    the new lines in reverse order followed by the old ones; adding never
    changes the listeners, and an addition calls every listener once with the
    new log. *)
Theorem debug_log_keeps_the_latest_fifty
        (s : DebugLog.DebugLogService)
        (es : list (DebugLog.Entry * string * Z)) :
  (List.length (DebugLog.logs s) <= 50)%nat ->
  DebugLog.getLogs (add_all s es)
  = firstn 50 (rev (map logged es) ++ DebugLog.logs s)
  /\ (List.length (DebugLog.getLogs (add_all s es)) <= 50)%nat
  /\ DebugLog.listeners (add_all s es) = DebugLog.listeners s
  /\ (forall x, snd (DebugLog.addLog (add_all s es) (fst (fst x))
                                     (snd (fst x)) (snd x))
                = map (fun l => (l, firstn 50
                                      (logged x
                                       :: DebugLog.logs (add_all s es))))
                      (DebugLog.listeners s)).
Proof.
  intros Hs. destruct (add_all_logs es s) as [H1 H2]. unfold DebugLog.getLogs.
  assert (E : DebugLog.logs (add_all s es)
              = firstn 50 (rev (map logged es) ++ DebugLog.logs s)).
  { rewrite H1. destruct es as [|x es]; [|reflexivity].
    cbn [map rev app]. symmetry. apply firstn_all2. exact Hs. }
  split; [exact E|]. split; [|split].
  - rewrite E. apply firstn_le_length.
  - exact H2.
  - intros [[e id] t]. unfold DebugLog.addLog, DebugLog.notify. cbv zeta.
    cbn [fst snd DebugLog.logs DebugLog.listeners logged]. rewrite H2.
    reflexivity.
Qed.

Lemma debug_log_keeps_the_latest_fifty_witness :
  (List.length (DebugLog.logs DebugLog.empty) <= 50)%nat
  /\ map DebugLog.log_timestamp
         (DebugLog.getLogs (add_all DebugLog.empty [probe 1; probe 2; probe 3]))
     = [3; 2; 1].
Proof.
  assert (H : (List.length (DebugLog.logs DebugLog.empty) <= 50)%nat)
    by (cbn; lia).
  split; [exact H|].
  rewrite (proj1 (debug_log_keeps_the_latest_fifty
                    DebugLog.empty [probe 1; probe 2; probe 3] H)).
  vm_compute. reflexivity.
Defined.

Lemma builder_sum_set (f : StatBuilder.Stats) (k : StatBuilder.Key) (v : Z) :
  builder_sum (StatBuilder.set f k v) = builder_sum f - f k + v.
Proof.
  unfold builder_sum, StatBuilder.keys, StatBuilder.set.
  destruct k; cbn [map sum_Z StatBuilder.Key_eqb]; lia.
Qed.

Lemma set_get (f : StatBuilder.Stats) (k k' : StatBuilder.Key) (v : Z) :
  StatBuilder.set f k v k' = if StatBuilder.Key_eqb k' k then v else f k'.
Proof. reflexivity. Qed.

Lemma builder_invariant (draws : StatBuilder.Key -> Z) (s : StatBuilder.State) :
  (forall k, 0 <= draws k <= 3) ->
  StatBuilder.reachable draws s ->
  0 <= StatBuilder.pool s
  /\ (forall k, 0 <= StatBuilder.allocated s k)
  /\ StatBuilder.pool s + builder_sum (StatBuilder.allocated s) = 5
  /\ (forall k, StatBuilder.baseStats s k = 9 + draws k).
Proof.
  intros Hd R. induction R as [|key s R IH|key s R IH].
  - unfold StatBuilder.initial, builder_sum, StatBuilder.keys.
    cbn [StatBuilder.pool StatBuilder.allocated StatBuilder.baseStats map
         sum_Z].
    split; [lia|split; [intros k; lia|split; [lia|intros k; lia]]].
  - destruct IH as (Hp & Ha & Hsum & Hb). unfold StatBuilder.handleAdd.
    destruct (Z.ltb_spec 0 (StatBuilder.pool s)); cbn [andb];
      [|repeat split; assumption].
    destruct (StatBuilder.getTotal s key <? 20);
      [|repeat split; assumption].
    cbn [StatBuilder.pool StatBuilder.allocated StatBuilder.baseStats].
    rewrite builder_sum_set. repeat split; try lia; try assumption.
    intros k. rewrite set_get. pose proof (Ha key) as Hk. specialize (Ha k).
    destruct (StatBuilder.Key_eqb k key); lia.
  - destruct IH as (Hp & Ha & Hsum & Hb). unfold StatBuilder.handleRemove.
    destruct (Z.ltb_spec 0 (StatBuilder.allocated s key));
      [|repeat split; assumption].
    cbn [StatBuilder.pool StatBuilder.allocated StatBuilder.baseStats].
    rewrite builder_sum_set. repeat split; try lia; try assumption.
    intros k. rewrite set_get. specialize (Ha k).
    destruct (StatBuilder.Key_eqb k key); lia.
Qed.

Lemma builder_sum_bound (f : StatBuilder.Stats) (k : StatBuilder.Key) :
  (forall k, 0 <= f k) -> f k <= builder_sum f.
Proof.
  intros H. unfold builder_sum, StatBuilder.keys. cbn [map sum_Z].
  pose proof (H StatBuilder.STR). pose proof (H StatBuilder.DEX).
  pose proof (H StatBuilder.CON). pose proof (H StatBuilder.INT).
  pose proof (H StatBuilder.CHA). pose proof (H StatBuilder.PER).
  destruct k; lia.
Qed.

(** X22. In the stat builder, with base stats drawn between 9 and 12, the
    pool stays between 0 and 5, no allocation is negative, the pool and the
    allocations sum to 5, the final stats sum to the base stats plus the
    points spent, every stat stays between 9 and 17, below the cap of 20, and
    so a point can be spent on any stat while the pool lasts. *)
Theorem stat_builder_spends_the_pool (draws : StatBuilder.Key -> Z)
        (s : StatBuilder.State) (key : StatBuilder.Key) :
  (forall k, 0 <= draws k <= 3) ->
  StatBuilder.reachable draws s ->
  0 <= StatBuilder.pool s <= 5
  /\ (forall k, 0 <= StatBuilder.allocated s k)
  /\ StatBuilder.pool s + builder_sum (StatBuilder.allocated s) = 5
  /\ builder_sum (StatBuilder.completed s)
     = builder_sum (StatBuilder.baseStats s) + 5 - StatBuilder.pool s
  /\ (forall k, 9 <= StatBuilder.completed s k <= 17)
  /\ (0 < StatBuilder.pool s ->
      StatBuilder.pool (StatBuilder.handleAdd key s) = StatBuilder.pool s - 1
      /\ StatBuilder.completed (StatBuilder.handleAdd key s) key
         = StatBuilder.completed s key + 1).
Proof.
  intros Hd R. destruct (builder_invariant draws s Hd R) as (Hp & Ha & Hsum & Hb).
  pose proof (builder_sum_bound _ key Ha) as Hkey.
  assert (Hall : forall k, 9 <= StatBuilder.completed s k <= 17).
  { intros k. unfold StatBuilder.completed, StatBuilder.getTotal.
    rewrite Hb. pose proof (builder_sum_bound _ k Ha).
    specialize (Hd k). specialize (Ha k). lia. }
  assert (Hpos : 0 <= builder_sum (StatBuilder.allocated s)).
  { pose proof (Ha key). lia. }
  split; [lia|]. split; [exact Ha|]. split; [exact Hsum|]. split; [|split].
  - unfold builder_sum in *. unfold StatBuilder.completed, StatBuilder.getTotal,
      StatBuilder.keys in *. cbn [map sum_Z] in *. lia.
  - exact Hall.
  - intros Hpool. unfold StatBuilder.handleAdd.
    destruct (Z.ltb_spec 0 (StatBuilder.pool s)); [|lia].
    specialize (Hall key). unfold StatBuilder.completed in *.
    destruct (Z.ltb_spec (StatBuilder.getTotal s key) 20); [|lia].
    cbn [andb StatBuilder.pool]. split; [reflexivity|].
    unfold StatBuilder.getTotal.
    cbn [StatBuilder.baseStats StatBuilder.allocated]. rewrite set_get.
    destruct key; cbn [StatBuilder.Key_eqb]; lia.
Qed.

Lemma stat_builder_spends_the_pool_witness :
  (forall k, 0 <= even_draws k <= 3)
  /\ StatBuilder.reachable even_draws
       (StatBuilder.handleAdd StatBuilder.CON
                              (StatBuilder.initial even_draws))
  /\ 0 <= StatBuilder.pool
            (StatBuilder.handleAdd StatBuilder.CON
                                   (StatBuilder.initial even_draws)) <= 5.
Proof.
  assert (Hd : forall k, 0 <= even_draws k <= 3)
    by (intros k; unfold even_draws; lia).
  assert (R : StatBuilder.reachable even_draws
                (StatBuilder.handleAdd StatBuilder.CON
                                       (StatBuilder.initial even_draws)))
    by (apply StatBuilder.reach_add, StatBuilder.reach_initial).
  split; [exact Hd|]. split; [exact R|].
  exact (proj1 (stat_builder_spends_the_pool even_draws _ StatBuilder.CON
                                             Hd R)).
Defined.

(** *** Side quests *)

Example veteran_completes :
  QuestSystem.checkQuestProgress [veteran] playing0 quiet_turn
  = ([QuestSystem.mkQuest "q1w2e" "Veteran"
                          "Complete 3 turns in this adventure."
                          QuestSystem.turn_count 3 3 QuestSystem.level_up
                          None None None true],
     [QuestSystem.mkReward QuestSystem.level_up None None]).
Proof. vm_compute. reflexivity. Qed.

Example mastery_quest_carries_its_item :
  QuestSystem.make_rewardItem (first_draws 0)
    (QuestSystem.mkTemplate "CON Mastery" "Succeed on {target} CON checks."
                            QuestSystem.stat_success_count (2, 3)
                            QuestSystem.item None (Some CON))
  = Returns (Some (mkItem "p4t7c1q" "Plate Armor" armor
                          (Some "A reward for mastering CON.")
                          (Some [(CON, 2); (DEX, -1)]))).
Proof. vm_compute. reflexivity. Qed.

Lemma check_quest_facts (g : GameState) (t : StoryTurn)
      (q : QuestSystem.SideQuest) :
  let q' := fst (QuestSystem.check_quest g t q) in
  quest_terms q' = quest_terms q
  /\ snd (QuestSystem.check_quest g t q)
     = (if completes g t q then Some (reward_of q) else None)
  /\ QuestSystem.quest_isCompleted q'
     = QuestSystem.quest_isCompleted q || completes g t q
  /\ (QuestSystem.quest_isCompleted q = true -> q' = q)
  /\ (QuestSystem.quest_isCompleted q = false ->
      QuestSystem.quest_progress q'
      = Z.min (QuestSystem.quest_target q) (QuestSystem.newProgress g t q)).
Proof.
  cbv zeta. unfold QuestSystem.check_quest, completes. cbv zeta.
  destruct (QuestSystem.quest_isCompleted q) eqn:C; cbn [negb andb fst snd].
  - repeat split; try reflexivity; try discriminate. rewrite C. reflexivity.
  - destruct (Z.leb_spec (QuestSystem.quest_target q)
                         (QuestSystem.newProgress g t q));
      cbn [fst snd QuestSystem.quest_isCompleted QuestSystem.quest_progress];
      (split; [reflexivity|]); (split; [reflexivity|]);
      (split; [reflexivity|]); (split; [discriminate|]); intros _; lia.
Qed.

(** X23. A quest check changes only progress and completion; it rewards
    exactly the open quests the turn brings to their target, in order, so the
    number of completed quests grows by the number of rewards; an open quest
    stays below its target, and a completed one is returned unchanged and
    never rewarded again. *)
Theorem quests_are_rewarded_once (quests : list QuestSystem.SideQuest)
        (g : GameState) (lastTurn : StoryTurn) :
  let updated := fst (QuestSystem.checkQuestProgress quests g lastTurn) in
  let rewards := snd (QuestSystem.checkQuestProgress quests g lastTurn) in
  map quest_terms updated = map quest_terms quests
  /\ rewards = map reward_of (filter (completes g lastTurn) quests)
  /\ completed_count updated
     = (completed_count quests + List.length rewards)%nat
  /\ (forall q', In q' updated ->
        QuestSystem.quest_isCompleted q' = false ->
        QuestSystem.quest_progress q' < QuestSystem.quest_target q')
  /\ (forall k q, nth_error quests k = Some q ->
        QuestSystem.quest_isCompleted q = true ->
        nth_error updated k = Some q).
Proof.
  cbv zeta. unfold QuestSystem.checkQuestProgress. cbv zeta. cbn [fst snd].
  rewrite !map_map. split; [|split; [|split; [|split]]].
  - apply map_ext. intros q.
    apply (check_quest_facts g lastTurn q).
  - induction quests as [|q quests IH]; [reflexivity|].
    cbn [map flat_map filter]. rewrite IH.
    destruct (check_quest_facts g lastTurn q) as (_ & -> & _).
    destruct (completes g lastTurn q); reflexivity.
  - unfold completed_count.
    induction quests as [|q quests IH]; [reflexivity|].
    cbn [map flat_map filter]. rewrite length_app.
    destruct (check_quest_facts g lastTurn q) as (_ & E2 & E3 & _).
    rewrite E2, E3. unfold completes at 1 2.
    destruct (QuestSystem.quest_isCompleted q); cbn [negb andb orb];
      [cbn [List.length]; rewrite IH; reflexivity|].
    match goal with |- context [?a <=? ?b] => destruct (a <=? b) end;
      cbn [List.length]; rewrite IH; lia.
  - intros q' Hq' Hopen. apply in_map_iff in Hq' as (q & <- & Hq).
    destruct (check_quest_facts g lastTurn q) as (_ & _ & E3 & E4 & E5).
    cbv zeta in *. rewrite E3 in Hopen. apply orb_false_iff in Hopen as [C N].
    rewrite (E5 C). unfold completes in N. rewrite C in N. cbn [negb andb] in N.
    apply Z.leb_gt in N.
    assert (T : QuestSystem.quest_target
                  (fst (QuestSystem.check_quest g lastTurn q))
                = QuestSystem.quest_target q).
    { pose proof (proj1 (check_quest_facts g lastTurn q)) as E1.
      cbv zeta in E1. unfold quest_terms in E1. congruence. }
    rewrite T. lia.
  - intros k q Hk C. rewrite nth_error_map, Hk. cbn [option_map].
    f_equal. apply (check_quest_facts g lastTurn q). exact C.
Qed.

Lemma template_reward_item (t : QuestSystem.QuestTemplate) :
  In t QuestSystem.getAllTemplates ->
  (QuestSystem.tpl_reward t = QuestSystem.item
   <-> QuestSystem.tpl_statTarget t <> None)
  /\ 0 < snd (QuestSystem.tpl_targetRange t)
         - fst (QuestSystem.tpl_targetRange t) + 1.
Proof.
  unfold QuestSystem.getAllTemplates, QuestSystem.BASE_TEMPLATES,
    QuestSystem.generateStatTemplates.
  cbn [map app In]. intros H.
  repeat (destruct H as [<-|H];
          [cbn; split; [split; intros; congruence|lia]|]).
  contradiction.
Qed.

Lemma make_rewardItem_returns (d : QuestSystem.Draws)
      (t : QuestSystem.QuestTemplate) :
  In t QuestSystem.getAllTemplates ->
  (forall k, (0 < k)%nat -> (QuestSystem.draw_name d k < k)%nat) ->
  exists o, QuestSystem.make_rewardItem d t = Returns o
            /\ (QuestSystem.tpl_reward t = QuestSystem.item <-> o <> None).
Proof.
  intros Ht Hd. destruct (template_reward_item t Ht) as [T _].
  unfold QuestSystem.make_rewardItem.
  destruct (QuestSystem.tpl_statTarget t) as [stat|].
  - assert (R : QuestSystem.tpl_reward t = QuestSystem.item)
      by (apply T; discriminate).
    rewrite R. cbn [QuestSystem.QuestRewardType_eqb].
    destruct (nth_error _ _) as [name|] eqn:En.
    + eexists. split; [reflexivity|]. split; [discriminate|reflexivity].
    + exfalso. apply nth_error_None in En.
      assert (0 < List.length (QuestSystem.STAT_REWARD_NAMES stat))%nat
        by (destruct stat; cbn; lia).
      specialize (Hd _ H). lia.
  - exists None. split; [reflexivity|]. split; [|congruence].
    intros R. apply T in R. congruence.
Qed.

Lemma filter_partition_length {A : Type} (f : A -> bool) (l : list A) :
  (List.length (filter f l) + List.length (filter (fun x => negb (f x)) l)
   = List.length l)%nat.
Proof.
  induction l as [|x l IH]; [reflexivity|]. cbn [filter].
  destruct (f x); cbn [negb List.length]; lia.
Qed.

Lemma templates_have_distinct_titles :
  NoDup (map QuestSystem.tpl_title QuestSystem.getAllTemplates).
Proof.
  apply distinct_NoDup. vm_compute. reflexivity.
Qed.

Lemma available_count (existingTitles : list string) :
  (List.length QuestSystem.getAllTemplates
   <= List.length
        (filter (fun t => negb (JS.mem (QuestSystem.tpl_title t)
                                       existingTitles))
                QuestSystem.getAllTemplates)
      + List.length existingTitles)%nat.
Proof.
  pose proof (filter_partition_length
                (fun t => JS.mem (QuestSystem.tpl_title t) existingTitles)
                QuestSystem.getAllTemplates) as P.
  assert (T : (List.length
                 (filter (fun t => JS.mem (QuestSystem.tpl_title t)
                                          existingTitles)
                         QuestSystem.getAllTemplates)
               <= List.length existingTitles)%nat).
  { rewrite <- (length_map QuestSystem.tpl_title).
    apply NoDup_incl_length.
    - pose proof templates_have_distinct_titles as N.
      rewrite <- (app_nil_r QuestSystem.getAllTemplates) in N.
      apply (NoDup_map_filter QuestSystem.tpl_title
               (fun t => JS.mem (QuestSystem.tpl_title t) existingTitles))
        in N.
      rewrite app_nil_r in N. exact N.
    - intros x Hx. apply in_map_iff in Hx as (t & <- & Ht).
      apply filter_In in Ht as [_ Ht]. apply mem_In. exact Ht. }
  lia.
Qed.

Lemma fill_spec (draws : nat -> QuestSystem.Draws) (n i : nat)
      (existingTitles : list string)
      (newQuests : list QuestSystem.SideQuest) :
  fair draws ->
  (List.length existingTitles + n
   < List.length QuestSystem.getAllTemplates)%nat ->
  exists added,
    QuestSystem.fill draws i n existingTitles newQuests
    = Returns (newQuests ++ added)
    /\ List.length added = n
    /\ (forall q, In q added ->
          fresh_quest q /\ ~ In (QuestSystem.quest_title q) existingTitles)
    /\ NoDup (map QuestSystem.quest_title added).
Proof.
  intros Hfair. revert i existingTitles newQuests.
  induction n as [|n IH]; intros i ex new Hroom; cbn [QuestSystem.fill].
  - exists []. rewrite app_nil_r.
    split; [reflexivity|]. split; [reflexivity|].
    split; [intros q []|constructor].
  - cbv zeta. pose proof (available_count ex) as Hav.
    destruct (filter _ QuestSystem.getAllTemplates) as [|t0 ts] eqn:Eav;
      [cbn [List.length] in Hav; lia|].
    destruct (Hfair i) as (Ft & Fg & Fn).
    destruct (nth_error (t0 :: ts) _) as [t|] eqn:Et.
    2:{ exfalso. apply nth_error_None in Et.
        specialize (Ft (List.length (t0 :: ts))). cbn [List.length] in *.
        lia. }
    apply nth_error_In in Et. rewrite <- Eav in Et.
    apply filter_In in Et as [Ht Hnew]. apply negb_true_iff in Hnew.
    destruct (make_rewardItem_returns (draws i) t Ht Fn) as (o & Eo & Ho).
    rewrite Eo. cbn [bind].
    match goal with
    | |- context [QuestSystem.fill _ _ _ _ (_ ++ [?q])] => set (quest := q)
    end.
    destruct (IH (S i) (ex ++ [QuestSystem.quest_title quest])
                 (new ++ [quest])) as (added & E & Hlen & Hq & Hnd).
    { rewrite length_app. cbn [List.length]. lia. }
    exists (quest :: added). rewrite E, <- app_assoc. cbn [app].
    split; [reflexivity|]. split; [cbn [List.length]; lia|]. split.
    + intros q [<-|Hin].
      * split.
        -- unfold fresh_quest, quest.
           cbn [QuestSystem.quest_title QuestSystem.quest_type
                QuestSystem.quest_reward QuestSystem.quest_rewardValue
                QuestSystem.quest_statTarget QuestSystem.quest_progress
                QuestSystem.quest_isCompleted QuestSystem.quest_target
                QuestSystem.quest_rewardItem].
           split; [|split; [reflexivity|split; [reflexivity|exact Ho]]].
           exists t. destruct (template_reward_item t Ht) as [_ Hspan].
           specialize (Fg _ Hspan).
           repeat split; try assumption; lia.
        -- intros Hex. apply mem_In in Hex.
           unfold quest in Hex. cbn [QuestSystem.quest_title] in Hex.
           congruence.
      * destruct (Hq q Hin) as [F N]. split; [exact F|].
        intros Hex. apply N. apply in_app_iff. left. exact Hex.
    + cbn [map]. constructor; [|exact Hnd].
      intros Hin. apply in_map_iff in Hin as (q & Eq & Hin).
      destruct (Hq q Hin) as [_ N]. apply N. apply in_app_iff. right.
      left. symmetry. exact Eq.
Qed.

(** X24. With every draw in range, [generateSideQuests] returns the
    current quests followed by new ones, three quests in all (the current ones
    alone when there are three or more); a new quest follows a template whose
    title no current quest has, with a target in the range of the template,
    no progress, and a reward item exactly when the reward is an item; the
    new quests have different titles. *)
Theorem side_quests_are_topped_up (draws : nat -> QuestSystem.Draws)
        (currentQuests : list QuestSystem.SideQuest) :
  fair draws ->
  exists added,
    QuestSystem.generateSideQuests draws currentQuests
    = Returns (currentQuests ++ added)
    /\ List.length (currentQuests ++ added)
       = Nat.max 3 (List.length currentQuests)
    /\ (forall q, In q added ->
          fresh_quest q
          /\ ~ In (QuestSystem.quest_title q)
                  (map QuestSystem.quest_title currentQuests))
    /\ NoDup (map QuestSystem.quest_title added).
Proof.
  intros Hfair. unfold QuestSystem.generateSideQuests. cbv zeta.
  destruct (Z.leb_spec (3 - Z.of_nat (List.length currentQuests)) 0) as [H|H].
  - exists []. rewrite app_nil_r.
    split; [reflexivity|]. split; [lia|].
    split; [intros q []|constructor].
  - destruct (fill_spec draws
                (Z.to_nat (3 - Z.of_nat (List.length currentQuests))) 0
                (map QuestSystem.quest_title currentQuests) [] Hfair)
      as (added & E & Hlen & Hq & Hnd).
    { rewrite length_map.
      change (List.length QuestSystem.getAllTemplates) with 12%nat. lia. }
    rewrite E. cbn [bind app]. exists added. rewrite length_app.
    split; [reflexivity|]. split; [lia|]. split; assumption.
Qed.

Lemma side_quests_are_topped_up_witness :
  fair first_draws
  /\ exists added,
       QuestSystem.generateSideQuests first_draws [veteran]
       = Returns ([veteran] ++ added)
       /\ List.length ([veteran] ++ added) = 3%nat.
Proof.
  assert (F : fair first_draws).
  { intros i. cbn. repeat split; intros; lia. }
  split; [exact F|].
  destruct (side_quests_are_topped_up first_draws [veteran] F)
    as (added & H1 & H2 & _).
  exists added. split; [exact H1|exact H2].
Defined.

(** *** The normalizer *)

Import Parser.

(** C7 fails on the code: an ACTION_RESULT section whose SUCCESS line has
    no colon makes [val] undefined, and [val.toLowerCase()] throws; so
    does a full response whose last line lacks the colon. *)
Theorem parseTextResponse_throws (fresh : nat -> string) :
  parseTextResponse fresh ("### ACTION_RESULT" ++ nl ++ "SUCCESS")
  = Throws "TypeError"
  /\ parseTextResponse fresh
       ("### NARRATIVE" ++ nl ++ "You leap the chasm." ++ nl
        ++ "### CHOICES" ++ nl ++ "1. Press on | NONE | 0" ++ nl
        ++ "### UPDATES" ++ nl ++ "HP: -3" ++ nl
        ++ "### ACTION_RESULT" ++ nl ++ "STAT: DEX" ++ nl ++ "DC: 12" ++ nl
        ++ "BASE: 15" ++ nl ++ "TOTAL: 16" ++ nl ++ "SUCCESS")
     = Throws "TypeError".
Proof. split; vm_compute; reflexivity. Qed.

(** Apart from that line the normalizer returns, and a missing section
    leaves its fields at their defaults. *)
Lemma parseTextResponse_defaults (fresh : nat -> string) (text : string) :
  let ms := section_matches text in
  (section_truthy ms "ACTION_RESULT" = None ->
   exists r, parseTextResponse fresh text = Returns r)
  /\ forall r,
      parseTextResponse fresh text = Returns r ->
      (section_truthy ms "UPDATES" = None ->
       Parser.hp_change r = 0 /\ Parser.game_status r = ongoing
       /\ Parser.inventory_removed r = None
       /\ Parser.inventory_added r = None)
      /\ (section_truthy ms "UPDATES" = None ->
          section_truthy ms "CHOICES" = None -> Parser.choices r = [])
      /\ (section_truthy ms "UPDATES" = None ->
          section ms "NARRATIVE" = None -> Parser.narrative r = text).
Proof.
  cbv zeta. unfold parseTextResponse.
  set (ms := section_matches text). split.
  - intros ->. eexists. reflexivity.
  - intros r Hr.
    assert (Hupd : section_truthy ms "UPDATES" = None ->
                   exists cs,
                     r = Parser.mkResponse
                           (str_or (section ms "NARRATIVE") text) cs ongoing 0
                           None None None None None
                           (Parser.action_result r)
                     /\ (section_truthy ms "CHOICES" = None -> cs = [])).
    { intros Hu. rewrite Hu in Hr.
      destruct (section_truthy ms "CHOICES") as [body|];
        (eexists; split; [|intros E; try discriminate E; reflexivity]);
        destruct (section_truthy ms "ACTION_RESULT") as [abody|];
        try (injection Hr as <-; reflexivity);
        (destruct (parse_action abody) as [res|e]; [|discriminate Hr];
         cbn [bind] in Hr; injection Hr as <-;
         destruct (JS.truthy _); reflexivity). }
    split; [|split].
    + intros Hu. destruct (Hupd Hu) as (cs & E & _). rewrite E. cbn.
      repeat split.
    + intros Hu Hc. destruct (Hupd Hu) as (cs & E & Hcs). rewrite E. cbn.
      auto.
    + intros Hu Hn. destruct (Hupd Hu) as (cs & E & _). rewrite E. cbn.
      rewrite Hn. reflexivity.
Qed.

(** The normalizer throws on the lines [bare_success] names, and on no
    other line. *)
Lemma action_line_throws (result : Parser.Action) (line : string) :
  (bare_success line = true -> action_line result line = Throws "TypeError")
  /\ (bare_success line = false ->
      exists result', action_line result line = Returns result').
Proof.
  unfold bare_success, action_line. cbv zeta.
  destruct (String.eqb (nth 0 (map JS.trim (JS.split ":" line)) EmptyString)
                       "SUCCESS");
    destruct (nth_error (map JS.trim (JS.split ":" line)) 1);
    cbn [andb]; split; intros H; try discriminate H; try reflexivity;
    eexists; reflexivity.
Qed.

Lemma parse_action_returns (body : string) :
  forallb (fun line => negb (bare_success line)) (JS.splitLines body) = true ->
  exists result, parse_action body = Returns result.
Proof.
  unfold parse_action. generalize empty_action.
  induction (JS.splitLines body) as [|line lines IH]; intros acc H.
  - eexists. reflexivity.
  - cbn [forallb] in H. apply andb_true_iff in H as [Hline Hrest].
    apply negb_true_iff in Hline.
    destruct (proj2 (action_line_throws acc line) Hline) as [acc' E].
    cbn [for_of]. rewrite E. cbn [bind]. apply IH. assumption.
Qed.

Lemma parseTextResponse_returns (fresh : nat -> string) (text : string) :
  (forall body,
      section_truthy (section_matches text) "ACTION_RESULT" = Some body ->
      forallb (fun line => negb (bare_success line)) (JS.splitLines body)
      = true) ->
  exists r, parseTextResponse fresh text = Returns r.
Proof.
  intros H. unfold parseTextResponse.
  destruct (section_truthy (section_matches text) "ACTION_RESULT")
    as [body|]; [|eexists; reflexivity].
  destruct (parse_action_returns body (H body eq_refl)) as [result E].
  rewrite E. cbn [bind]. eexists. reflexivity.
Qed.

Lemma parseTextResponse_plain (fresh : nat -> string) :
  parseTextResponse fresh "You walk on." = Returns (default_response "You walk on.").
Proof. vm_compute. reflexivity. Qed.

(** *** NONE lines *)

Lemma startsWith_append (k rest : string) :
  JS.startsWith (k ++ rest) k = true.
Proof.
  unfold JS.startsWith. induction k as [|c k IH]; cbn.
  - destruct rest; reflexivity.
  - destruct (ascii_dec c c); [exact IH|congruence].
Qed.

Lemma drop_append (k rest : string) :
  JS.drop (String.length k) (k ++ rest) = rest.
Proof. induction k as [|c k IH]; [reflexivity|exact IH]. Qed.

Lemma replace_prefix (s pat : string) :
  String.prefix pat s = true ->
  JS.replace s pat EmptyString = JS.drop (String.length pat) s.
Proof. destruct s; cbn [JS.replace]; intros ->; reflexivity. Qed.

Lemma replace_append (k rest : string) :
  JS.replace (k ++ rest) k EmptyString = rest.
Proof.
  rewrite replace_prefix by apply startsWith_append. apply drop_append.
Qed.

Ltac decide_startsWith rest :=
  rewrite ?startsWith_append;
  repeat match goal with
         | |- context [JS.startsWith (?k ++ rest) ?p] =>
             change (JS.startsWith (k ++ rest) p) with false
         end.

Ltac skip_line rest Hnone :=
  unfold update_scalars, item_add, item_remove, equip_line, unequip_line,
    effect_add;
  cbv zeta;
  decide_startsWith rest;
  unfold name_after, parts_after; rewrite ?replace_append;
  unfold is_NONE; rewrite Hnone; reflexivity.

Lemma none_line_skipped fresh r line key rest :
  In key entity_keys ->
  JS.trim line = (key ++ rest)%string ->
  JS.toUpperCase (entity_name key rest) = "NONE" ->
  update_line fresh r line = r.
Proof.
  intros Hkey Htrim Hnone. unfold update_line. rewrite Htrim.
  unfold entity_keys in Hkey. cbn [In] in Hkey.
  destruct Hkey as [<-|[<-|[<-|[<-|[<-|[]]]]]];
    match goal with
    | |- context [JS.truthy (?k ++ rest)] =>
        change (JS.truthy (k ++ rest)) with true; cbn [negb];
        change (entity_name k rest) with (JS.trim rest) in Hnone
        || change (entity_name k rest)
             with (nth 0 (map JS.trim (JS.split "|" rest)) EmptyString)
             in Hnone;
        skip_line rest Hnone
    end.
Qed.

(** C8. A line of UPDATES whose key is ITEM_ADD, ITEM_REMOVE, EQUIP,
    UNEQUIP or EFFECT_ADD and whose entity name is NONE, in any case of
    letters, leaves the response as it was, so the section gives the same
    delta with the line as without it; and a text whose UPDATES section is
    the line [ITEM_REMOVE: NONE] has no [inventory_removed]. *)
Theorem none_lines_are_skipped (fresh : nat -> string) :
  (forall r line key rest,
      In key entity_keys ->
      JS.trim line = (key ++ rest)%string ->
      JS.toUpperCase (entity_name key rest) = "NONE" ->
      update_line fresh r line = r)
  /\ (forall r before line after key rest,
         In key entity_keys ->
         JS.trim line = (key ++ rest)%string ->
         JS.toUpperCase (entity_name key rest) = "NONE" ->
         fold_left (update_line fresh) (before ++ line :: after) r
         = fold_left (update_line fresh) (before ++ after) r)
  /\ parseTextResponse fresh ("### UPDATES" ++ nl ++ "ITEM_REMOVE: NONE")
     = Returns (default_response
                  ("### UPDATES" ++ nl ++ "ITEM_REMOVE: NONE")).
Proof.
  split; [|split].
  - intros. eapply none_line_skipped; eassumption.
  - intros r before line after key rest Hk Ht Hn.
    rewrite !fold_left_app. cbn [fold_left].
    rewrite (none_line_skipped fresh _ line key rest Hk Ht Hn). reflexivity.
  - vm_compute. reflexivity.
Qed.

Lemma none_lines_are_skipped_witness :
  In "EQUIP:" entity_keys
  /\ JS.trim "  EQUIP: none " = ("EQUIP:" ++ " none")%string
  /\ JS.toUpperCase (entity_name "EQUIP:" " none") = "NONE"
  /\ update_line fresh0 (default_response "You walk on.") "  EQUIP: none "
     = default_response "You walk on.".
Proof.
  assert (H1 : In "EQUIP:" entity_keys) by (right; right; left; reflexivity).
  assert (H2 : JS.trim "  EQUIP: none " = ("EQUIP:" ++ " none")%string)
    by (vm_compute; reflexivity).
  assert (H3 : JS.toUpperCase (entity_name "EQUIP:" " none") = "NONE")
    by (vm_compute; reflexivity).
  split; [exact H1|]. split; [exact H2|]. split; [exact H3|].
  exact (proj1 (none_lines_are_skipped fresh0)
               (default_response "You walk on.") _ _ _ H1 H2 H3).
Defined.

(** *** More of the normalizer *)

Section ExecAll.
Context {A : Type} (match_at : string -> option (A * string)).
Hypothesis match_consumes :
  forall s a r, match_at s = Some (a, r) ->
                (String.length r < String.length s)%nat.

Lemma exec_all_In (s : string) (a : A) :
  In a (exec_all match_at match_consumes s) ->
  exists s' r, match_at s' = Some (a, r).
Proof.
  funelim (exec_all match_at match_consumes s).
  - intros [<-|Hin]; [eexists; eexists; eassumption|eauto].
  - contradiction.
  - intros Hin. eauto.
Qed.

Lemma exec_all_nil (s : string) :
  (forall k, match_at (JS.drop k s) = None) ->
  exec_all match_at match_consumes s = [].
Proof.
  funelim (exec_all match_at match_consumes s).
  - intros Hk. specialize (Hk 0%nat). cbn [JS.drop] in Hk. congruence.
  - reflexivity.
  - intros Hk.
    match goal with
    | IH : _ -> exec_all _ _ ?r = [] |- _ => apply IH
    end.
    intros k. exact (Hk (S k)).
Qed.
End ExecAll.

Lemma includes_drop (s needle : string) (k : nat) :
  JS.includes s needle = false -> String.prefix needle (JS.drop k s) = false.
Proof.
  revert k. induction s as [|c s IH]; intros k H; cbn [JS.includes] in H;
    apply orb_false_iff in H as [H1 H2].
  - destruct k; exact H1.
  - destruct k as [|k]; [exact H1|]. cbn [JS.drop]. apply IH. exact H2.
Qed.

(** X25. A text with no [###] in it is returned as the narrative of a
    response with no choice, no change of hp, the status [ongoing] and no
    other field. *)
Theorem text_without_headers_is_the_narrative (fresh : nat -> string)
        (text : string) :
  JS.includes text "###" = false ->
  parseTextResponse fresh text = Returns (default_response text).
Proof.
  intros H. unfold parseTextResponse. cbv zeta.
  assert (E : section_matches text = []).
  { unfold section_matches. apply exec_all_nil. intros k.
    unfold match_section, match_header.
    rewrite (includes_drop _ _ k H). reflexivity. }
  rewrite E. reflexivity.
Qed.

Lemma text_without_headers_is_the_narrative_witness :
  JS.includes "You walk on." "###" = false
  /\ parseTextResponse fresh0 "You walk on."
     = Returns (default_response "You walk on.").
Proof.
  assert (H : JS.includes "You walk on." "###" = false)
    by (vm_compute; reflexivity).
  split; [exact H|].
  exact (text_without_headers_is_the_narrative fresh0 "You walk on." H).
Defined.

Lemma read_digits_nonneg (acc : option Z) (s : string) (z : Z) :
  match acc with Some a => 0 <= a | None => True end ->
  JS.read_digits JS.digit_value 10 acc s = Some z -> 0 <= z.
Proof.
  revert acc. induction s as [|c s IH]; intros acc Hacc; cbn [JS.read_digits].
  - intros ->. exact Hacc.
  - unfold JS.digit_value at 1. destruct (JS.is_digit c).
    + apply IH. destruct acc as [a|]; lia.
    + intros ->. exact Hacc.
Qed.

Lemma digit_is_plain (c : ascii) :
  JS.is_digit c = true ->
  JS.is_space c = false /\ c <> "-"%char /\ c <> "+"%char
  /\ c <> "x"%char /\ c <> "X"%char.
Proof.
  destruct c as [[] [] [] [] [] [] [] []]; vm_compute; intros H;
    try discriminate H; repeat split; discriminate.
Qed.

Lemma parseInt_digits (s : string) (v : Z) :
  all_chars JS.is_digit s = true -> JS.parseInt s = JS.Num v -> 0 <= v.
Proof.
  intros Hs. unfold JS.parseInt, JS.trimStart.
  destruct s as [|c s]; [cbn; discriminate|].
  cbn [all_chars] in Hs. apply andb_true_iff in Hs as [Hc Hs].
  destruct (digit_is_plain c Hc) as (Hsp & Hminus & Hplus & _).
  cbn [JS.drop_while]. rewrite Hsp.
  assert (E : (let '(neg, body) :=
                 match String c s with
                 | String "-" r => (true, r)
                 | String "+" r => (false, r)
                 | _ => (false, String c s)
                 end in
               match JS.read_unsigned body with
               | Some z => JS.Num (if neg then - z else z)
               | None => JS.NaN
               end)
              = match JS.read_unsigned (String c s) with
                | Some z => JS.Num z
                | None => JS.NaN
                end).
  { destruct c as [[] [] [] [] [] [] [] []]; try reflexivity; congruence. }
  rewrite E. clear E.
  assert (R : JS.read_unsigned (String c s)
              = JS.read_digits JS.digit_value 10 None (String c s)).
  { unfold JS.read_unsigned. destruct s as [|x s']; [destruct c as [[] [] [] [] [] [] [] []]; reflexivity|].
    cbn [all_chars] in Hs. apply andb_true_iff in Hs as [Hx _].
    destruct (digit_is_plain x Hx) as (_ & _ & _ & Hx1 & Hx2).
    assert (Ex : Ascii.eqb x "x" || Ascii.eqb x "X" = false).
    { apply orb_false_iff. split; apply Ascii.eqb_neq; assumption. }
    destruct c as [[] [] [] [] [] [] [] []]; try reflexivity.
    rewrite Ex. reflexivity. }
  rewrite R.
  destruct (JS.read_digits JS.digit_value 10 None (String c s)) as [z|] eqn:D;
    [|discriminate].
  intros [= <-]. apply (read_digits_nonneg None (String c s)); [exact I|exact D].
Qed.

Lemma take_while_all (p : ascii -> bool) (s : string) :
  all_chars p (JS.take_while p s) = true.
Proof.
  induction s as [|c s IH]; [reflexivity|]. cbn [JS.take_while].
  destruct (p c) eqn:E; [|reflexivity]. cbn [all_chars]. rewrite E. exact IH.
Qed.

Lemma match_bonus_shape (s stat digits r : string) :
  match_bonus s = Some ((stat, digits), r) ->
  String.length stat = 3%nat /\ all_chars JS.is_upper stat = true
  /\ all_chars JS.is_digit digits = true.
Proof.
  unfold match_bonus.
  destruct s as [|a [|b [|c s]]]; try discriminate.
  destruct (JS.is_upper a) eqn:Ea; [|discriminate].
  destruct (JS.is_upper b) eqn:Eb; [|discriminate].
  destruct (JS.is_upper c) eqn:Ec; [|discriminate].
  cbn [andb]. cbv zeta. destruct (JS.truthy _); [|discriminate].
  intros [= <- <- _]. split; [reflexivity|]. split.
  - cbn [all_chars]. rewrite Ea, Eb, Ec. reflexivity.
  - apply take_while_all.
Qed.

Lemma bonuses_set_In (b : Bonuses) (k0 : string) (v0 : Z) (k : string)
      (v : Z) :
  In (k, v) (bonuses_set b k0 v0) -> (k, v) = (k0, v0) \/ In (k, v) b.
Proof.
  induction b as [|[k' v'] b IH]; cbn [bonuses_set In].
  - intros [E|[]]. left. symmetry. exact E.
  - destruct (String.eqb k0 k'); cbn [In].
    + intros [E|H]; [left; symmetry; exact E|right; right; exact H].
    + intros [E|H]; [right; left; exact E|].
      destruct (IH H) as [E|H']; [left; exact E|right; right; exact H'].
Qed.

(** X26. Every bonus the normalizer reads has a key of three upper-case
    letters and a value that is not negative: a penalty such as [DEX-1] is
    not read. *)
Theorem parsed_bonuses_are_not_negative (s k : string) (v : Z) :
  In (k, v) (parse_bonuses s) ->
  0 <= v /\ String.length k = 3%nat /\ all_chars JS.is_upper k = true.
Proof.
  unfold parse_bonuses.
  assert (G : forall (ms : list (string * string)) (b : Bonuses),
             (forall stat digits, In (stat, digits) ms ->
                String.length stat = 3%nat
                /\ all_chars JS.is_upper stat = true
                /\ all_chars JS.is_digit digits = true) ->
             (forall k v, In (k, v) b ->
                0 <= v /\ String.length k = 3%nat
                /\ all_chars JS.is_upper k = true) ->
             forall k v,
               In (k, v)
                  (fold_left
                     (fun b '(stat, digits) =>
                        match JS.parseInt digits with
                        | JS.Num v => if JS.truthy stat
                                      then bonuses_set b stat v else b
                        | JS.NaN => b
                        end) ms b) ->
               0 <= v /\ String.length k = 3%nat
               /\ all_chars JS.is_upper k = true).
  { induction ms as [|[stat digits] ms IH]; intros b Hms Hb k' v';
      cbn [fold_left]; [apply Hb|].
    apply IH.
    - intros st dg H. apply Hms. right. exact H.
    - intros k1 v1 H1.
      destruct (Hms stat digits (or_introl eq_refl)) as (L & U & D).
      destruct (JS.parseInt digits) as [|z] eqn:P; [apply Hb; exact H1|].
      destruct (JS.truthy stat); [|apply Hb; exact H1].
      apply bonuses_set_In in H1 as [E|H1]; [|apply Hb; exact H1].
      inversion E. subst. split; [|split; assumption].
      apply (parseInt_digits digits); assumption. }
  apply G.
  - intros stat digits H.
    apply exec_all_In in H as (s' & r & H).
    apply (match_bonus_shape _ _ _ _ H).
  - intros ? ? [].
Qed.

Lemma parsed_bonuses_are_not_negative_witness :
  parse_bonuses "STR+2, DEX-1, CON: 1" = [("STR", 2); ("CON", 1)]
  /\ 0 <= 2.
Proof.
  assert (E : parse_bonuses "STR+2, DEX-1, CON: 1" = [("STR", 2); ("CON", 1)])
    by (vm_compute; reflexivity).
  split; [exact E|].
  apply (parsed_bonuses_are_not_negative "STR+2, DEX-1, CON: 1" "STR" 2).
  rewrite E. left. reflexivity.
Defined.

(** X27. A STATUS line sets the status to [won] or [lost] when its value
    is exactly that, and to [ongoing] for any other value, whatever the status
    was; it changes no other field, and repeating it changes nothing. *)
Theorem status_line_sets_the_status (fresh : nat -> string)
        (r : AIStoryResponse) (line rest : string) :
  JS.trim line = ("STATUS:" ++ rest)%string ->
  update_line fresh r line = set_game_status r (status_of (JS.trim rest))
  /\ update_line fresh (update_line fresh r line) line
     = update_line fresh r line.
Proof.
  intros Htrim.
  assert (E : forall r0, update_line fresh r0 line
                         = set_game_status r0 (status_of (JS.trim rest))).
  { intros r0. unfold update_line. rewrite Htrim.
    change (JS.truthy ("STATUS:" ++ rest)) with true. cbn [negb].
    unfold update_scalars, item_add, item_remove, equip_line, unequip_line,
      effect_add.
    cbv zeta. decide_startsWith rest.
    unfold name_after. rewrite replace_append. unfold status_of.
    destruct (String.eqb (JS.trim rest) "won"); [reflexivity|].
    destruct (String.eqb (JS.trim rest) "lost"); reflexivity. }
  split; [apply E|]. rewrite !E. reflexivity.
Qed.

Lemma status_line_sets_the_status_witness :
  JS.trim " STATUS: WON" = ("STATUS:" ++ " WON")%string
  /\ Parser.game_status
       (update_line fresh0 (set_game_status (default_response "The end.")
                                            lost)
                    " STATUS: WON")
     = ongoing.
Proof.
  assert (H : JS.trim " STATUS: WON" = ("STATUS:" ++ " WON")%string)
    by (vm_compute; reflexivity).
  split; [exact H|].
  rewrite (proj1 (status_line_sets_the_status
                    fresh0 (set_game_status (default_response "The end.") lost)
                    " STATUS: WON" " WON" H)).
  vm_compute. reflexivity.
Defined.

(** X28. An UPDATES section whose lines start with none of the eight keys
    leaves the response as it was. *)
Theorem unknown_lines_are_ignored (fresh : nat -> string)
        (r : AIStoryResponse) (body : string) :
  (forall line, In line (JS.splitLines body) ->
     forallb (fun key => negb (JS.startsWith (JS.trim line) key)) update_keys
     = true) ->
  parse_updates fresh r body = r.
Proof.
  unfold parse_updates.
  induction (JS.splitLines body) as [|line lines IH]; intros H;
    [reflexivity|].
  cbn [fold_left].
  assert (E : update_line fresh r line = r).
  { specialize (H line (or_introl eq_refl)).
    unfold update_keys in H. cbn [forallb] in H.
    repeat (apply andb_true_iff in H as [?H H]).
    repeat match goal with
           | H : negb _ = true |- _ => apply negb_true_iff in H
           end.
    unfold update_line. cbv zeta. destruct (JS.truthy (JS.trim line));
      [|reflexivity].
    cbn [negb].
    unfold update_scalars, item_add, item_remove, equip_line, unequip_line,
      effect_add.
    cbv zeta.
    repeat match goal with
           | H : JS.startsWith _ _ = false |- _ => rewrite H; clear H
           end.
    reflexivity. }
  rewrite E. apply IH. intros l Hl. apply H. right. exact Hl.
Qed.

Lemma unknown_lines_are_ignored_witness :
  (forall line, In line (JS.splitLines ("GOLD: 5" ++ nl ++ "Nothing else.")) ->
     forallb (fun key => negb (JS.startsWith (JS.trim line) key)) update_keys
     = true)
  /\ parse_updates fresh0 (default_response "You walk on.")
                   ("GOLD: 5" ++ nl ++ "Nothing else.")
     = default_response "You walk on.".
Proof.
  assert (H : forall line,
             In line (JS.splitLines ("GOLD: 5" ++ nl ++ "Nothing else.")) ->
             forallb (fun key => negb (JS.startsWith (JS.trim line) key))
                     update_keys = true).
  { intros line Hl. vm_compute in Hl.
    destruct Hl as [<-|[<-|[]]]; vm_compute; reflexivity. }
  split; [exact H|].
  exact (unknown_lines_are_ignored fresh0 (default_response "You walk on.")
                                   _ H).
Defined.
